(** * Grid-list tile styler: a shallow embedding and its verification

    The development follows [tile-styler.js] (the [TileStyler] family that is
    bundled in [src/app/material/esm2015/core/line/line.js]): the regular
    expression [cssCalcAllowedValue], the base class [TileStyler], its three
    subclasses [FixedTileStyler], [RatioTileStyler] and [FitTileStyler], and
    the helpers [calc] and [normalizeUnits].

    The code is JavaScript, so the first part models the pieces of the
    language runtime the stylers rely on: IEEE 754 binary64 numbers (through
    the Standard Library's [SpecFloat]), [Number::toString], [parseFloat],
    [String.prototype.split], template literals and regular expressions.
    The second part is the embedding of the stylers, the third part gives
    the emitted CSS values a meaning, the fourth part embeds the two other
    helpers of the bundle, [setLines] and [mixinTabIndex], and the last
    parts state and prove the properties. *)

From Stdlib Require Import ZArith Ascii Floats.SpecFloat Lia.
From stdpp Require Import base strings list gmap pretty.

Open Scope Z_scope.

(* ===================================================================== *)
(** * Part 1: the JavaScript runtime *)
(* ===================================================================== *)

Module JS.

(** ** Completion records: a call returns normally or throws *)

Inductive exn : Type :=
| Error (message : string)
| TypeError (message : string).

Inductive completion (A : Type) : Type :=
| Normal (a : A)
| Throw (e : exn).

Arguments Normal {A} a.
Arguments Throw {A} e.

Definition throws {A : Type} (c : completion A) : bool :=
  match c with
  | Normal _ => false
  | Throw _ => true
  end.

(** ** Numbers: IEEE 754 binary64 *)

Definition number : Type := spec_float.

Definition prec : Z := 53.
Definition emax : Z := 1024.

Definition NaN : number := S754_nan.
Definition Infinity : number := S754_infinity false.
Definition pos_zero : number := S754_zero false.

Definition num_add : number -> number -> number := SFadd prec emax.
Definition num_sub : number -> number -> number := SFsub prec emax.
Definition num_mul : number -> number -> number := SFmul prec emax.
Definition num_div : number -> number -> number := SFdiv prec emax.

(** [x === y] on two numbers. *)
Definition strict_eq : number -> number -> bool := SFeqb.

(** The number denoted by an integer literal (rounded to nearest, ties to
    even, when it has more than 53 significant bits). *)
Definition num_of_Z (z : Z) : number := binary_normalize prec emax z 0 false.

(** [x] is [+0] or [-0]. *)
Definition is_zero (x : number) : bool :=
  match x with
  | S754_zero _ => true
  | _ => false
  end.

Definition is_finite (x : number) : bool :=
  match x with
  | S754_zero _ | S754_finite _ _ _ => true
  | S754_infinity _ | S754_nan => false
  end.

Definition is_nan (x : number) : bool :=
  match x with
  | S754_nan => true
  | _ => false
  end.

(** A number proper: not [NaN], and in the canonical binary64 representation
    that the arithmetic produces. *)
Definition well_formed (x : number) : bool :=
  valid_binary prec emax x && negb (is_nan x).

(** A field that has not been assigned yet reads as [undefined];
    [ToNumber(undefined)] is [NaN]. *)
Definition ToNumber (v : option number) : number :=
  match v with
  | Some x => x
  | None => NaN
  end.

(** The number nearest to the decimal [s * 10 ^ q].  The division is the
    correctly rounded binary64 division of the two integers, whatever their
    size. *)
Definition num_of_decimal (s q : Z) : number :=
  match s with
  | Z0 => S754_zero false
  | Zpos p =>
      if 0 <=? q then num_of_Z (s * 10 ^ q)
      else num_div (S754_finite false p 0)
                   (S754_finite false (Z.to_pos (10 ^ (- q))) 0)
  | Zneg p =>
      if 0 <=? q then num_of_Z (s * 10 ^ q)
      else num_div (S754_finite true p 0)
                   (S754_finite false (Z.to_pos (10 ^ (- q))) 0)
  end.

(** ** [Number::toString] (ECMAScript 6.1.6.1.20, radix 10)

    For a finite non-zero [x] the standard asks for integers [n], [k], [s]
    with [10^(k-1) <= s < 10^k], such that [s * 10^(n-k)] rounds to [x] and
    [k] is as small as possible; among several [s] the one nearest to [x] is
    taken.  [shortest] searches [k = 1, 2, ...]; for each [k] only the two
    [k]-digit decimals around [x] can round to [x]. *)

(** [num / den < 10 ^ n], for [den > 0]. *)
Definition lt_pow10 (num den n : Z) : bool :=
  if 0 <=? n then num <? den * 10 ^ n else num * 10 ^ (- n) <? den.

Fixpoint exp_up (fuel : nat) (num den n : Z) : Z :=
  match fuel with
  | O => n
  | S f => if lt_pow10 num den n then n else exp_up f num den (n + 1)
  end.

Fixpoint exp_down (fuel : nat) (num den n : Z) : Z :=
  match fuel with
  | O => n
  | S f => if lt_pow10 num den (n - 1) then exp_down f num den (n - 1) else n
  end.

(** The [n] with [10 ^ (n - 1) <= num / den < 10 ^ n]; binary64 values lie
    between [10 ^ -324] and [10 ^ 309]. *)
Definition decimal_exponent (num den : Z) : Z :=
  if lt_pow10 num den 0 then exp_down 400 num den 0 else exp_up 400 num den 1.

(** The [k]-digit decimal [s * 10 ^ (n0 - k)] that rounds to [x], if any. *)
Definition candidate (x : number) (num den n0 k : Z) : option (Z * Z) :=
  let j := k - n0 in
  let a := if 0 <=? j then num * 10 ^ j else num in
  let b := if 0 <=? j then den else den * 10 ^ (- j) in
  let lo := a / b in
  let hi := lo + 1 in
  let ok_lo := strict_eq (num_of_decimal lo (n0 - k)) x in
  let ok_hi := strict_eq (num_of_decimal hi (n0 - k)) x in
  let prefer_lo :=
    match 2 * (a - lo * b) ?= b with
    | Lt => true
    | Eq => Z.even lo
    | Gt => false
    end in
  match ok_lo, ok_hi with
  | true, true => Some (if prefer_lo then lo else hi, n0 - k)
  | true, false => Some (lo, n0 - k)
  | false, true => Some (hi, n0 - k)
  | false, false => None
  end.

Fixpoint shortest (fuel : nat) (x : number) (num den n0 k : Z) : Z * Z :=
  match fuel with
  | O => (0, 0)
  | S f =>
      match candidate x num den n0 k with
      | Some r => r
      | None => shortest f x num den n0 (k + 1)
      end
  end.

Fixpoint strip_zeros (fuel : nat) (s q : Z) : Z * Z :=
  match fuel with
  | O => (s, q)
  | S f =>
      if (s mod 10 =? 0) && negb (s =? 0)
      then strip_zeros f (s / 10) (q + 1)
      else (s, q)
  end.

(** The shortest decimal [s * 10 ^ q] that reads back as the positive finite
    number with mantissa [m] and exponent [e]; 17 digits always suffice. *)
Definition digits_of (m : positive) (e : Z) : Z * Z :=
  let num := if 0 <=? e then Zpos m * 2 ^ e else Zpos m in
  let den := if 0 <=? e then 1 else 2 ^ (- e) in
  let n0 := decimal_exponent num den in
  let '(s, q) := shortest 17 (S754_finite false m e) num den n0 1 in
  strip_zeros 17 s q.

Fixpoint zeros (n : nat) : string :=
  match n with
  | O => ""
  | S n' => "0" +:+ zeros n'
  end.

(** Steps 6 to 12 of [Number::toString]: plain notation when the decimal
    point position [n] is between -5 and 21, exponent notation otherwise. *)
Definition format_decimal (s q : Z) : string :=
  let ds := pretty s in
  let k := Z.of_nat (String.length ds) in
  let n := q + k in
  if (-5 <=? n) && (n <=? 21) then
    if k <=? n then ds +:+ zeros (Z.to_nat (n - k))
    else if 0 <? n then
      String.substring 0 (Z.to_nat n) ds +:+ "." +:+
      String.substring (Z.to_nat n) (Z.to_nat (k - n)) ds
    else "0." +:+ zeros (Z.to_nat (- n)) +:+ ds
  else
    let e := n - 1 in
    let sign := if 0 <=? e then "+" else "-" in
    if k =? 1 then ds +:+ "e" +:+ sign +:+ pretty (Z.abs e)
    else String.substring 0 1 ds +:+ "." +:+
         String.substring 1 (Z.to_nat (k - 1)) ds +:+
         "e" +:+ sign +:+ pretty (Z.abs e).

Definition Number_toString (x : number) : string :=
  match x with
  | S754_nan => "NaN"
  | S754_zero _ => "0"
  | S754_infinity false => "Infinity"
  | S754_infinity true => "-Infinity"
  | S754_finite sg m e =>
      let '(s, q) := digits_of m e in
      (if sg then "-" else "") +:+ format_decimal s q
  end.

(** ** Template literals: [`${v}`] applies [ToString] to [v] *)

Class Template (A : Type) := ToString : A -> string.

#[global] Instance template_string : Template string := fun s => s.
#[global] Instance template_number : Template number := Number_toString.
#[global] Instance template_undefined {A : Type} `{Template A} :
  Template (option A) :=
  fun v => match v with
           | Some a => ToString a
           | None => "undefined"
           end.

(** ** Characters and decimal literals *)

Definition code (c : ascii) : Z := Z.of_N (N_of_ascii c).

Definition is_digit (c : ascii) : bool := (48 <=? code c) && (code c <=? 57).

Definition is_alpha (c : ascii) : bool :=
  ((65 <=? code c) && (code c <=? 90)) || ((97 <=? code c) && (code c <=? 122)).

(** White space and line terminators of the ASCII range. *)
Definition is_space (c : ascii) : bool :=
  ((9 <=? code c) && (code c <=? 13)) || (code c =? 32).

Definition char_is (a c : ascii) : bool := Ascii.eqb a c.

(** Reads a run of decimal digits: the value accumulated on [acc], the number
    of digits read, and the rest of the string. *)
Fixpoint scan_digits (s : string) (acc count : Z) : Z * Z * string :=
  match s with
  | String c s' =>
      if is_digit c then scan_digits s' (10 * acc + (code c - 48)) (count + 1)
      else (acc, count, s)
  | EmptyString => (acc, count, s)
  end.

(** [ExponentPart]: [e] or [E], an optional sign and at least one digit; the
    exponent is 0 and nothing is consumed when there is none. *)
Definition scan_exponent (s : string) : Z * string :=
  match s with
  | String c s1 =>
      if char_is "e" c || char_is "E" c then
        let '(sign, s2) :=
          match s1 with
          | String "+" r => (1, r)
          | String "-" r => (-1, r)
          | _ => (1, s1)
          end in
        let '(v, n, r) := scan_digits s2 0 0 in
        if 0 <? n then (sign * v, r) else (0, s)
      else (0, s)
  | EmptyString => (0, s)
  end.

(** The longest prefix that is an unsigned decimal literal: its digits as an
    integer [m], the power of ten [q] (the literal denotes [m * 10 ^ q]) and
    the rest of the string.  [StrUnsignedDecimalLiteral] of ECMAScript allows
    a final dot with no digit after it ([bare_dot] is true); a CSS number
    does not. *)
Definition scan_decimal (bare_dot : bool) (s : string) : option (Z * Z * string) :=
  let '(ip, ni, r1) := scan_digits s 0 0 in
  let integral := if 0 <? ni then Some (let '(ex, r) := scan_exponent r1 in (ip, ex, r))
                  else None in
  match r1 with
  | String "." r2 =>
      let '(m, nf, r3) := scan_digits r2 ip 0 in
      if (0 <? nf) || ((0 <? ni) && bare_dot)
      then Some (let '(ex, r) := scan_exponent r3 in (m, ex - nf, r))
      else integral
  | _ => integral
  end.

Fixpoint trim_start (s : string) : string :=
  match s with
  | String c s' => if is_space c then trim_start s' else s
  | EmptyString => s
  end.

(** ** [parseFloat] (ECMAScript 19.2.4) *)
Definition parseFloat (input : string) : number :=
  let s := trim_start input in
  let '(neg, s1) :=
    match s with
    | String "-" r => (true, r)
    | String "+" r => (false, r)
    | _ => (false, s)
    end in
  if String.prefix "Infinity" s1 then S754_infinity neg
  else
    match scan_decimal true s1 with
    | Some (m, q, _) =>
        let v := num_of_decimal m q in if neg then SFopp v else v
    | None => NaN
    end.

(** ** [String.prototype.split] with a one-character separator *)
Fixpoint split (sep : ascii) (s : string) : list string :=
  match s with
  | EmptyString => [""]
  | String c s' =>
      if char_is sep c then "" :: split sep s'
      else
        match split sep s' with
        | [] => [String c ""]
        | part :: parts => String c part :: parts
        end
  end.

(** The number of occurrences of [c] in [s]. *)
Fixpoint occurrences (c : ascii) (s : string) : nat :=
  match s with
  | EmptyString => O
  | String x s' => if char_is c x then S (occurrences c s') else occurrences c s'
  end.

(** ** Regular expressions

    The two patterns of the source use character classes, concatenation,
    [?] and [+] only, so a match exists exactly when the text belongs to the
    regular language; membership is decided with derivatives. *)

Inductive regex : Type :=
| Void
| Eps
| Class (p : ascii -> bool)
| Seq (r1 r2 : regex)
| Alt (r1 r2 : regex)
| Star (r : regex).

Definition Opt (r : regex) : regex := Alt r Eps.
Definition Plus (r : regex) : regex := Seq r (Star r).

Fixpoint nullable (r : regex) : bool :=
  match r with
  | Void => false
  | Eps => true
  | Class _ => false
  | Seq r1 r2 => nullable r1 && nullable r2
  | Alt r1 r2 => nullable r1 || nullable r2
  | Star _ => true
  end.

Fixpoint deriv (c : ascii) (r : regex) : regex :=
  match r with
  | Void => Void
  | Eps => Void
  | Class p => if p c then Eps else Void
  | Seq r1 r2 =>
      if nullable r1 then Alt (Seq (deriv c r1) r2) (deriv c r2)
      else Seq (deriv c r1) r2
  | Alt r1 r2 => Alt (deriv c r1) (deriv c r2)
  | Star r1 => Seq (deriv c r1) (Star r1)
  end.

(** The whole of [s] matches [r]: what [/^r$/.test(s)] returns. *)
Fixpoint matches (r : regex) (s : string) : bool :=
  match s with
  | EmptyString => nullable r
  | String c s' => matches (deriv c r) s'
  end.

(** Some suffix of [s] matches [r]: whether [s.match(/r$/)] is not [null]. *)
Fixpoint matches_at_end (r : regex) (s : string) : bool :=
  matches r s ||
  match s with
  | EmptyString => false
  | String _ s' => matches_at_end r s'
  end.

End JS.

Import JS.

(* ===================================================================== *)
(** * Part 2: the tile stylers *)
(* ===================================================================== *)

Definition dquote : string := String "034"%char "".

(** [/^-?\d+((\.\d+)?[A-Za-z%$]?)+$/]: the values allowed inside a CSS
    [calc()] expression. *)
Definition cssCalcAllowedValue : regex :=
  Seq (Opt (Class (char_is "-")))
      (Seq (Plus (Class is_digit))
           (Plus (Seq (Opt (Seq (Class (char_is ".")) (Plus (Class is_digit))))
                      (Opt (Class (fun c => is_alpha c || char_is "%" c || char_is "$" c)))))).

(** [/([A-Za-z%]+)$/], the pattern of [normalizeUnits]. *)
Definition trailingUnit : regex :=
  Plus (Class (fun c => is_alpha c || char_is "%" c)).

(** Wraps a CSS string in a calc function. *)
Definition calc (exp : string) : string := "calc(" +:+ exp +:+ ")".

(** Appends pixels to a CSS string if no units are given. *)
Definition normalizeUnits (value : string) : string :=
  if matches_at_end trailingUnit value then value else value +:+ "px".

(** ** The collaborators of a styler *)

Module MatGridTile.

Record t : Type := {
  colspan : number;
  rowspan : number;
  style : gmap string string
}.

(** Modelled from the spec: the tile's [_setStyle(property, value)] is not
    among the sources; it assigns [value] to the style property, and the
    value [null] ([None]) clears the property. *)
Definition _setStyle (property : string) (value : option string) (tile : t) : t :=
  {| colspan := colspan tile;
     rowspan := rowspan tile;
     style := match value with
              | Some v => <[property := v]> (style tile)
              | None => delete property (style tile)
              end |}.

End MatGridTile.

Module TileCoordinator.

(** The two figures a styler reads from the tracker. *)
Record t : Type := {
  rowCount : number;
  rowspan : number
}.

End TileCoordinator.

Module TileStyleTarget.

(** The grid list as a styler sees it: its own style, and the tiles, a
    collection that is [undefined] ([None]) until the list's content has been
    initialised. *)
Record t : Type := {
  listStyle : gmap string string;
  _tiles : option (list MatGridTile.t)
}.

(** Modelled from the spec: the list's [_setListStyle(style)] is not among
    the sources; it applies a [property, value] pair to the list, [null]
    clearing the property, and does nothing when no pair is given. *)
Definition _setListStyle (style : option (string * option string)) (list : t) : t :=
  match style with
  | Some (property, Some v) =>
      {| listStyle := <[property := v]> (listStyle list); _tiles := _tiles list |}
  | Some (property, None) =>
      {| listStyle := delete property (listStyle list); _tiles := _tiles list |}
  | None => list
  end.

End TileStyleTarget.

(** ** [class TileStyler] *)

Module TileStyler.

Record t : Type := {
  _gutterSize : option string;
  _rows : number;
  _rowspan : number;
  _cols : option number;
  _direction : option string
}.

Definition constructor : t :=
  {| _gutterSize := None;
     _rows := num_of_Z 0;
     _rowspan := num_of_Z 0;
     _cols := None;
     _direction := None |}.

(** Adds grid-list layout info once it is available. *)
Definition init (gutterSize : string) (tracker : TileCoordinator.t)
    (cols : number) (direction : string) (this : t) : t :=
  {| _gutterSize := Some (normalizeUnits gutterSize);
     _rows := TileCoordinator.rowCount tracker;
     _rowspan := TileCoordinator.rowspan tracker;
     _cols := Some cols;
     _direction := Some direction |}.

(** Computes the amount of space a single 1x1 tile would take up. *)
Definition getBaseTileSize (this : t) (sizePercent gutterFraction : number) : string :=
  "(" +:+ ToString sizePercent +:+ "% - (" +:+ ToString (_gutterSize this) +:+
  " * " +:+ ToString gutterFraction +:+ "))".

(** Gets the horizontal or vertical position of a tile. *)
Definition getTilePosition (this : t) (baseSize : option string) (offset : number) : string :=
  if strict_eq offset (num_of_Z 0) then "0"
  else calc ("(" +:+ ToString baseSize +:+ " + " +:+ ToString (_gutterSize this) +:+
             ") * " +:+ ToString offset).

(** Gets the actual size of a tile, taking rowspan or colspan into account. *)
Definition getTileSize (this : t) (baseSize : option string) (span : number) : string :=
  "(" +:+ ToString baseSize +:+ " * " +:+ ToString span +:+ ") + (" +:+
  ToString (num_sub span (num_of_Z 1)) +:+ " * " +:+ ToString (_gutterSize this) +:+ ")".

(** Percent of the available horizontal space that one column takes up. *)
Definition percentWidthPerTile (this : t) : number :=
  num_div (num_of_Z 100) (ToNumber (_cols this)).

(** Fraction of the vertical gutter size that each column takes up. *)
Definition gutterWidthFractionPerTile (this : t) : number :=
  num_div (num_sub (ToNumber (_cols this)) (num_of_Z 1)) (ToNumber (_cols this)).

(** Sets the horizontal placement of the tile in the list. *)
Definition setColStyles (this : t) (tile : MatGridTile.t) (colIndex : number)
    (percentWidth gutterWidth : number) : MatGridTile.t :=
  let baseTileWidth := getBaseTileSize this percentWidth gutterWidth in
  let side := if decide (_direction this = Some "rtl") then "right" else "left" in
  let tile := MatGridTile._setStyle side
                (Some (getTilePosition this (Some baseTileWidth) colIndex)) tile in
  MatGridTile._setStyle "width"
    (Some (calc (getTileSize this (Some baseTileWidth) (MatGridTile.colspan tile)))) tile.

(** Calculates the total size taken up by gutters across one axis of a list. *)
Definition getGutterSpan (this : t) : string :=
  ToString (_gutterSize this) +:+ " * (" +:+ ToString (_rowspan this) +:+ " - 1)".

(** Calculates the total size taken up by tiles across one axis of a list. *)
Definition getTileSpan (this : t) (tileHeight : option string) : string :=
  ToString (_rowspan this) +:+ " * " +:+ getTileSize this tileHeight (num_of_Z 1).

(** The base class computes no height. *)
Definition getComputedHeight (this : t) : option (string * string) := None.

End TileStyler.

(** The methods a subclass provides, and the base-class state it extends. *)
Class Styler (S : Type) : Type := {
  base : S -> TileStyler.t;
  setRowStyles : S -> MatGridTile.t -> number -> number -> number -> S * MatGridTile.t;
  getComputedHeight : S -> option (string * string);
  reset : S -> TileStyleTarget.t -> TileStyleTarget.t * completion unit
}.

(** [TileStyler.prototype.setStyle]: sets the style properties of a tile for
    the given row and column index; [this.setRowStyles] is the subclass's. *)
Definition setStyle {S : Type} `{Styler S} (this : S) (tile : MatGridTile.t)
    (rowIndex colIndex : number) : S * MatGridTile.t :=
  let percentWidthPerTile := TileStyler.percentWidthPerTile (base this) in
  let gutterWidthFractionPerTile := TileStyler.gutterWidthFractionPerTile (base this) in
  let tile := TileStyler.setColStyles (base this) tile colIndex
                percentWidthPerTile gutterWidthFractionPerTile in
  setRowStyles this tile rowIndex percentWidthPerTile gutterWidthFractionPerTile.

(** [list._tiles.forEach(tile => { tile._setStyle(p1, null); tile._setStyle(p2, null); })] *)
Definition clearTiles (p1 p2 : string) (tiles : list MatGridTile.t) : list MatGridTile.t :=
  (fun tile => MatGridTile._setStyle p2 None (MatGridTile._setStyle p1 None tile)) <$> tiles.

(** ** [class FixedTileStyler extends TileStyler] *)

Module FixedTileStyler.

Record t : Type := {
  super : TileStyler.t;
  fixedRowHeight : string
}.

(** [new FixedTileStyler(fixedRowHeight)]: the body stores its argument and
    has no [throw]. *)
Definition constructor (fixedRowHeight : string) : completion t :=
  Normal {| super := TileStyler.constructor; fixedRowHeight := fixedRowHeight |}.

Definition init (gutterSize : string) (tracker : TileCoordinator.t)
    (cols : number) (direction : string) (this : t) : completion t :=
  let this := {| super := TileStyler.init gutterSize tracker cols direction (super this);
                 fixedRowHeight := fixedRowHeight this |} in
  let this := {| super := super this;
                 fixedRowHeight := normalizeUnits (fixedRowHeight this) |} in
  if negb (matches cssCalcAllowedValue (fixedRowHeight this))
  then Throw (Error ("Invalid value " +:+ dquote +:+ fixedRowHeight this +:+ dquote +:+
                     " set as rowHeight."))
  else Normal this.

Definition setRowStyles (this : t) (tile : MatGridTile.t) (rowIndex : number) : MatGridTile.t :=
  let tile := MatGridTile._setStyle "top"
                (Some (TileStyler.getTilePosition (super this)
                         (Some (fixedRowHeight this)) rowIndex)) tile in
  MatGridTile._setStyle "height"
    (Some (calc (TileStyler.getTileSize (super this)
                   (Some (fixedRowHeight this)) (MatGridTile.rowspan tile)))) tile.

Definition getComputedHeight (this : t) : option (string * string) :=
  Some ("height",
        calc (TileStyler.getTileSpan (super this) (Some (fixedRowHeight this)) +:+ " + " +:+
              TileStyler.getGutterSpan (super this))).

Definition reset (this : t) (list : TileStyleTarget.t)
    : TileStyleTarget.t * completion unit :=
  let list := TileStyleTarget._setListStyle (Some ("height", None)) list in
  match TileStyleTarget._tiles list with
  | Some tiles =>
      ({| TileStyleTarget.listStyle := TileStyleTarget.listStyle list;
          TileStyleTarget._tiles := Some (clearTiles "top" "height" tiles) |},
       Normal ())
  | None => (list, Normal ())
  end.

End FixedTileStyler.

#[global] Instance fixed_styler : Styler FixedTileStyler.t := {
  base := FixedTileStyler.super;
  setRowStyles := fun this tile rowIndex _ _ =>
    (this, FixedTileStyler.setRowStyles this tile rowIndex);
  getComputedHeight := FixedTileStyler.getComputedHeight;
  reset := FixedTileStyler.reset
}.

(** ** [class RatioTileStyler extends TileStyler] *)

Module RatioTileStyler.

Record t : Type := {
  super : TileStyler.t;
  rowHeightRatio : number;
  baseTileHeight : option string
}.

Definition _parseRatio (value : string) : completion number :=
  let ratioParts := split ":" value in
  match ratioParts with
  | [part0; part1] => Normal (num_div (parseFloat part0) (parseFloat part1))
  | _ => Throw (Error ("mat-grid-list: invalid ratio given for row-height: " +:+
                       dquote +:+ value +:+ dquote))
  end.

Definition constructor (value : string) : completion t :=
  match _parseRatio value with
  | Normal ratio =>
      Normal {| super := TileStyler.constructor;
                rowHeightRatio := ratio;
                baseTileHeight := None |}
  | Throw e => Throw e
  end.

(** [TileStyler.prototype.init], inherited. *)
Definition init (gutterSize : string) (tracker : TileCoordinator.t)
    (cols : number) (direction : string) (this : t) : t :=
  {| super := TileStyler.init gutterSize tracker cols direction (super this);
     rowHeightRatio := rowHeightRatio this;
     baseTileHeight := baseTileHeight this |}.

Definition percentHeightPerTile (this : t) (percentWidth : number) : number :=
  num_div percentWidth (rowHeightRatio this).

Definition setRowStyles (this : t) (tile : MatGridTile.t)
    (rowIndex percentWidth gutterWidth : number) : t * MatGridTile.t :=
  let percentHeightPerTile := percentHeightPerTile this percentWidth in
  let this := {| super := super this;
                 rowHeightRatio := rowHeightRatio this;
                 baseTileHeight :=
                   Some (TileStyler.getBaseTileSize (super this)
                           percentHeightPerTile gutterWidth) |} in
  let tile := MatGridTile._setStyle "marginTop"
                (Some (TileStyler.getTilePosition (super this)
                         (baseTileHeight this) rowIndex)) tile in
  (this,
   MatGridTile._setStyle "paddingTop"
     (Some (calc (TileStyler.getTileSize (super this)
                    (baseTileHeight this) (MatGridTile.rowspan tile)))) tile).

Definition getComputedHeight (this : t) : option (string * string) :=
  Some ("paddingBottom",
        calc (TileStyler.getTileSpan (super this) (baseTileHeight this) +:+ " + " +:+
              TileStyler.getGutterSpan (super this))).

Definition reset (this : t) (list : TileStyleTarget.t)
    : TileStyleTarget.t * completion unit :=
  let list := TileStyleTarget._setListStyle (Some ("paddingBottom", None)) list in
  match TileStyleTarget._tiles list with
  | Some tiles =>
      ({| TileStyleTarget.listStyle := TileStyleTarget.listStyle list;
          TileStyleTarget._tiles := Some (clearTiles "marginTop" "paddingTop" tiles) |},
       Normal ())
  | None =>
      (list, Throw (TypeError "Cannot read properties of undefined (reading 'forEach')"))
  end.

End RatioTileStyler.

(** The specification's wording of a well-formed ratio, to compare with what
    [_parseRatio] checks: exactly two [:]-separated parts that both parse as
    finite numbers. *)
Definition spec_ratio_well_formed (value : string) : bool :=
  match split ":" value with
  | [part0; part1] => is_finite (parseFloat part0) && is_finite (parseFloat part1)
  | _ => false
  end.

#[global] Instance ratio_styler : Styler RatioTileStyler.t := {
  base := RatioTileStyler.super;
  setRowStyles := RatioTileStyler.setRowStyles;
  getComputedHeight := RatioTileStyler.getComputedHeight;
  reset := RatioTileStyler.reset
}.

(** ** [class FitTileStyler extends TileStyler] *)

Module FitTileStyler.

Record t : Type := {
  super : TileStyler.t
}.

Definition constructor : t := {| super := TileStyler.constructor |}.

(** [TileStyler.prototype.init], inherited. *)
Definition init (gutterSize : string) (tracker : TileCoordinator.t)
    (cols : number) (direction : string) (this : t) : t :=
  {| super := TileStyler.init gutterSize tracker cols direction (super this) |}.

(** Percent of the available vertical space that one row takes up. *)
Definition percentHeightPerTile (this : t) : number :=
  num_div (num_of_Z 100) (TileStyler._rowspan (super this)).

(** Fraction of the horizontal gutter size that each column takes up. *)
Definition gutterHeightPerTile (this : t) : number :=
  num_div (num_sub (TileStyler._rows (super this)) (num_of_Z 1))
          (TileStyler._rows (super this)).

Definition setRowStyles (this : t) (tile : MatGridTile.t) (rowIndex : number) : MatGridTile.t :=
  let percentHeightPerTile := percentHeightPerTile this in
  let gutterHeightPerTile := gutterHeightPerTile this in
  let baseTileHeight :=
    TileStyler.getBaseTileSize (super this) percentHeightPerTile gutterHeightPerTile in
  let tile := MatGridTile._setStyle "top"
                (Some (TileStyler.getTilePosition (super this)
                         (Some baseTileHeight) rowIndex)) tile in
  MatGridTile._setStyle "height"
    (Some (calc (TileStyler.getTileSize (super this)
                   (Some baseTileHeight) (MatGridTile.rowspan tile)))) tile.

Definition reset (this : t) (list : TileStyleTarget.t)
    : TileStyleTarget.t * completion unit :=
  match TileStyleTarget._tiles list with
  | Some tiles =>
      ({| TileStyleTarget.listStyle := TileStyleTarget.listStyle list;
          TileStyleTarget._tiles := Some (clearTiles "top" "height" tiles) |},
       Normal ())
  | None => (list, Normal ())
  end.

End FitTileStyler.

#[global] Instance fit_styler : Styler FitTileStyler.t := {
  base := FitTileStyler.super;
  setRowStyles := fun this tile rowIndex _ _ =>
    (this, FitTileStyler.setRowStyles this tile rowIndex);
  getComputedHeight := fun this => TileStyler.getComputedHeight (FitTileStyler.super this);
  reset := FitTileStyler.reset
}.

(* ===================================================================== *)
(** * Part 3: the meaning of the emitted CSS values *)
(* ===================================================================== *)

(** The stylers hand text to the rendering engine.  To state what that text
    denotes, this part reads a CSS value the way CSS Values and Units does
    for a length property: a number with a unit, or [calc(] sum [)] with
    [calc-sum = calc-product [ ('+' | '-') calc-product ]*],
    [calc-product = calc-value [ '*' calc-value | '/' calc-value ]*] and
    [calc-value = number | dimension | percentage | '(' calc-sum ')'].
    The computed value of a length is a percentage of the containing block's
    width plus an absolute length in pixels; the arithmetic is binary64, the
    same as the script's.  The units read are [px] and [%]. *)

Module Css.

Inductive token : Type :=
| TNum (v : number) (unit : string)
| TPlus
| TMinus
| TStar
| TSlash
| TLParen
| TRParen
| TFunc (name : string)
| TBad (word : string).

Fixpoint all_alpha (s : string) : bool :=
  match s with
  | EmptyString => true
  | String c s' => is_alpha c && all_alpha s'
  end.

Definition is_unit (u : string) : bool :=
  if decide (u = "%") then true else all_alpha u.

(** A word is a maximal run of characters other than white space,
    parentheses, [*] and [/]: a lone sign is an operator (CSS wants white
    space on both sides of it), a signed decimal literal followed by a unit
    is a numeric token, and anything else is not part of the grammar. *)
Definition classify (w : string) : token :=
  if decide (w = "+") then TPlus
  else if decide (w = "-") then TMinus
  else
    let '(neg, w1) :=
      match w with
      | String "-" r => (true, r)
      | String "+" r => (false, r)
      | _ => (false, w)
      end in
    match scan_decimal false w1 with
    | Some (m, q, u) =>
        if is_unit u
        then TNum (let v := num_of_decimal m q in if neg then SFopp v else v) u
        else TBad w
    | None => TBad w
    end.

Definition flush (cur : string) (rest : list token) : list token :=
  match cur with
  | EmptyString => rest
  | _ => classify cur :: rest
  end.

(** The tokens of [s], [cur] being the word read so far. *)
Fixpoint lex (cur : string) (s : string) : list token :=
  match s with
  | EmptyString => flush cur []
  | String c s' =>
      if is_space c then flush cur (lex "" s')
      else if char_is "(" c then
        match cur with
        | EmptyString => TLParen :: lex "" s'
        | _ => TFunc cur :: lex "" s'
        end
      else if char_is ")" c then flush cur (TRParen :: lex "" s')
      else if char_is "*" c then flush cur (TStar :: lex "" s')
      else if char_is "/" c then flush cur (TSlash :: lex "" s')
      else lex (cur +:+ String c "") s'
  end.

Inductive expr : Type :=
| Lit (v : number) (unit : string)
| Add (a b : expr)
| Sub (a b : expr)
| Mul (a b : expr)
| Div (a b : expr).

Section Grammar.

Variable value : list token -> option (expr * list token).

Fixpoint product_rest (fuel : nat) (e : expr) (ts : list token)
    : option (expr * list token) :=
  match ts with
  | TStar :: r =>
      match fuel, value r with
      | S f, Some (e', r') => product_rest f (Mul e e') r'
      | _, _ => None
      end
  | TSlash :: r =>
      match fuel, value r with
      | S f, Some (e', r') => product_rest f (Div e e') r'
      | _, _ => None
      end
  | _ => Some (e, ts)
  end.

Definition product (fuel : nat) (ts : list token) : option (expr * list token) :=
  match value ts with
  | Some (e, r) => product_rest fuel e r
  | None => None
  end.

Fixpoint sum_rest (fuel : nat) (e : expr) (ts : list token)
    : option (expr * list token) :=
  match ts with
  | TPlus :: r =>
      match fuel with
      | S f =>
          match product f r with
          | Some (e', r') => sum_rest f (Add e e') r'
          | None => None
          end
      | O => None
      end
  | TMinus :: r =>
      match fuel with
      | S f =>
          match product f r with
          | Some (e', r') => sum_rest f (Sub e e') r'
          | None => None
          end
      | O => None
      end
  | _ => Some (e, ts)
  end.

Definition sum (fuel : nat) (ts : list token) : option (expr * list token) :=
  match product fuel ts with
  | Some (e, r) => sum_rest fuel e r
  | None => None
  end.

End Grammar.

Fixpoint parse_value (fuel : nat) (ts : list token) : option (expr * list token) :=
  match fuel with
  | O => None
  | S f =>
      match ts with
      | TNum v u :: r => Some (Lit v u, r)
      | TLParen :: r =>
          match sum (parse_value f) f r with
          | Some (e, TRParen :: r') => Some (e, r')
          | _ => None
          end
      | _ => None
      end
  end.

(** A computed value: a plain number, or a length made of a percentage and a
    number of pixels. *)
Inductive value : Type :=
| Number (n : number)
| Length (percent px : number).

Fixpoint eval (e : expr) : option value :=
  match e with
  | Lit v u =>
      if decide (u = "") then Some (Number v)
      else if decide (u = "px") then Some (Length pos_zero v)
      else if decide (u = "%") then Some (Length v pos_zero)
      else None
  | Add a b =>
      match eval a, eval b with
      | Some (Number x), Some (Number y) => Some (Number (num_add x y))
      | Some (Length p x), Some (Length q y) => Some (Length (num_add p q) (num_add x y))
      | _, _ => None
      end
  | Sub a b =>
      match eval a, eval b with
      | Some (Number x), Some (Number y) => Some (Number (num_sub x y))
      | Some (Length p x), Some (Length q y) => Some (Length (num_sub p q) (num_sub x y))
      | _, _ => None
      end
  | Mul a b =>
      match eval a, eval b with
      | Some (Number x), Some (Number y) => Some (Number (num_mul x y))
      | Some (Number k), Some (Length p x) => Some (Length (num_mul k p) (num_mul k x))
      | Some (Length p x), Some (Number k) => Some (Length (num_mul p k) (num_mul x k))
      | _, _ => None
      end
  | Div a b =>
      match eval a, eval b with
      | Some (Number x), Some (Number y) =>
          if is_zero y then None else Some (Number (num_div x y))
      | Some (Length p x), Some (Number k) =>
          if is_zero k then None else Some (Length (num_div p k) (num_div x k))
      | _, _ => None
      end
  end.

(** The text of one calc-value, such as [100px] or a sum in parentheses. *)
Definition parse_atom (s : string) : option expr :=
  let ts := lex "" s in
  match parse_value (length ts) ts with
  | Some (e, []) => Some e
  | _ => None
  end.

Definition atom_value (s : string) : option value :=
  match parse_atom s with
  | Some e => eval e
  | None => None
  end.

(** The expression inside [calc( ... )]. *)
Definition parse_calc (ts : list token) : option expr :=
  match sum (parse_value (length ts)) (length ts) ts with
  | Some (e, [TRParen]) => Some e
  | _ => None
  end.

(** The computed value of the text of a length property; [None] when the text
    is not a valid length. *)
Definition length_value (s : string) : option value :=
  match lex "" s with
  | [TNum v u] =>
      match eval (Lit v u) with
      | Some (Number n) => if is_zero n then Some (Length pos_zero pos_zero) else None
      | r => r
      end
  | TFunc name :: ts =>
      if decide (name = "calc") then
        match parse_calc ts with
        | Some e =>
            match eval e with
            | Some (Length p x) => Some (Length p x)
            | _ => None
            end
        | None => None
        end
      else None
  | _ => None
  end.

(** The used value, in pixels, against a containing block of width [W]. *)
Definition used_value (W : number) (v : value) : number :=
  match v with
  | Number n => n
  | Length p x => num_add (num_div (num_mul p W) (num_of_Z 100)) x
  end.

End Css.

(** ** The scenario of the specification

    Three columns, a gutter of [4px], a fixed row height of [100px] and a 1x1
    tile in row 1, column 2. *)

(** The horizontal position the styler emits. *)
Definition scenario_left : string :=
  "calc(((33.333333333333336% - (4px * 0.6666666666666666)) + 4px) * 2)".

(** The horizontal position as the specification writes it. *)
Definition spec_left : string := "calc((( (100%/3 - (4px * 2/3)) ) + 4px) * 2)".

(** ** The exact value of a number

    Used to state how far a binary64 result is from the exact one. *)

(** A finite number as a fraction: numerator and positive denominator. *)
Definition exact_value (x : number) : Z * Z :=
  match x with
  | S754_finite s m e =>
      let v := if s then Zneg m else Zpos m in
      if 0 <=? e then (v * 2 ^ e, 1) else (v, 2 ^ (- e))
  | _ => (0, 1)
  end.

(** The specification's wording of the gutter budget of a row: the fractions
    of one full row of [columnCount] cells sum to exactly [columnCount - 1]
    gutter widths. *)
Definition accounts_for_interior_gutters (columnCount : Z) (fraction : number) : Prop :=
  let '(num, den) := exact_value fraction in
  columnCount * num = (columnCount - 1) * den.

(** The 53-bit mantissa and the exponent of a positive integer below
    [2 ^ 53]. *)
Definition mantissa_of (c : positive) : positive :=
  match (53 - Zpos (digits2_pos c))%Z with
  | Zpos k => Pos.iter xO c k
  | _ => c
  end.

Definition exponent_of (c : positive) : Z := Zpos (digits2_pos c) - 53.

(** What a rounding location says of the remainder [r] of a division by
    [n]. *)
Definition located (loc : location) (r n : Z) : Prop :=
  match loc with
  | loc_Exact => r = 0
  | loc_Inexact Lt => 0 < r /\ 2 * r < n
  | loc_Inexact Eq => 2 * r = n
  | loc_Inexact Gt => n < 2 * r
  end.

(* ===================================================================== *)
(** * Part 4: the line helper and the tab-index mixin *)
(* ===================================================================== *)

(** The bundle [line.js] also holds [setLines], which marks a host element
    with the number of lines it contains, and [mixinTabIndex]. *)

(** [x > y] *)
Definition num_gt (x y : number) : bool := SFltb y x.

Module ElementRef.

(** The host element as the helper sees it: the [classList] of its
    [nativeElement], a set of class names. *)
Record t : Type := {
  classList : gset string
}.

End ElementRef.

Module QueryList.

(** A query list of lines: its current [length], and the lengths of the lists
    that its [changes] observable emits afterwards, in order. *)
Record t : Type := {
  length : number;
  changes : list number
}.

End QueryList.

(** Adds or removes a class from an element. *)
Definition setClass (element : ElementRef.t) (className : string) (isAdd : bool)
    : ElementRef.t :=
  let classList := ElementRef.classList element in
  {| ElementRef.classList :=
       if isAdd then classList ∪ {[className]} else classList ∖ {[className]} |}.

(** The subscriber of [setLines]: what runs on every list that is emitted. *)
Definition setLines_next (element : ElementRef.t) (prefix : string) (length : number)
    : ElementRef.t :=
  let element := setClass element (ToString prefix +:+ "-2-line") false in
  let element := setClass element (ToString prefix +:+ "-3-line") false in
  let element := setClass element (ToString prefix +:+ "-multi-line") false in
  if strict_eq length (num_of_Z 2) || strict_eq length (num_of_Z 3) then
    setClass element (ToString prefix +:+ "-" +:+ ToString length +:+ "-line") true
  else if num_gt length (num_of_Z 3) then
    setClass element (ToString prefix +:+ "-multi-line") true
  else element.

(** Helper that takes a query list of lines and sets the correct class on the
    host.  [lines.changes.pipe(startWith(lines)).subscribe(...)]: the
    subscriber runs on the list itself first, then on every list that
    [changes] emits; [prefix] defaults to ['mat']. *)
Definition setLines (lines : QueryList.t) (element : ElementRef.t) (prefix : option string)
    : ElementRef.t :=
  let prefix := default "mat" prefix in
  foldl (fun element length => setLines_next element prefix length) element
        (QueryList.length lines :: QueryList.changes lines).

Module MatLineSetter.

Definition constructor (lines : QueryList.t) (element : ElementRef.t) : ElementRef.t :=
  setLines lines element None.

End MatLineSetter.

(** Mixin to augment a directive with a [tabIndex] property. *)
Module mixinTabIndex.

Section Mixin.

(** The values that may be assigned to [tabIndex], and
    [coerceNumberProperty], which the mixin imports from
    [@angular/cdk/coercion]. *)
Context {Value : Type}.
Variable coerceNumberProperty : Value -> number.

(** [mixinTabIndex(base, defaultTabIndex = 0)] *)
Variable defaultTabIndex : option number.

(** The augmented instance: [disabled] comes from the base class. *)
Record t : Type := {
  disabled : bool;
  _tabIndex : number
}.

Definition default_value : number := default (num_of_Z 0) defaultTabIndex.

(** [constructor(...args) { super(...args); this._tabIndex = defaultTabIndex; }] *)
Definition constructor (disabled : bool) : t :=
  {| disabled := disabled; _tabIndex := default_value |}.

(** [get tabIndex()] *)
Definition tabIndex (this : t) : number :=
  if disabled this then num_of_Z (-1) else _tabIndex this.

(** [set tabIndex(value)]; [None] stands for [null] and [undefined]. *)
Definition set_tabIndex (this : t) (value : option Value) : t :=
  {| disabled := disabled this;
     _tabIndex := match value with
                  | Some v => coerceNumberProperty v
                  | None => default_value
                  end |}.

End Mixin.

End mixinTabIndex.

(** ** The vocabulary of the properties *)

(** Every character of [s] satisfies [p]. *)
Fixpoint all_chars (p : ascii -> bool) (s : string) : bool :=
  match s with
  | EmptyString => true
  | String c s' => p c && all_chars p s'
  end.

Fixpoint last_char (s : string) : option ascii :=
  match s with
  | EmptyString => None
  | String c EmptyString => Some c
  | String _ s' => last_char s'
  end.

(** The characters [normalizeUnits] takes for a unit: [[A-Za-z%]]. *)
Definition unit_char (c : ascii) : bool := is_alpha c || char_is "%" c.

(** The characters [cssCalcAllowedValue] allows after the number:
    [[A-Za-z%$]]. *)
Definition calc_unit_char (c : ascii) : bool := is_alpha c || char_is "%" c || char_is "$" c.

(** All the characters [cssCalcAllowedValue] can read. *)
Definition calc_value_char (c : ascii) : bool :=
  char_is "-" c || is_digit c || char_is "." c || is_alpha c || char_is "%" c || char_is "$" c.

(** Every character class of [r] lies within [ok]. *)
Fixpoint reads_only (ok : ascii -> bool) (r : regex) : Prop :=
  match r with
  | Class p => forall c, p c = true -> ok c = true
  | Seq a b | Alt a b => reads_only ok a /\ reads_only ok b
  | Star a => reads_only ok a
  | Void | Eps => True
  end.

(** [cleared] is [tile] without the style properties [p1] and [p2], and
    nothing else is changed. *)
Definition cleared_of (p1 p2 : string) (tile cleared : MatGridTile.t) : Prop :=
  MatGridTile.colspan cleared = MatGridTile.colspan tile /\
  MatGridTile.rowspan cleared = MatGridTile.rowspan tile /\
  MatGridTile.style cleared !! p1 = None /\
  MatGridTile.style cleared !! p2 = None /\
  forall property, property <> p1 -> property <> p2 ->
    MatGridTile.style cleared !! property = MatGridTile.style tile !! property.

(* ===================================================================== *)
(** * Part 5: properties *)
(* ===================================================================== *)

(** ** Strings *)

Lemma append_assoc (a b c : string) : (a +:+ b) +:+ c = a +:+ (b +:+ c).
Proof.
  induction a as [| x a IH]; [reflexivity |].
  change (String x ((a +:+ b) +:+ c) = String x (a +:+ b +:+ c)). by rewrite IH.
Qed.

Lemma append_nil_r (a : string) : a +:+ "" = a.
Proof.
  induction a as [| x a IH]; [reflexivity |].
  change (String x (a +:+ "") = String x a). by rewrite IH.
Qed.

(** Brings a concatenation to its right-nested form, on which two spellings
    of the same text are convertible. *)
Ltac str_norm := rewrite ?append_assoc; try reflexivity.

Lemma split_length (sep : ascii) (s : string) :
  length (split sep s) = S (occurrences sep s).
Proof.
  induction s as [| c s IH]; [reflexivity |].
  cbn [split occurrences]. destruct (char_is sep c); cbn [length].
  - by rewrite IH.
  - destruct (split sep s); cbn in *; congruence.
Qed.

(** ** The runtime model on known values

    The expected texts are what a JavaScript engine prints. *)

Example Number_toString_examples :
  Number_toString (num_div (num_of_Z 100) (num_of_Z 3)) = "33.333333333333336" /\
  Number_toString (num_div (num_of_Z 2) (num_of_Z 3)) = "0.6666666666666666" /\
  Number_toString (num_add (num_of_decimal 1 (-1)) (num_of_decimal 2 (-1))) =
    "0.30000000000000004" /\
  Number_toString (num_of_Z (10 ^ 21)) = "1e+21" /\
  Number_toString (num_of_Z 123456789012345678901) = "123456789012345680000" /\
  Number_toString (num_of_decimal 123 (-8)) = "0.00000123" /\
  Number_toString (num_of_decimal 1 (-7)) = "1e-7" /\
  Number_toString (num_of_decimal 5 (-324)) = "5e-324" /\
  Number_toString (num_of_decimal (-15) (-1)) = "-1.5" /\
  Number_toString (num_div (num_of_Z 1) (num_of_Z 0)) = "Infinity" /\
  Number_toString (num_div (num_of_Z 0) (num_of_Z 0)) = "NaN".
Proof. repeat apply conj; vm_compute; reflexivity. Qed.

Example parseFloat_examples :
  Number_toString <$> (parseFloat <$> ["3"; " 3.5e2x"; ".5"; "3."; "1e"; "-12.50px"]) =
    ["3"; "350"; "0.5"; "3"; "1"; "-12.5"] /\
  parseFloat <$> ["."; "abc"; ""] = [NaN; NaN; NaN] /\
  parseFloat "-0" = S754_zero true /\
  parseFloat "-Infinityx" = S754_infinity true.
Proof. repeat apply conj; vm_compute; reflexivity. Qed.

Example split_examples :
  split ":" <$> ["3:1"; ""; ":"; "3:1:2"; "abc"] =
    [["3"; "1"]; [""]; [""; ""]; ["3"; "1"; "2"]; ["abc"]].
Proof. reflexivity. Qed.

Example cssCalcAllowedValue_examples :
  matches cssCalcAllowedValue <$>
    ["100px"; "100"; "-1.5em"; "12.5%"; "1.5.5px"; "100!!px"; "1px2"; ""; "1."; "1 px"] =
    [true; true; true; true; true; false; false; false; false; false].
Proof. vm_compute; reflexivity. Qed.

(** [x === 0] holds for the two zeros only. *)
Lemma strict_eq_zero (x : number) : strict_eq x (num_of_Z 0) = is_zero x.
Proof. destruct x as [s | s | | s m e]; try reflexivity; by destruct s. Qed.

(** ** C1: the fixed row height is checked by [init] *)

(** C1, counterexample: ["100!!"] fails the CSS-length check after unit
    normalization, and yet constructing the styler with it does not fail. *)
Lemma C1_constructor_accepts_malformed :
  matches cssCalcAllowedValue (normalizeUnits "100!!") = false /\
  throws (FixedTileStyler.constructor "100!!") = false.
Proof. split; reflexivity. Qed.

(** C1, as amended: the constructor of [FixedTileStyler] accepts every value
    and stores it unchanged; it is [init] that normalizes the units and throws
    the invalid-value error exactly when the normalized value fails
    [cssCalcAllowedValue].  ["100"] normalizes to ["100px"] and passes,
    ["100!!"] fails. *)
Theorem C1_fixed_row_height_checked_by_init :
  (forall (value gutterSize : string) (tracker : TileCoordinator.t)
          (cols : number) (direction : string),
      exists this,
        FixedTileStyler.constructor value = Normal this /\
        FixedTileStyler.fixedRowHeight this = value /\
        FixedTileStyler.init gutterSize tracker cols direction this =
          if matches cssCalcAllowedValue (normalizeUnits value)
          then Normal {| FixedTileStyler.super :=
                           TileStyler.init gutterSize tracker cols direction
                             TileStyler.constructor;
                         FixedTileStyler.fixedRowHeight := normalizeUnits value |}
          else Throw (Error ("Invalid value " +:+ dquote +:+ normalizeUnits value +:+
                             dquote +:+ " set as rowHeight."))) /\
  normalizeUnits "100" = "100px" /\
  matches cssCalcAllowedValue (normalizeUnits "100") = true /\
  matches cssCalcAllowedValue (normalizeUnits "100!!") = false.
Proof.
  split; [| repeat split; reflexivity].
  intros value gutterSize tracker cols direction.
  eexists; split; [reflexivity |]; split; [reflexivity |].
  unfold FixedTileStyler.init; cbn [FixedTileStyler.fixedRowHeight FixedTileStyler.super].
  destruct (matches cssCalcAllowedValue (normalizeUnits value)); reflexivity.
Qed.

(** ** C2: what [_parseRatio] rejects *)

(** C2, counterexample: the parts of ["a:b"] are not numbers, so the ratio is
    malformed in the specification's sense, and the constructor accepts it. *)
Lemma C2_non_numeric_parts_accepted :
  spec_ratio_well_formed "a:b" = false /\
  throws (RatioTileStyler.constructor "a:b") = false.
Proof. split; reflexivity. Qed.

Lemma throws_constructor_parseRatio (value : string) :
  throws (RatioTileStyler.constructor value) = throws (RatioTileStyler._parseRatio value).
Proof.
  unfold RatioTileStyler.constructor. by destruct (RatioTileStyler._parseRatio value).
Qed.

(** C2, as amended: constructing a [RatioTileStyler] fails exactly when the
    string does not split into two [:]-separated parts, that is when it does
    not hold exactly one [:]; the parts are not checked to be numbers.  Every
    ratio that is well formed in the specification's sense is accepted, and
    ["3:1:2"] is rejected. *)
Theorem C2_ratio_rejected_iff_not_two_parts :
  forall value : string,
    (throws (RatioTileStyler.constructor value) = true <->
     occurrences ":" value <> 1%nat) /\
    (spec_ratio_well_formed value = true ->
     throws (RatioTileStyler.constructor value) = false) /\
    RatioTileStyler.constructor "3:1:2" =
      Throw (Error ("mat-grid-list: invalid ratio given for row-height: " +:+
                    dquote +:+ "3:1:2" +:+ dquote)).
Proof.
  intros value. rewrite throws_constructor_parseRatio.
  pose proof (split_length ":" value) as Hlen.
  unfold spec_ratio_well_formed, RatioTileStyler._parseRatio.
  destruct (split ":" value) as [| a [| b [| c l]]]; cbn in *;
    (split; [split; intros; try done; lia | split; [done | reflexivity]]).
Qed.

(** ** C3: [reset] *)

Lemma clearTiles_idemp (p1 p2 : string) (tiles : list MatGridTile.t) :
  clearTiles p1 p2 (clearTiles p1 p2 tiles) = clearTiles p1 p2 tiles.
Proof.
  unfold clearTiles. rewrite <- list_fmap_compose. apply list_fmap_ext.
  intros i [c r st] _. unfold MatGridTile._setStyle; cbn. f_equal.
  apply map_eq; intros k. rewrite !lookup_delete. by repeat case_decide.
Qed.

(** On a list whose tile collection exists and is empty, every styler's
    [reset] returns normally, leaves the container-level property of the
    styler unset, and registers no tile. *)
Lemma reset_empty_collection
    (fixed : FixedTileStyler.t) (ratio : RatioTileStyler.t) (fit : FitTileStyler.t)
    (style : gmap string string) :
  let list := {| TileStyleTarget.listStyle := style; TileStyleTarget._tiles := Some [] |} in
  reset fixed list =
    ({| TileStyleTarget.listStyle := delete "height" style;
        TileStyleTarget._tiles := Some [] |}, Normal ()) /\
  reset ratio list =
    ({| TileStyleTarget.listStyle := delete "paddingBottom" style;
        TileStyleTarget._tiles := Some [] |}, Normal ()) /\
  reset fit list = (list, Normal ()).
Proof. repeat split. Qed.

(** Where it returns normally, [reset] is idempotent, and the property it
    clears on the container is unset afterwards. *)
Lemma reset_idempotent_fixed (this : FixedTileStyler.t) (list : TileStyleTarget.t) :
  (reset this list).2 = Normal () /\
  reset this (reset this list).1 = reset this list /\
  TileStyleTarget.listStyle (reset this list).1 !! "height" = None.
Proof.
  destruct list as [st [tiles |]]; cbn; unfold FixedTileStyler.reset; cbn;
    rewrite ?delete_delete_eq, ?clearTiles_idemp, ?lookup_delete_eq; done.
Qed.

Lemma reset_idempotent_fit (this : FitTileStyler.t) (list : TileStyleTarget.t) :
  (reset this list).2 = Normal () /\
  reset this (reset this list).1 = reset this list.
Proof.
  destruct list as [st [tiles |]]; cbn; unfold FitTileStyler.reset; cbn;
    rewrite ?clearTiles_idemp; done.
Qed.

Lemma reset_idempotent_ratio (this : RatioTileStyler.t) (list : TileStyleTarget.t) :
  is_Some (TileStyleTarget._tiles list) ->
  (reset this list).2 = Normal () /\
  reset this (reset this list).1 = reset this list /\
  TileStyleTarget.listStyle (reset this list).1 !! "paddingBottom" = None.
Proof.
  destruct list as [st [tiles |]]; intros [? Hs]; [| done].
  cbn; unfold RatioTileStyler.reset; cbn.
  rewrite ?delete_delete_eq, ?clearTiles_idemp, ?lookup_delete_eq; done.
Qed.

(** C3, the code at the failing input: on a list whose tile collection is not
    there yet ([_tiles] is [undefined]), [FixedTileStyler] and
    [FitTileStyler] test [list._tiles] and return normally, while
    [RatioTileStyler.reset] clears [paddingBottom] and then throws a
    [TypeError] on [list._tiles.forEach]. *)
Theorem C3_ratio_reset_throws_without_tiles :
  forall (fixed : FixedTileStyler.t) (ratio : RatioTileStyler.t) (fit : FitTileStyler.t)
         (style : gmap string string),
    let list := {| TileStyleTarget.listStyle := style; TileStyleTarget._tiles := None |} in
    reset fixed list =
      ({| TileStyleTarget.listStyle := delete "height" style;
          TileStyleTarget._tiles := None |}, Normal ()) /\
    reset fit list = (list, Normal ()) /\
    reset ratio list =
      ({| TileStyleTarget.listStyle := delete "paddingBottom" style;
          TileStyleTarget._tiles := None |},
       Throw (TypeError "Cannot read properties of undefined (reading 'forEach')")).
Proof. repeat split. Qed.

(** ** C7: the position of a tile *)

(** C7: [getTilePosition] returns the text [0] when the offset is zero, and
    [calc((baseSize + gutterSize) * offset)] for every other offset, whatever
    the base size. *)
Theorem C7_getTilePosition :
  forall (this : TileStyler.t) (baseSize : string) (offset : number),
    TileStyler.getTilePosition this (Some baseSize) offset =
      if is_zero offset then "0"
      else "calc((" +:+ baseSize +:+ " + " +:+ ToString (TileStyler._gutterSize this) +:+
           ") * " +:+ Number_toString offset +:+ ")".
Proof.
  intros this baseSize offset. unfold TileStyler.getTilePosition, calc.
  rewrite strict_eq_zero. destruct (is_zero offset); [reflexivity |].
  unfold ToString at 1 3, template_undefined, template_string, template_number, ToString.
  str_norm.
Qed.

(** The offset is the index of the cell along the axis: [setColStyles] passes
    the column index, and [FixedTileStyler.setRowStyles] the row index. *)
Lemma position_offset_is_cell_index
    (this : FixedTileStyler.t) (tile : MatGridTile.t) (rowIndex colIndex pw gw : number) :
  MatGridTile.style (TileStyler.setColStyles (FixedTileStyler.super this) tile colIndex pw gw)
    !! (if decide (TileStyler._direction (FixedTileStyler.super this) = Some "rtl")
        then "right" else "left") =
    Some (TileStyler.getTilePosition (FixedTileStyler.super this)
            (Some (TileStyler.getBaseTileSize (FixedTileStyler.super this) pw gw)) colIndex) /\
  MatGridTile.style (FixedTileStyler.setRowStyles this tile rowIndex) !! "top" =
    Some (TileStyler.getTilePosition (FixedTileStyler.super this)
            (Some (FixedTileStyler.fixedRowHeight this)) rowIndex).
Proof.
  unfold TileStyler.setColStyles, FixedTileStyler.setRowStyles, MatGridTile._setStyle; cbn.
  split.
  - case_decide; by simplify_map_eq.
  - by simplify_map_eq.
Qed.

(** ** C9: the ratio 3:1 *)

(** C9: [new RatioTileStyler("3:1")] succeeds with the ratio 3, and row sizing
    with a percent width of 30 works from a percent height of exactly 10: the
    base tile height it stores is [(10% - (gutter * fraction))]. *)
Theorem C9_ratio_3_1_percent_height :
  forall (gutterSize direction : string) (tracker : TileCoordinator.t) (cols : number)
         (tile : MatGridTile.t) (rowIndex gutterWidth : number),
    exists this,
      RatioTileStyler.constructor "3:1" = Normal this /\
      RatioTileStyler.rowHeightRatio this = num_of_Z 3 /\
      let styler := RatioTileStyler.init gutterSize tracker cols direction this in
      RatioTileStyler.percentHeightPerTile styler (num_of_Z 30) = num_of_Z 10 /\
      RatioTileStyler.baseTileHeight
        (RatioTileStyler.setRowStyles styler tile rowIndex (num_of_Z 30) gutterWidth).1 =
        Some ("(10% - (" +:+ normalizeUnits gutterSize +:+ " * " +:+
              Number_toString gutterWidth +:+ "))").
Proof.
  intros. eexists. split; [reflexivity |]. split; [reflexivity |].
  split; [reflexivity |]. reflexivity.
Qed.

(** ** C10: the computed height before any row has been styled *)

(** C10: after construction and [init] and before any [setRowStyles], the
    base tile height is still [undefined]; [getComputedHeight] does not fail
    and returns [paddingBottom] with a value that embeds the text
    [undefined].  [setRowStyles] is what assigns the base tile height. *)
Theorem C10_computed_height_before_row_styles :
  forall (value gutterSize direction : string) (tracker : TileCoordinator.t)
         (cols : number) (this : RatioTileStyler.t),
    RatioTileStyler.constructor value = Normal this ->
    let styler := RatioTileStyler.init gutterSize tracker cols direction this in
    let rowspan := Number_toString (TileCoordinator.rowspan tracker) in
    RatioTileStyler.baseTileHeight styler = None /\
    RatioTileStyler.getComputedHeight styler =
      Some ("paddingBottom",
            "calc(" +:+ rowspan +:+ " * (undefined * 1) + (0 * " +:+
            normalizeUnits gutterSize +:+ ") + " +:+ normalizeUnits gutterSize +:+
            " * (" +:+ rowspan +:+ " - 1))") /\
    forall tile rowIndex percentWidth gutterWidth,
      is_Some (RatioTileStyler.baseTileHeight
                 (RatioTileStyler.setRowStyles styler tile rowIndex
                    percentWidth gutterWidth).1).
Proof.
  intros value gutterSize direction tracker cols this Hnew.
  unfold RatioTileStyler.constructor in Hnew.
  destruct (RatioTileStyler._parseRatio value) as [ratio |]; [| done].
  injection Hnew as <-. cbn. split; [reflexivity |]. split; [| by eexists].
  unfold RatioTileStyler.getComputedHeight, TileStyler.getTileSpan, TileStyler.getGutterSpan,
    TileStyler.getTileSize, calc; cbn.
  do 2 f_equal.
  change (Number_toString (num_sub (num_of_Z 1) (num_of_Z 1))) with "0".
  change (Number_toString (num_of_Z 1)) with "1".
  unfold ToString, template_undefined, template_string, template_number, ToString.
  str_norm.
Qed.

(** C10, at the ratio ["3:1"]; the computed height reads
    [calc(2 * (undefined * 1) + (0 * 4px) + 4px * (2 - 1))]. *)
Lemma C10_computed_height_before_row_styles_witness :
  exists this,
    RatioTileStyler.constructor "3:1" = Normal this /\
    RatioTileStyler.getComputedHeight
      (RatioTileStyler.init "4px"
         {| TileCoordinator.rowCount := num_of_Z 2; TileCoordinator.rowspan := num_of_Z 2 |}
         (num_of_Z 3) "ltr" this) =
      Some ("paddingBottom", "calc(2 * (undefined * 1) + (0 * 4px) + 4px * (2 - 1))").
Proof.
  eexists. split; [reflexivity |].
  exact (proj1 (proj2 (C10_computed_height_before_row_styles "3:1" "4px" "ltr"
    {| TileCoordinator.rowCount := num_of_Z 2; TileCoordinator.rowspan := num_of_Z 2 |}
    (num_of_Z 3) _ eq_refl))).
Defined.

(** ** Reading the emitted text: lexing and parsing lemmas *)

Lemma flush_app (cur : string) (l1 l2 : list Css.token) :
  Css.flush cur (l1 ++ l2) = Css.flush cur l1 ++ l2.
Proof. by destruct cur. Qed.

Lemma string_cons_app (c : ascii) (s1 s2 : string) :
  String c s1 +:+ s2 = String c (s1 +:+ s2).
Proof. reflexivity. Qed.

(** Lexing a text followed by a delimiter: the word being read ends at the
    delimiter the way it ends at the end of the text. *)
Lemma lex_app_delim (d : ascii) (after : list Css.token) (s1 s2 cur : string) :
  (forall cur', Css.lex cur' (String d s2) = Css.flush cur' after) ->
  Css.lex cur (s1 +:+ String d s2) = Css.lex cur s1 ++ after.
Proof.
  intros Hd. revert cur. induction s1 as [| c s1 IH]; intros cur.
  - change ("" +:+ String d s2) with (String d s2). rewrite Hd.
    apply (flush_app cur []).
  - rewrite string_cons_app. cbn [Css.lex].
    destruct (is_space c); [by rewrite IH, flush_app |].
    destruct (char_is "(" c); [destruct cur; by rewrite IH |].
    destruct (char_is ")" c); [rewrite IH; exact (flush_app cur (_ :: _) _) |].
    destruct (char_is "*" c); [rewrite IH; exact (flush_app cur (_ :: _) _) |].
    destruct (char_is "/" c); [rewrite IH; exact (flush_app cur (_ :: _) _) |].
    apply IH.
Qed.

Lemma lex_app_space (s1 s2 cur : string) :
  Css.lex cur (s1 +:+ String " " s2) = Css.lex cur s1 ++ Css.lex "" s2.
Proof. by apply lex_app_delim. Qed.

Lemma lex_app_rparen (s1 s2 cur : string) :
  Css.lex cur (s1 +:+ String ")" s2) = Css.lex cur s1 ++ Css.TRParen :: Css.lex "" s2.
Proof. by apply lex_app_delim. Qed.

Section Extension.

Variable rest : list Css.token.

Variables value value' : list Css.token -> option (Css.expr * list Css.token).

(** [value'] reads what [value] reads, also when [rest] follows. *)
Hypothesis Hvalue :
  forall ts e rem, value ts = Some (e, rem) -> value' (ts ++ rest) = Some (e, rem ++ rest).

Lemma product_rest_extends (f f' : nat) (e e' : Css.expr) (ts rem : list Css.token) :
  (f <= f')%nat -> rem <> [] ->
  Css.product_rest value f e ts = Some (e', rem) ->
  Css.product_rest value' f' e (ts ++ rest) = Some (e', rem ++ rest).
Proof.
  revert f' e ts. induction f as [| f IH]; intros f' e ts Hle Hrem H.
  - destruct ts as [| [] ts]; cbn in H; simplify_eq; try done; by destruct f'.
  - destruct f' as [| f']; [lia |].
    destruct ts as [| [] ts]; cbn in H; simplify_eq; try done; cbn.
    + destruct (value ts) as [[e1 r1] |] eqn:Hv; [| done].
      rewrite (Hvalue _ _ _ Hv). apply IH; [lia | done | done].
    + destruct (value ts) as [[e1 r1] |] eqn:Hv; [| done].
      rewrite (Hvalue _ _ _ Hv). apply IH; [lia | done | done].
Qed.

Lemma product_extends (f f' : nat) (e : Css.expr) (ts rem : list Css.token) :
  (f <= f')%nat -> rem <> [] ->
  Css.product value f ts = Some (e, rem) ->
  Css.product value' f' (ts ++ rest) = Some (e, rem ++ rest).
Proof.
  intros Hle Hrem. unfold Css.product.
  destruct (value ts) as [[e1 r1] |] eqn:Hv; [| done].
  rewrite (Hvalue _ _ _ Hv). by apply product_rest_extends.
Qed.

Lemma sum_rest_extends (f f' : nat) (e e' : Css.expr) (ts rem : list Css.token) :
  (f <= f')%nat -> rem <> [] ->
  Css.sum_rest value f e ts = Some (e', rem) ->
  Css.sum_rest value' f' e (ts ++ rest) = Some (e', rem ++ rest).
Proof.
  revert f' e ts. induction f as [| f IH]; intros f' e ts Hle Hrem H.
  - destruct ts as [| [] ts]; cbn in H; simplify_eq; try done; by destruct f'.
  - destruct f' as [| f']; [lia |].
    destruct ts as [| [] ts]; cbn in H; simplify_eq; try done; cbn.
    + destruct (Css.product value f ts) as [[e1 r1] |] eqn:Hp; [| done].
      assert (r1 <> []) by (intros ->; destruct f; cbn in H; by simplify_eq).
      rewrite (product_extends f f' e1 ts r1) by (done || lia).
      apply IH; [lia | done | done].
    + destruct (Css.product value f ts) as [[e1 r1] |] eqn:Hp; [| done].
      assert (r1 <> []) by (intros ->; destruct f; cbn in H; by simplify_eq).
      rewrite (product_extends f f' e1 ts r1) by (done || lia).
      apply IH; [lia | done | done].
Qed.

Lemma sum_extends (f f' : nat) (e : Css.expr) (ts rem : list Css.token) :
  (f <= f')%nat -> rem <> [] ->
  Css.sum value f ts = Some (e, rem) ->
  Css.sum value' f' (ts ++ rest) = Some (e, rem ++ rest).
Proof.
  intros Hle Hrem. unfold Css.sum.
  destruct (Css.product value f ts) as [[e1 r1] |] eqn:Hp; [| done].
  intros H.
  assert (r1 <> []) by (intros ->; destruct f; cbn in H; by simplify_eq).
  rewrite (product_extends f f' e1 ts r1) by (done || lia).
  by apply (sum_rest_extends f f').
Qed.

End Extension.

Lemma parse_value_paren (f : nat) (ts : list Css.token) :
  Css.parse_value (S f) (Css.TLParen :: ts) =
    match Css.sum (Css.parse_value f) f ts with
    | Some (e, Css.TRParen :: r') => Some (e, r')
    | _ => None
    end.
Proof. reflexivity. Qed.

Lemma parse_value_num (f : nat) (v : number) (u : string) (ts : list Css.token) :
  Css.parse_value (S f) (Css.TNum v u :: ts) = Some (Css.Lit v u, ts).
Proof. reflexivity. Qed.

(** More fuel, and more text after it, do not change what a calc-value reads. *)
Lemma parse_value_extends (rest : list Css.token) (f f' : nat) :
  (f <= f')%nat ->
  forall ts e rem,
    Css.parse_value f ts = Some (e, rem) ->
    Css.parse_value f' (ts ++ rest) = Some (e, rem ++ rest).
Proof.
  revert f'. induction f as [| f IH]; intros f' Hle ts e rem H; [done |].
  destruct f' as [| f']; [lia |].
  destruct ts as [| [] ts]; cbn in H; simplify_eq; try done.
  rewrite <- app_comm_cons, parse_value_paren.
  destruct (Css.sum (Css.parse_value f) f ts) as [[e1 [| [] r1]] |] eqn:Hs; simplify_eq.
  rewrite (sum_extends rest _ _ (IH f' ltac:(lia)) f f' e ts (Css.TRParen :: rem));
    [done | lia | done | done].
Qed.

Section Stop.

Variable value : list Css.token -> option (Css.expr * list Css.token).

Lemma product_rest_rparen (f : nat) (e : Css.expr) (ts : list Css.token) :
  Css.product_rest value f e (Css.TRParen :: ts) = Some (e, Css.TRParen :: ts).
Proof. by destruct f. Qed.

Lemma product_rest_plus (f : nat) (e : Css.expr) (ts : list Css.token) :
  Css.product_rest value f e (Css.TPlus :: ts) = Some (e, Css.TPlus :: ts).
Proof. by destruct f. Qed.

Lemma sum_rest_rparen (f : nat) (e : Css.expr) (ts : list Css.token) :
  Css.sum_rest value f e (Css.TRParen :: ts) = Some (e, Css.TRParen :: ts).
Proof. by destruct f. Qed.

Lemma sum_value_fails (fuel : nat) (ts : list Css.token) :
  value ts = None -> Css.sum value fuel ts = None.
Proof. intros H. unfold Css.sum, Css.product. by rewrite H. Qed.

End Stop.

Lemma parse_atom_fuel (s : string) (e : Css.expr) (f : nat) (rest : list Css.token) :
  Css.parse_atom s = Some e -> (length (Css.lex "" s) <= f)%nat ->
  Css.parse_value f (Css.lex "" s ++ rest) = Some (e, rest).
Proof.
  unfold Css.parse_atom. intros H Hf.
  destruct (Css.parse_value _ _) as [[e' [| ? ?]] |] eqn:Hp; simplify_eq.
  exact (parse_value_extends rest _ f Hf _ _ _ Hp).
Qed.

(** [( atom * number )] *)
Lemma parse_scaled_atom (s : string) (e : Css.expr) (v : number) (u : string)
    (f : nat) (rest : list Css.token) :
  Css.parse_atom s = Some e -> (length (Css.lex "" s) <= f)%nat ->
  Css.parse_value (S (S f))
    (Css.TLParen :: Css.lex "" s ++ Css.TStar :: Css.TNum v u :: Css.TRParen :: rest) =
    Some (Css.Mul e (Css.Lit v u), rest).
Proof.
  intros H Hf. rewrite parse_value_paren. unfold Css.sum, Css.product.
  rewrite (parse_atom_fuel s e) by (done || lia).
  cbn [Css.product_rest]. rewrite parse_value_num.
  by rewrite product_rest_rparen, sum_rest_rparen.
Qed.

(** [( number * atom )] *)
Lemma parse_atom_scaled (s : string) (e : Css.expr) (v : number) (u : string)
    (f : nat) (rest : list Css.token) :
  Css.parse_atom s = Some e -> (length (Css.lex "" s) <= f)%nat ->
  Css.parse_value (S (S f))
    (Css.TLParen :: Css.TNum v u :: Css.TStar :: Css.lex "" s ++ Css.TRParen :: rest) =
    Some (Css.Mul (Css.Lit v u) e, rest).
Proof.
  intros H Hf. rewrite parse_value_paren. unfold Css.sum, Css.product.
  rewrite parse_value_num. cbn [Css.product_rest].
  rewrite (parse_atom_fuel s e) by (done || lia).
  by rewrite product_rest_rparen, sum_rest_rparen.
Qed.

(** A word that is not a token makes the whole value invalid. *)
Lemma parse_value_bad (fuel : nat) (w : string) (ts : list Css.token) :
  Css.parse_value fuel (Css.TBad w :: ts) = None.
Proof. by destruct fuel. Qed.

Lemma parse_value_paren_fails (fuel : nat) (ts : list Css.token) :
  (forall f, Css.parse_value f ts = None) ->
  Css.parse_value fuel (Css.TLParen :: ts) = None.
Proof.
  intros H. destruct fuel as [| f]; [done |].
  rewrite parse_value_paren. by rewrite sum_value_fails.
Qed.

Lemma parse_calc_bad (w : string) (ts : list Css.token) :
  Css.parse_calc (Css.TLParen :: Css.TLParen :: Css.TBad w :: ts) = None.
Proof.
  unfold Css.parse_calc. rewrite sum_value_fails; [done |].
  apply parse_value_paren_fails; intros f.
  apply parse_value_paren_fails; intros f'. apply parse_value_bad.
Qed.

(** [Infinity%] is not a percentage: a value that starts with it is invalid,
    whatever follows. *)
Lemma length_value_infinite_percent (rest : string) :
  Css.length_value ("calc(((Infinity% - (" +:+ rest) = None.
Proof.
  unfold Css.length_value.
  change (Css.lex "" ("calc(((Infinity% - (" +:+ rest))
    with (Css.TFunc "calc" :: Css.TLParen :: Css.TLParen :: Css.TBad "Infinity%" ::
          Css.TMinus :: Css.TLParen :: Css.lex "" rest).
  cbv beta iota. rewrite parse_calc_bad. by case_decide.
Qed.

(** ** Arithmetic on binary64 numbers *)

Lemma num_of_Z_1 : num_of_Z 1 = S754_finite false 4503599627370496 (-52).
Proof. reflexivity. Qed.

Lemma mul_2_52 (m : positive) :
  (m * 4503599627370496)%positive = Pos.iter xO m 52%positive.
Proof. rewrite Pos.mul_comm. reflexivity. Qed.

Lemma digits2_iter_xO (m : positive) :
  Zpos (digits2_pos (Pos.iter xO m 52%positive)) = Zpos (digits2_pos m) + 52.
Proof. cbn [Pos.iter digits2_pos]. lia. Qed.

(** Multiplying by 1 is exact: the product has 52 more low zero bits, which
    rounding shifts out again. *)
Lemma num_mul_one (x : number) :
  valid_binary prec emax x = true -> num_mul x (num_of_Z 1) = x.
Proof.
  rewrite num_of_Z_1.
  destruct x as [s | s | | s m e]; intros Hv; [by destruct s | by destruct s | done |].
  unfold num_mul, SFmul. rewrite mul_2_52, xorb_false_r.
  cbn [valid_binary] in Hv. unfold bounded, canonical_mantissa in Hv.
  apply andb_prop in Hv as [Hc Hb]. apply Z.eqb_eq in Hc.
  unfold binary_round_aux, shr_fexp.
  cbn [Zdigits2]. rewrite digits2_iter_xO.
  replace (fexp prec emax (Z.pos (digits2_pos m) + 52 + (e + -52)))
    with e by (rewrite <- Hc at 1; f_equal; lia).
  replace (e - (e + -52)) with 52 by lia.
  cbn [shr shr_record_of_loc].
  change (SpecFloat.iter_pos shr_1 52
            {| shr_m := Z.pos (Pos.iter xO m 52); shr_r := false; shr_s := false |})
    with {| shr_m := Z.pos m; shr_r := false; shr_s := false |}.
  cbn [shr_m loc_of_shr_record round_nearest_even Zdigits2].
  replace (e + -52 + 52) with e by lia.
  rewrite Hc, Z.sub_diag. cbn [shr shr_m].
  by rewrite Hb.
Qed.

Lemma strict_eq_refl (x : number) : is_nan x = false -> strict_eq x x = true.
Proof.
  destruct x as [s | s | | s m e]; intros H; try done; try by destruct s.
  unfold strict_eq, SFeqb, SFcompare.
  rewrite Z.compare_refl, Pos.compare_cont_refl. by destruct s.
Qed.

Lemma num_mul_zero_l (g : number) :
  is_finite g = true -> is_zero (num_mul pos_zero g) = true.
Proof. by destruct g. Qed.

Lemma num_add_zero_r (x z : number) :
  is_zero z = true -> is_nan x = false -> strict_eq (num_add x z) x = true.
Proof.
  destruct z as [sz | | |]; try done. intros _ Hx.
  destruct x as [s | s | | s m e]; try done.
  - by destruct s, sz.
  - by destruct s.
  - by apply (strict_eq_refl (S754_finite s m e)).
Qed.

(** ** C4: [FitTileStyler] with no rows *)

(** C4: with a row count and a total row span of 0, [setRowStyles] of
    [FitTileStyler] has nothing that throws: [100 / 0] is [Infinity] and
    [(0 - 1) / 0] is [-Infinity], and the styles are emitted.  The height is
    [calc(((Infinity% - (gutter * -Infinity)) * rowspan) + (rowspan-1 * gutter))],
    which is not a valid CSS length; so is the top, unless the row index is 0,
    for which the top is [0]. *)
Theorem C4_fit_zero_rows_emits_invalid_value :
  forall (this : FitTileStyler.t) (tile : MatGridTile.t) (rowIndex : number),
    TileStyler._rows (FitTileStyler.super this) = num_of_Z 0 ->
    TileStyler._rowspan (FitTileStyler.super this) = num_of_Z 0 ->
    let gutter := ToString (TileStyler._gutterSize (FitTileStyler.super this)) in
    let base := "(Infinity% - (" +:+ gutter +:+ " * -Infinity))" in
    let height :=
      "calc((" +:+ base +:+ " * " +:+ Number_toString (MatGridTile.rowspan tile) +:+
      ") + (" +:+ Number_toString (num_sub (MatGridTile.rowspan tile) (num_of_Z 1)) +:+
      " * " +:+ gutter +:+ "))" in
    let top :=
      if is_zero rowIndex then "0"
      else "calc((" +:+ base +:+ " + " +:+ gutter +:+ ") * " +:+
           Number_toString rowIndex +:+ ")" in
    let styled := FitTileStyler.setRowStyles this tile rowIndex in
    FitTileStyler.percentHeightPerTile this = Infinity /\
    FitTileStyler.gutterHeightPerTile this = S754_infinity true /\
    MatGridTile.style styled !! "height" = Some height /\
    MatGridTile.style styled !! "top" = Some top /\
    Css.length_value height = None /\
    (is_zero rowIndex = false -> Css.length_value top = None).
Proof.
  intros this tile rowIndex Hrows Hrowspan gutter base height top styled.
  assert (Hp : FitTileStyler.percentHeightPerTile this = Infinity).
  { unfold FitTileStyler.percentHeightPerTile. by rewrite Hrowspan. }
  assert (Hg : FitTileStyler.gutterHeightPerTile this = S754_infinity true).
  { unfold FitTileStyler.gutterHeightPerTile. by rewrite Hrows. }
  split; [done |]. split; [done |].
  subst styled. unfold FitTileStyler.setRowStyles, MatGridTile._setStyle; cbn.
  rewrite Hp, Hg.
  split; [| split; [| split]].
  - simplify_map_eq. f_equal. subst height base gutter.
    unfold calc, TileStyler.getTileSize, TileStyler.getBaseTileSize.
    unfold ToString, template_undefined, template_string, template_number, ToString.
    cbn [Number_toString Infinity]. str_norm.
  - simplify_map_eq. f_equal. subst top base gutter.
    unfold TileStyler.getTilePosition. rewrite strict_eq_zero.
    destruct (is_zero rowIndex); [done |].
    unfold calc, TileStyler.getBaseTileSize.
    unfold ToString, template_undefined, template_string, template_number, ToString.
    cbn [Number_toString Infinity]. str_norm.
  - subst height base. rewrite ?append_assoc. apply length_value_infinite_percent.
  - intros Hz. subst top base. rewrite Hz, ?append_assoc.
    apply length_value_infinite_percent.
Qed.

(** C4, on a grid of three columns with a gutter of [4px] and no row: the
    height of a 1x1 tile is emitted, and it is not a valid length. *)
Lemma C4_fit_zero_rows_witness :
  let styler :=
    FitTileStyler.init "4px"
      {| TileCoordinator.rowCount := num_of_Z 0; TileCoordinator.rowspan := num_of_Z 0 |}
      (num_of_Z 3) "ltr" FitTileStyler.constructor in
  let tile := {| MatGridTile.colspan := num_of_Z 1; MatGridTile.rowspan := num_of_Z 1;
                 MatGridTile.style := ∅ |} in
  MatGridTile.style (FitTileStyler.setRowStyles styler tile (num_of_Z 1)) !! "height" =
    Some "calc(((Infinity% - (4px * -Infinity)) * 1) + (0 * 4px))" /\
  Css.length_value "calc(((Infinity% - (4px * -Infinity)) * 1) + (0 * 4px))" = None.
Proof.
  intros styler tile.
  pose proof (C4_fit_zero_rows_emits_invalid_value styler tile (num_of_Z 1)
                eq_refl eq_refl) as (_ & _ & Hheight & _ & Hinvalid & _).
  split; [exact Hheight | exact Hinvalid].
Defined.

(** ** C5: the scenario *)

Lemma scenario_left_value :
  Css.length_value scenario_left = Css.length_value spec_left /\
  is_Some (Css.length_value scenario_left).
Proof. split; [vm_compute; reflexivity | vm_compute; eexists; reflexivity]. Qed.

(** C5: in a grid of three columns with a gutter of [4px] and a fixed row height
    of [100px], a 1x1 tile in row 1, column 2 gets a [left] whose computed
    value, and so its used value for every container width [W], is that of
    [calc((( (100%/3 - (4px * 2/3)) ) + 4px) * 2)]; its [top] is
    [calc((100px + 4px) * 1)]; and its [height] has the value of [100px]. *)
Theorem C5_scenario_three_columns :
  forall (tracker : TileCoordinator.t) (style : gmap string string),
    exists this styler,
      FixedTileStyler.constructor "100px" = Normal this /\
      FixedTileStyler.init "4px" tracker (num_of_Z 3) "ltr" this = Normal styler /\
      let tile := {| MatGridTile.colspan := num_of_Z 1;
                     MatGridTile.rowspan := num_of_Z 1;
                     MatGridTile.style := style |} in
      let styled := (setStyle styler tile (num_of_Z 1) (num_of_Z 2)).2 in
      MatGridTile.style styled !! "left" = Some scenario_left /\
      MatGridTile.style styled !! "top" = Some "calc((100px + 4px) * 1)" /\
      MatGridTile.style styled !! "height" = Some "calc((100px * 1) + (0 * 4px))" /\
      is_Some (Css.length_value scenario_left) /\
      (forall W : number,
          Css.used_value W <$> Css.length_value scenario_left =
          Css.used_value W <$> Css.length_value spec_left) /\
      Css.length_value "calc((100px * 1) + (0 * 4px))" = Css.length_value "100px" /\
      Css.length_value "100px" = Some (Css.Length pos_zero (num_of_Z 100)).
Proof.
  intros tracker style.
  eexists _, _.
  split; [reflexivity |]. split; [reflexivity |].
  cbv zeta.
  unfold setStyle; cbn [setRowStyles fixed_styler snd base].
  unfold FixedTileStyler.setRowStyles, TileStyler.setColStyles, MatGridTile._setStyle;
    cbn [MatGridTile.style MatGridTile.colspan MatGridTile.rowspan FixedTileStyler.super
         FixedTileStyler.fixedRowHeight TileStyler._direction TileStyler.init].
  rewrite decide_False by discriminate.
  split; [simplify_map_eq; f_equal; vm_compute; reflexivity |].
  split; [simplify_map_eq; f_equal; vm_compute; reflexivity |].
  split; [simplify_map_eq; f_equal; vm_compute; reflexivity |].
  split; [apply scenario_left_value |].
  split; [intros W; by rewrite (proj1 scenario_left_value) |].
  split; vm_compute; reflexivity.
Qed.

(** ** C8: the size of a tile *)

Lemma lex_tile_size_1 (base g : string) :
  Css.lex "" ("calc((" +:+ base +:+ " * 1) + (0 * " +:+ g +:+ "))") =
    Css.TFunc "calc" :: Css.TLParen :: Css.lex "" base ++
    Css.TStar :: Css.TNum (num_of_Z 1) "" :: Css.TRParen :: Css.TPlus ::
    Css.TLParen :: Css.TNum pos_zero "" :: Css.TStar :: Css.lex "" g ++
    [Css.TRParen; Css.TRParen].
Proof.
  transitivity (Css.TFunc "calc" :: Css.TLParen ::
    Css.lex "" (base +:+ String " " ("* 1) + (0 * " +:+ g +:+ String ")" ")")));
    [reflexivity |].
  rewrite lex_app_space. do 2 f_equal. f_equal.
  transitivity (Css.TStar :: Css.TNum (num_of_Z 1) "" :: Css.TRParen :: Css.TPlus ::
    Css.TLParen :: Css.TNum pos_zero "" :: Css.TStar ::
    Css.lex "" (g +:+ String ")" ")")); [reflexivity |].
  by rewrite lex_app_rparen.
Qed.

Lemma parse_tile_size_1 (base g : string) (eb eg : Css.expr) :
  Css.parse_atom base = Some eb -> Css.parse_atom g = Some eg ->
  Css.parse_calc
    (Css.TLParen :: Css.lex "" base ++
     Css.TStar :: Css.TNum (num_of_Z 1) "" :: Css.TRParen :: Css.TPlus ::
     Css.TLParen :: Css.TNum pos_zero "" :: Css.TStar :: Css.lex "" g ++
     [Css.TRParen; Css.TRParen]) =
    Some (Css.Add (Css.Mul eb (Css.Lit (num_of_Z 1) ""))
                  (Css.Mul (Css.Lit pos_zero "") eg)).
Proof.
  intros Hb Hg. unfold Css.parse_calc.
  set (ts := Css.TLParen :: _).
  assert (Hn : (length (Css.lex "" base) + length (Css.lex "" g) + 10 = length ts)%nat).
  { subst ts. cbn [length]. rewrite length_app. cbn [length]. rewrite length_app.
    cbn [length]. lia. }
  destruct (length ts) as [| [| [| n]]]; [lia .. |]. subst ts.
  unfold Css.sum at 1, Css.product at 1.
  rewrite (parse_scaled_atom base eb) by (done || lia).
  rewrite product_rest_plus. cbn [Css.sum_rest].
  unfold Css.product.
  rewrite (parse_atom_scaled g eg) by (done || lia).
  by rewrite product_rest_rparen.
Qed.

(** C8: [getTileSize] returns [(baseSize * span) + (span-1 * gutterSize)] for
    every span.  For the span 1 this is [(baseSize * 1) + (0 * gutterSize)],
    and when the base size and the gutter size are lengths, it is a valid
    length whose value is that of the base size: the gutter term vanishes. *)
Theorem C8_getTileSize :
  (forall (this : TileStyler.t) (baseSize : string) (span : number),
      TileStyler.getTileSize this (Some baseSize) span =
        "(" +:+ baseSize +:+ " * " +:+ Number_toString span +:+ ") + (" +:+
        Number_toString (num_sub span (num_of_Z 1)) +:+ " * " +:+
        ToString (TileStyler._gutterSize this) +:+ ")") /\
  (forall (this : TileStyler.t) (baseSize gutterSize : string) (p x gp gx : number),
      TileStyler._gutterSize this = Some gutterSize ->
      Css.atom_value baseSize = Some (Css.Length p x) ->
      Css.atom_value gutterSize = Some (Css.Length gp gx) ->
      well_formed p = true -> well_formed x = true ->
      is_finite gp = true -> is_finite gx = true ->
      TileStyler.getTileSize this (Some baseSize) (num_of_Z 1) =
        "(" +:+ baseSize +:+ " * 1) + (0 * " +:+ gutterSize +:+ ")" /\
      exists p' x',
        Css.length_value (calc (TileStyler.getTileSize this (Some baseSize) (num_of_Z 1))) =
          Some (Css.Length p' x') /\
        strict_eq p' p = true /\ strict_eq x' x = true).
Proof.
  split; [reflexivity |].
  intros this baseSize gutterSize p x gp gx Hgutter Hbase Hg Hp Hx Hgp Hgx.
  assert (Htext : TileStyler.getTileSize this (Some baseSize) (num_of_Z 1) =
                  "(" +:+ baseSize +:+ " * 1) + (0 * " +:+ gutterSize +:+ ")").
  { unfold TileStyler.getTileSize. rewrite Hgutter. reflexivity. }
  split; [done |].
  unfold Css.atom_value in Hbase, Hg.
  destruct (Css.parse_atom baseSize) as [eb |] eqn:Hpb; [| done].
  destruct (Css.parse_atom gutterSize) as [eg |] eqn:Hpg; [| done].
  exists (num_add (num_mul p (num_of_Z 1)) (num_mul pos_zero gp)),
         (num_add (num_mul x (num_of_Z 1)) (num_mul pos_zero gx)).
  apply andb_prop in Hp as [Hpv Hpn], Hx as [Hxv Hxn].
  apply negb_true_iff in Hpn, Hxn.
  split.
  - assert (Hs : calc (TileStyler.getTileSize this (Some baseSize) (num_of_Z 1)) =
                 "calc((" +:+ baseSize +:+ " * 1) + (0 * " +:+ gutterSize +:+ "))").
    { rewrite Htext. unfold calc. rewrite !append_assoc. reflexivity. }
    rewrite Hs. unfold Css.length_value.
    rewrite (lex_tile_size_1 baseSize gutterSize).
    rewrite decide_True by done.
    rewrite (parse_tile_size_1 _ _ _ _ Hpb Hpg).
    cbn [Css.eval]. rewrite Hbase, Hg. reflexivity.
  - rewrite !num_mul_one by done.
    split; apply num_add_zero_r; auto using num_mul_zero_l.
Qed.

(** C8, for the base size [(25% - (4px * 0.75))] of a grid of four columns
    and the gutter [4px]: a tile of span 1 is as wide as the base size. *)
Lemma C8_getTileSize_witness :
  let this := TileStyler.init "4px"
                {| TileCoordinator.rowCount := num_of_Z 1;
                   TileCoordinator.rowspan := num_of_Z 1 |}
                (num_of_Z 4) "ltr" TileStyler.constructor in
  let baseSize := TileStyler.getBaseTileSize this (TileStyler.percentWidthPerTile this)
                    (TileStyler.gutterWidthFractionPerTile this) in
  baseSize = "(25% - (4px * 0.75))" /\
  exists p' x',
    Css.length_value (calc (TileStyler.getTileSize this (Some baseSize) (num_of_Z 1))) =
      Some (Css.Length p' x') /\
    strict_eq p' (num_of_Z 25) = true /\ strict_eq x' (num_of_Z (-3)) = true.
Proof.
  intros this baseSize. split; [vm_compute; reflexivity |].
  refine (proj2 (proj2 C8_getTileSize this baseSize "4px"
                   (num_of_Z 25) (num_of_Z (-3)) pos_zero (num_of_Z 4)
                   eq_refl _ _ eq_refl eq_refl eq_refl eq_refl));
    vm_compute; reflexivity.
Defined.

(** ** The position of a tile as a length

    The text returned by [getTilePosition] for a non-zero offset denotes the
    sum of the base size and the gutter size, multiplied by the offset. *)

Lemma lex_tile_position (base g off : string) :
  Css.lex "" ("calc((" +:+ base +:+ " + " +:+ g +:+ ") * " +:+ off +:+ ")") =
    Css.TFunc "calc" :: Css.TLParen :: Css.lex "" base ++
    Css.TPlus :: Css.lex "" g ++
    Css.TRParen :: Css.TStar :: Css.lex "" off ++ [Css.TRParen].
Proof.
  transitivity (Css.TFunc "calc" :: Css.TLParen ::
    Css.lex "" (base +:+ String " " ("+ " +:+ g +:+ String ")" (" * " +:+
                off +:+ String ")" ""))));
    [reflexivity |].
  rewrite lex_app_space. do 2 f_equal. f_equal.
  transitivity (Css.TPlus ::
    Css.lex "" (g +:+ String ")" (" * " +:+ off +:+ String ")" "")));
    [reflexivity |].
  rewrite lex_app_rparen. do 2 f_equal. f_equal.
  transitivity (Css.TStar :: Css.lex "" (off +:+ String ")" "")); [reflexivity |].
  by rewrite lex_app_rparen.
Qed.

Section Steps.

Variable value : list Css.token -> option (Css.expr * list Css.token).

Lemma sum_rest_plus_step (f : nat) (e : Css.expr) (ts : list Css.token) :
  Css.sum_rest value (S f) e (Css.TPlus :: ts) =
    match Css.product value f ts with
    | Some (e', r') => Css.sum_rest value f (Css.Add e e') r'
    | None => None
    end.
Proof. reflexivity. Qed.

Lemma product_rest_star_step (f : nat) (e : Css.expr) (ts : list Css.token) :
  Css.product_rest value (S f) e (Css.TStar :: ts) =
    match value ts with
    | Some (e', r') => Css.product_rest value f (Css.Mul e e') r'
    | None => None
    end.
Proof. reflexivity. Qed.

End Steps.

(** A parenthesised sum of two atoms. *)
Lemma parse_sum_of_atoms (s1 s2 : string) (e1 e2 : Css.expr)
    (f : nat) (rest : list Css.token) :
  Css.parse_atom s1 = Some e1 -> Css.parse_atom s2 = Some e2 ->
  (length (Css.lex "" s1) <= f)%nat -> (length (Css.lex "" s2) <= f)%nat ->
  Css.parse_value (S (S f))
    (Css.TLParen :: Css.lex "" s1 ++ Css.TPlus :: Css.lex "" s2 ++ Css.TRParen :: rest) =
    Some (Css.Add e1 e2, rest).
Proof.
  intros H1 H2 Hf1 Hf2. rewrite parse_value_paren. unfold Css.sum, Css.product.
  rewrite (parse_atom_fuel s1 e1) by (done || lia).
  rewrite product_rest_plus, sum_rest_plus_step. unfold Css.product.
  rewrite (parse_atom_fuel s2 e2) by (done || lia).
  by rewrite product_rest_rparen, sum_rest_rparen.
Qed.

Lemma parse_tile_position (base g : string) (eb eg : Css.expr) (v : number) :
  Css.parse_atom base = Some eb -> Css.parse_atom g = Some eg ->
  Css.parse_calc
    (Css.TLParen :: Css.lex "" base ++ Css.TPlus :: Css.lex "" g ++
     Css.TRParen :: Css.TStar :: [Css.TNum v ""] ++ [Css.TRParen]) =
    Some (Css.Mul (Css.Add eb eg) (Css.Lit v "")).
Proof.
  intros Hb Hg. unfold Css.parse_calc.
  set (ts := Css.TLParen :: _).
  assert (Hn : (length (Css.lex "" base) + length (Css.lex "" g) + 6 = length ts)%nat).
  { subst ts. cbn [length app]. rewrite length_app. cbn [length]. rewrite length_app.
    cbn [length]. lia. }
  destruct (length ts) as [| [| [| n]]]; [lia .. |]. subst ts.
  unfold Css.sum, Css.product.
  rewrite (parse_sum_of_atoms base g eb eg) by (done || lia).
  cbn [app]. rewrite product_rest_star_step, parse_value_num.
  by rewrite product_rest_rparen, sum_rest_rparen.
Qed.

(** X8: for an offset that is not zero and prints as a text that reads back
    as the same number, the position that [getTilePosition] returns is a
    valid length when the base size and the gutter are lengths: their sum
    multiplied by the offset. *)
Lemma tile_position_value
    (this : TileStyler.t) (baseSize gutterSize : string) (offset p x gp gx : number) :
  TileStyler._gutterSize this = Some gutterSize ->
  Css.atom_value baseSize = Some (Css.Length p x) ->
  Css.atom_value gutterSize = Some (Css.Length gp gx) ->
  is_zero offset = false ->
  Css.lex "" (Number_toString offset) = [Css.TNum offset ""] ->
  Css.length_value (TileStyler.getTilePosition this (Some baseSize) offset) =
    Some (Css.Length (num_mul (num_add p gp) offset) (num_mul (num_add x gx) offset)).
Proof.
  intros Hgutter Hbase Hg Hz Hoff.
  unfold TileStyler.getTilePosition, calc. rewrite strict_eq_zero, Hz, Hgutter.
  unfold ToString at 1 3, template_undefined, template_string, template_number, ToString.
  replace ("calc(" +:+ (("(" +:+ baseSize +:+ " + " +:+ gutterSize +:+ ") * " +:+
             Number_toString offset) +:+ ")"))
    with ("calc((" +:+ baseSize +:+ " + " +:+ gutterSize +:+ ") * " +:+
          Number_toString offset +:+ ")") by str_norm.
  unfold Css.atom_value in Hbase, Hg.
  destruct (Css.parse_atom baseSize) as [eb |] eqn:Hpb; [| done].
  destruct (Css.parse_atom gutterSize) as [eg |] eqn:Hpg; [| done].
  unfold Css.length_value.
  rewrite lex_tile_position, Hoff.
  rewrite decide_True by done.
  rewrite (parse_tile_position _ _ _ _ _ Hpb Hpg).
  cbn [Css.eval]. rewrite Hbase, Hg. reflexivity.
Qed.

(** X8, for a base of [100px], a gutter of [4px] and the offset 2: 208
    pixels. *)
Lemma tile_position_value_witness :
  let this := TileStyler.init "4px"
                {| TileCoordinator.rowCount := num_of_Z 2; TileCoordinator.rowspan := num_of_Z 2 |}
                (num_of_Z 3) "ltr" TileStyler.constructor in
  TileStyler.getTilePosition this (Some "100px") (num_of_Z 2) = "calc((100px + 4px) * 2)" /\
  Css.length_value (TileStyler.getTilePosition this (Some "100px") (num_of_Z 2)) =
    Some (Css.Length pos_zero (num_of_Z 208)).
Proof.
  intros this. split; [vm_compute; reflexivity |].
  transitivity (Some (Css.Length (num_mul (num_add pos_zero pos_zero) (num_of_Z 2))
                                 (num_mul (num_add (num_of_Z 100) (num_of_Z 4)) (num_of_Z 2))));
    [| vm_compute; reflexivity].
  apply (tile_position_value this "100px" "4px"); vm_compute; reflexivity.
Defined.

Example tile_position_value_example :
  let this := TileStyler.init "4px"
                {| TileCoordinator.rowCount := num_of_Z 2;
                   TileCoordinator.rowspan := num_of_Z 2 |}
                (num_of_Z 3) "ltr" TileStyler.constructor in
  TileStyler.getTilePosition this (Some "100px") (num_of_Z 2) = "calc((100px + 4px) * 2)" /\
  Css.length_value (TileStyler.getTilePosition this (Some "100px") (num_of_Z 2)) =
    Some (Css.Length pos_zero (num_of_Z 208)) /\
  Css.length_value (TileStyler.getTilePosition this (Some "100px") (num_of_Z 0)) =
    Some (Css.Length pos_zero pos_zero).
Proof. repeat apply conj; vm_compute; reflexivity. Qed.

(** ** Rounding in binary64: exact cases and the error of a division *)

Lemma digits2_size (p : positive) : digits2_pos p = Pos.size p.
Proof. induction p; cbn; congruence. Qed.

Lemma digits2_bounds (p : positive) :
  2 ^ (Zpos (digits2_pos p) - 1) <= Zpos p < 2 ^ Zpos (digits2_pos p).
Proof.
  induction p as [p IH | p IH |]; cbn [digits2_pos]; [| | cbn; lia].
  - replace (Zpos (Pos.succ (digits2_pos p)) - 1) with (Zpos (digits2_pos p)) by lia.
    rewrite Pos2Z.inj_succ, Z.pow_succ_r by lia.
    assert (2 ^ Zpos (digits2_pos p) = 2 * 2 ^ (Zpos (digits2_pos p) - 1)) as E.
    { rewrite <- Z.pow_succ_r by lia. f_equal. lia. }
    lia.
  - replace (Zpos (Pos.succ (digits2_pos p)) - 1) with (Zpos (digits2_pos p)) by lia.
    rewrite Pos2Z.inj_succ, Z.pow_succ_r by lia.
    assert (2 ^ Zpos (digits2_pos p) = 2 * 2 ^ (Zpos (digits2_pos p) - 1)) as E.
    { rewrite <- Z.pow_succ_r by lia. f_equal. lia. }
    lia.
Qed.

(** The number of binary digits is determined by the two powers of two around. *)
Lemma digits2_unique (p : positive) (d : Z) :
  2 ^ (d - 1) <= Zpos p < 2 ^ d -> 0 < d -> Zpos (digits2_pos p) = d.
Proof.
  intros [Hlo Hhi] Hd. pose proof (digits2_bounds p) as [Hlo' Hhi'].
  set (d' := Zpos (digits2_pos p)) in *.
  destruct (Z.lt_trichotomy d' d) as [Hlt | [Heq | Hgt]]; [| done |].
  - assert (2 ^ d' <= 2 ^ (d - 1)) by (apply Z.pow_le_mono_r; lia). lia.
  - assert (2 ^ d <= 2 ^ (d' - 1)) by (apply Z.pow_le_mono_r; lia). lia.
Qed.

Lemma iter_xO_pow2 (m n : positive) : Zpos (Pos.iter xO m n) = Zpos m * 2 ^ Zpos n.
Proof.
  revert m. induction n as [| n IH] using Pos.peano_ind; intros m.
  - cbn. lia.
  - rewrite Pos.iter_succ, Pos2Z.inj_xO, IH, Pos2Z.inj_succ, Z.pow_succ_r by lia. lia.
Qed.

(** Shifting out [n] zero bits is exact. *)
Lemma shr_exact (n m : positive) :
  SpecFloat.iter_pos shr_1 n
    {| shr_m := Zpos (Pos.iter xO m n); shr_r := false; shr_s := false |} =
    {| shr_m := Zpos m; shr_r := false; shr_s := false |}.
Proof.
  revert m. induction n as [n IH | n IH |]; intros m; cbn [SpecFloat.iter_pos Pos.iter].
  - cbn [shr_1 orb]. by rewrite !IH.
  - by rewrite !IH.
  - reflexivity.
Qed.

Lemma fexp_eq (x : Z) : -1021 <= x -> fexp prec emax x = x - 53.
Proof. intros H. unfold fexp, emin, prec, emax. lia. Qed.

(** A 53-bit mantissa with an exponent in range is left as it is. *)
Lemma round_canonical (s : bool) (m : positive) (e : Z) :
  Zpos (digits2_pos m) = 53 -> -1074 <= e <= 971 ->
  binary_round_aux prec emax s (Zpos m) e loc_Exact = S754_finite s m e.
Proof.
  intros Hd He. unfold binary_round_aux, shr_fexp. cbn [Zdigits2].
  rewrite Hd, fexp_eq by lia. replace (53 + e - 53 - e) with 0 by lia.
  cbn [shr shr_record_of_loc shr_m loc_of_shr_record round_nearest_even Zdigits2].
  rewrite Hd, fexp_eq by lia. replace (53 + e - 53 - e) with 0 by lia.
  cbn [shr shr_m].
  assert (Hle : (e <=? emax - prec) = true) by (apply Z.leb_le; unfold emax, prec; lia).
  by rewrite Hle.
Qed.

(** A 53-bit mantissa followed by [n] zero bits is rounded exactly. *)
Lemma round_shifted (s : bool) (m n : positive) (e : Z) :
  Zpos (digits2_pos m) = 53 -> -1074 <= e + Zpos n <= 971 ->
  binary_round_aux prec emax s (Zpos (Pos.iter xO m n)) e loc_Exact =
    S754_finite s m (e + Zpos n).
Proof.
  intros Hd He.
  assert (Hdn : Zpos (digits2_pos (Pos.iter xO m n)) = 53 + Zpos n).
  { apply digits2_unique; [| lia]. rewrite iter_xO_pow2.
    pose proof (digits2_bounds m) as Hb. rewrite Hd in Hb.
    replace (53 + Zpos n - 1) with (52 + Zpos n) by lia.
    rewrite !Z.pow_add_r by lia. nia. }
  unfold binary_round_aux, shr_fexp. cbn [Zdigits2].
  rewrite Hdn, fexp_eq by lia.
  replace (53 + Zpos n + e - 53 - e) with (Zpos n) by lia.
  cbn [shr shr_record_of_loc]. rewrite shr_exact.
  cbn [shr_m loc_of_shr_record round_nearest_even Zdigits2].
  rewrite Hd, fexp_eq by lia. replace (53 + (e + Zpos n) - 53 - (e + Zpos n)) with 0 by lia.
  cbn [shr shr_m].
  assert (Hle : (e + Zpos n <=? emax - prec) = true)
    by (apply Z.leb_le; unfold emax, prec; lia).
  by rewrite Hle.
Qed.

Lemma mantissa_of_value (c : positive) :
  Zpos c < 2 ^ 53 ->
  Zpos (mantissa_of c) = Zpos c * 2 ^ (- exponent_of c) /\
  Zpos (digits2_pos (mantissa_of c)) = 53 /\
  -52 <= exponent_of c <= 0.
Proof.
  intros Hc. pose proof (digits2_bounds c) as Hb.
  assert (Hd : 0 < Zpos (digits2_pos c) <= 53).
  { split; [lia |]. destruct (Z.le_gt_cases (Zpos (digits2_pos c)) 53) as [| Hgt]; [done |].
    assert (2 ^ 53 <= 2 ^ (Zpos (digits2_pos c) - 1)) by (apply Z.pow_le_mono_r; lia). lia. }
  unfold mantissa_of, exponent_of.
  destruct (53 - Zpos (digits2_pos c)) as [| k | k] eqn:Hk; [| | lia].
  - replace (Zpos (digits2_pos c)) with 53 by lia. cbn. lia.
  - rewrite iter_xO_pow2. replace (- (Zpos (digits2_pos c) - 53)) with (Zpos k) by lia.
    split; [done |]. split; [| lia].
    apply digits2_unique; [| lia]. rewrite iter_xO_pow2.
    replace 53 with (Zpos (digits2_pos c) + Zpos k) at 1 2 by lia.
    replace (Zpos (digits2_pos c) + Zpos k - 1) with (Zpos (digits2_pos c) - 1 + Zpos k) by lia.
    rewrite !Z.pow_add_r by lia. nia.
Qed.

Lemma num_of_Z_pos (c : positive) :
  Zpos c < 2 ^ 53 ->
  num_of_Z (Zpos c) = S754_finite false (mantissa_of c) (exponent_of c).
Proof.
  intros Hc. destruct (mantissa_of_value c Hc) as (Hv & Hd & He).
  unfold num_of_Z, binary_normalize, binary_round.
  rewrite Z.add_0_r, fexp_eq by lia.
  unfold shl_align. rewrite Z.sub_0_r.
  unfold mantissa_of, exponent_of in *.
  destruct (Zpos (digits2_pos c) - 53) as [| k | k] eqn:Hk.
  - replace (53 - Zpos (digits2_pos c)) with 0 in * by lia.
    apply round_canonical; [done | lia].
  - lia.
  - replace (53 - Zpos (digits2_pos c)) with (Zpos k) in * by lia.
    apply round_canonical; [done | lia].
Qed.

Lemma shl_align_value (m : positive) (e e' : Z) :
  e' <= e -> Zpos (fst (shl_align m e e')) = Zpos m * 2 ^ (e - e').
Proof.
  intros H. unfold shl_align.
  destruct (e' - e) as [| d | d] eqn:Hd; cbn [fst]; [| lia |].
  - replace (e - e') with 0 by lia. lia.
  - rewrite iter_xO_pow2. f_equal. f_equal. lia.
Qed.

(** [c - 1] is computed exactly. *)
Lemma num_sub_one (c : positive) :
  1 < Zpos c < 2 ^ 53 ->
  num_sub (num_of_Z (Zpos c)) (num_of_Z 1) = num_of_Z (Zpos c - 1).
Proof.
  intros Hc.
  assert (Hc1 : exists c1, Zpos c - 1 = Zpos c1) by (exists (Pos.pred c); lia).
  destruct Hc1 as [c1 Hc1]. rewrite Hc1.
  rewrite (num_of_Z_pos c), (num_of_Z_pos c1), num_of_Z_1 by lia.
  destruct (mantissa_of_value c) as (Hv & Hd & He); [lia |].
  destruct (mantissa_of_value c1) as (Hv1 & Hd1 & He1); [lia |].
  unfold num_sub, SFsub. cbn [cond_Zopp].
  replace (Z.min (exponent_of c) (-52)) with (-52) by lia.
  rewrite !shl_align_value by lia.
  replace (exponent_of c - -52) with (52 + exponent_of c) by lia.
  replace (-52 - -52) with 0 by lia.
  assert (Hdiff : Zpos (mantissa_of c) * 2 ^ (52 + exponent_of c) -
                  4503599627370496 * 2 ^ 0 = Zpos c1 * 2 ^ 52).
  { rewrite Hv, <- Z.mul_assoc, <- Z.pow_add_r by lia.
    replace (- exponent_of c + (52 + exponent_of c)) with 52 by lia.
    change (2 ^ 52) with 4503599627370496. lia. }
  rewrite Hdiff.
  assert (Hm : Zpos c1 * 2 ^ 52 = Zpos (mantissa_of c1) * 2 ^ (52 + exponent_of c1)).
  { rewrite Hv1, <- Z.mul_assoc, <- Z.pow_add_r by lia. f_equal. f_equal. lia. }
  destruct (52 + exponent_of c1) as [| n | n] eqn:Hn; [| | lia].
  - rewrite Hm, Z.mul_1_r. unfold binary_normalize, binary_round.
    rewrite Hd1, fexp_eq by lia.
    unfold shl_align. replace (53 + -52 - 53 - -52) with 0 by lia.
    replace (exponent_of c1) with (-52) by lia.
    apply round_canonical; [done | lia].
  - rewrite Hm, <- iter_xO_pow2. unfold binary_normalize, binary_round.
    assert (Hdn : Zpos (digits2_pos (Pos.iter xO (mantissa_of c1) n)) = 53 + Zpos n).
    { apply digits2_unique; [| lia]. rewrite iter_xO_pow2.
      pose proof (digits2_bounds (mantissa_of c1)) as Hb. rewrite Hd1 in Hb.
      replace (53 + Zpos n - 1) with (52 + Zpos n) by lia.
      rewrite !Z.pow_add_r by lia. nia. }
    rewrite Hdn, fexp_eq by lia.
    unfold shl_align. replace (53 + Zpos n + -52 - 53 - -52) with (Zpos n) by lia.
    rewrite round_shifted by (done || lia). f_equal. lia.
Qed.

Lemma new_location_located (n r : Z) :
  0 < n -> 0 <= r < n -> located (new_location n r) r n.
Proof.
  intros Hn Hr. unfold new_location, new_location_even, new_location_odd.
  destruct (Z.even n) eqn:Hev.
  - destruct (Z.eqb_spec r 0) as [-> | Hne]; [done |]. cbn.
    destruct (Z.compare_spec (2 * r) n); lia.
  - destruct (Z.eqb_spec r 0) as [-> | Hne]; [done |]. cbn.
    assert (Hodd : Z.odd n = true) by (rewrite <- Z.negb_even, Hev; done).
    apply Z.odd_spec in Hodd as [k Hk].
    destruct (Z.compare_spec (2 * r + 1) n); lia.
Qed.

Lemma record_of_loc_m (m : Z) (l : location) : shr_m (shr_record_of_loc m l) = m.
Proof. by destruct l as [| []]. Qed.

Lemma loc_of_record_of_loc (m : Z) (l : location) :
  loc_of_shr_record (shr_record_of_loc m l) = l.
Proof. by destruct l as [| []]. Qed.

(** Rounding to nearest, ties to even, is within half a unit. *)
Lemma round_nearest_even_bound (p a b : Z) (loc : location) :
  0 < b -> 0 <= a < b -> located loc a b ->
  let m := round_nearest_even p loc in
  p <= m <= p + 1 /\ 2 * Z.abs (m * b - (p * b + a)) <= b.
Proof.
  intros Hb Ha Hloc. destruct loc as [| []]; cbn in *.
  - subst a. lia.
  - destruct (Z.even p); lia.
  - lia.
  - lia.
Qed.

(** One step to the right: the bit that leaves joins the remainder. *)
Lemma shr_1_located (q : positive) (loc : location) (r n : Z) :
  0 < n -> 0 <= r < n -> located loc r n ->
  let mrs := shr_1 (shr_record_of_loc (Zpos q) loc) in
  Zpos q = 2 * shr_m mrs + Zpos q mod 2 /\
  0 <= Zpos q mod 2 * n + r < 2 * n /\
  located (loc_of_shr_record mrs) (Zpos q mod 2 * n + r) (2 * n).
Proof.
  intros Hn Hr Hloc.
  assert (Hmod : 0 <= Zpos q mod 2 < 2) by (apply Z.mod_pos_bound; lia).
  destruct q as [q | q |].
  - assert (Hq : Zpos q~1 mod 2 = 1)
      by (rewrite Pos2Z.inj_xI, Z.add_comm, Z.mul_comm, Z.mod_add; done).
    rewrite Hq.
    destruct loc as [| []];
      cbn [shr_1 shr_record_of_loc shr_m loc_of_shr_record located orb] in *; lia.
  - assert (Hq : Zpos q~0 mod 2 = 0)
      by (rewrite Pos2Z.inj_xO, Z.mul_comm, Z.mod_mul; done).
    rewrite Hq.
    destruct loc as [| []];
      cbn [shr_1 shr_record_of_loc shr_m loc_of_shr_record located orb] in *; lia.
  - change (1 mod 2) with 1.
    destruct loc as [| []];
      cbn [shr_1 shr_record_of_loc shr_m loc_of_shr_record located orb] in *; lia.
Qed.

(** The final normalization: a mantissa that rounding carried to [2 ^ 53] is
    shifted once more. *)
Lemma renormalize (m1 e : Z) :
  2 ^ 52 <= m1 <= 2 ^ 53 -> -1074 <= e <= 970 ->
  exists m t,
    (let '(mrs, e'') := shr_fexp prec emax m1 e loc_Exact in
     match shr_m mrs with
     | Z0 => S754_zero false
     | Zpos m => if e'' <=? emax - prec then S754_finite false m e''
                 else S754_infinity false
     | Zneg _ => S754_nan
     end) = S754_finite false m (e + t) /\
    Zpos (digits2_pos m) = 53 /\ 0 <= t <= 1 /\ Zpos m * 2 ^ t = m1.
Proof.
  intros Hm He. destruct m1 as [| p | p]; [lia | | lia].
  destruct (Z.eq_dec (Zpos p) (2 ^ 53)) as [Heq | Hne].
  - exists 4503599627370496%positive, 1.
    assert (p = 9007199254740992%positive) as -> by lia.
    unfold shr_fexp. cbn [Zdigits2].
    change (digits2_pos 9007199254740992) with 54%positive.
    rewrite fexp_eq by lia. replace (54 + e - 53 - e) with 1 by lia.
    cbn [shr shr_record_of_loc SpecFloat.iter_pos shr_1 shr_m orb].
    assert (Hle : (e + 1 <=? emax - prec) = true)
      by (apply Z.leb_le; unfold emax, prec; lia).
    rewrite Hle. repeat split; (reflexivity || lia).
  - exists p, 0.
    assert (Hd : Zpos (digits2_pos p) = 53) by (apply digits2_unique; lia).
    unfold shr_fexp. cbn [Zdigits2]. rewrite Hd, fexp_eq by lia.
    replace (53 + e - 53 - e) with 0 by lia.
    cbn [shr shr_record_of_loc shr_m].
    assert (Hle : (e <=? emax - prec) = true)
      by (apply Z.leb_le; unfold emax, prec; lia).
    rewrite Hle, Z.add_0_r. repeat split; lia.
Qed.

(** The quotient [q], of 53 or 54 bits, with what is known of the remainder
    [r], is rounded to a 53-bit mantissa within half a unit in the last
    place. *)
Lemma round_located (q : positive) (e : Z) (loc : location) (r n : Z) :
  0 < n -> 0 <= r < n -> located loc r n ->
  2 ^ 52 <= Zpos q < 2 ^ 54 -> -1074 <= e <= 968 ->
  exists m t,
    binary_round_aux prec emax false (Zpos q) e loc = S754_finite false m (e + t) /\
    Zpos (digits2_pos m) = 53 /\ 0 <= t <= 2 /\
    2 * Z.abs (Zpos m * 2 ^ t * n - (Zpos q * n + r)) <= n * 2 ^ t.
Proof.
  intros Hn Hr Hloc Hq He. unfold binary_round_aux.
  destruct (Z.lt_ge_cases (Zpos q) (2 ^ 53)) as [Hlt | Hge].
  - (* 53 bits: no shift before rounding *)
    assert (Hd : Zpos (digits2_pos q) = 53) by (apply digits2_unique; lia).
    unfold shr_fexp at 1. cbn [Zdigits2]. rewrite Hd, fexp_eq by lia.
    replace (53 + e - 53 - e) with 0 by lia. cbn [shr].
    rewrite record_of_loc_m, loc_of_record_of_loc.
    destruct (round_nearest_even_bound (Zpos q) r n loc Hn Hr Hloc) as [Hm Hb].
    destruct (renormalize (round_nearest_even (Zpos q) loc) e) as (m & t & Hres & Hdm & Ht & Hv);
      [lia | lia |].
    exists m, t. rewrite Hres. split; [done |]. split; [done |]. split; [lia |].
    assert (0 < 2 ^ t) by (apply Z.pow_pos_nonneg; lia).
    rewrite Hv. nia.
  - (* 54 bits: one shift before rounding *)
    assert (Hd : Zpos (digits2_pos q) = 54) by (apply digits2_unique; lia).
    unfold shr_fexp at 1. cbn [Zdigits2]. rewrite Hd, fexp_eq by lia.
    replace (54 + e - 53 - e) with 1 by lia. cbn [shr SpecFloat.iter_pos].
    destruct (shr_1_located q loc r n Hn Hr Hloc) as (Hq2 & Hr2 & Hloc2).
    set (mrs := shr_1 (shr_record_of_loc (Zpos q) loc)) in *.
    assert (Hbit : 0 <= Zpos q mod 2 < 2) by (apply Z.mod_pos_bound; lia).
    assert (Hn2 : 0 < 2 * n) by lia.
    destruct (round_nearest_even_bound (shr_m mrs) _ _ _ Hn2 Hr2 Hloc2) as [Hm Hb].
    destruct (renormalize (round_nearest_even (shr_m mrs) (loc_of_shr_record mrs)) (e + 1))
      as (m & t & Hres & Hdm & Ht & Hv); [lia | lia |].
    exists m, (1 + t). rewrite Hres. split; [f_equal; lia |]. split; [done |].
    split; [lia |].
    assert (0 < 2 ^ t) by (apply Z.pow_pos_nonneg; lia).
    rewrite Z.pow_add_r, Z.pow_1_r by lia.
    replace (Zpos m * (2 * 2 ^ t)) with (2 * (Zpos m * 2 ^ t)) by lia.
    rewrite Hv. nia.
Qed.

(** The quotient of two positive numbers with 53-bit mantissas is within
    half a unit in the last place of the exact quotient. *)
Lemma num_div_bound (m1 m2 : positive) (e1 e2 : Z) :
  Zpos (digits2_pos m1) = 53 -> Zpos (digits2_pos m2) = 53 ->
  -52 <= e1 <= 0 -> -52 <= e2 <= 0 ->
  exists m t,
    num_div (S754_finite false m1 e1) (S754_finite false m2 e2) =
      S754_finite false m (e1 - e2 - 53 + t) /\
    Zpos (digits2_pos m) = 53 /\ 0 <= t <= 2 /\
    2 * Z.abs (Zpos m * 2 ^ t * Zpos m2 - Zpos m1 * 2 ^ 53) <= Zpos m2 * 2 ^ t.
Proof.
  intros Hd1 Hd2 He1 He2.
  pose proof (digits2_bounds m1) as Hb1. pose proof (digits2_bounds m2) as Hb2.
  rewrite Hd1 in Hb1. rewrite Hd2 in Hb2.
  unfold num_div, SFdiv, SFdiv_core_binary. cbn [Zdigits2 xorb].
  rewrite Hd1, Hd2.
  replace (53 + e1 - (53 + e2)) with (e1 - e2) by lia.
  rewrite fexp_eq by lia.
  replace (Z.min (e1 - e2 - 53) (e1 - e2)) with (e1 - e2 - 53) by lia.
  replace (e1 - e2 - (e1 - e2 - 53)) with 53 by lia.
  rewrite Z.shiftl_mul_pow2 by lia.
  pose proof (Z_div_mod (Zpos m1 * 2 ^ 53) (Zpos m2) ltac:(lia)) as Hdm.
  destruct (Z.div_eucl (Zpos m1 * 2 ^ 53) (Zpos m2)) as [q r].
  destruct Hdm as [Heq Hr].
  assert (Hq : 2 ^ 52 <= q < 2 ^ 54).
  { change (2 ^ 52) with 4503599627370496 in *. change (2 ^ 53) with 9007199254740992 in *.
    change (2 ^ 54) with 18014398509481984. change (53 - 1) with 52 in *.
    change (2 ^ 52) with 4503599627370496 in *. nia. }
  destruct q as [| q | q]; [lia | | lia].
  destruct (round_located q (e1 - e2 - 53) (new_location (Zpos m2) r) r (Zpos m2))
    as (m & t & Hres & Hdm & Ht & Hbound);
    [lia | lia | apply new_location_located; lia | lia | lia |].
  exists m, t. rewrite Hres. repeat split; lia.
Qed.

Lemma exponent_of_mono (a b : positive) :
  (Zpos a <= Zpos b) -> exponent_of a <= exponent_of b.
Proof.
  intros Hab. unfold exponent_of.
  pose proof (digits2_bounds a) as Ha. pose proof (digits2_bounds b) as Hb.
  destruct (Z.le_gt_cases (Zpos (digits2_pos a)) (Zpos (digits2_pos b))) as [| Hgt]; [lia |].
  assert (2 ^ Zpos (digits2_pos b) <= 2 ^ (Zpos (digits2_pos a) - 1))
    by (apply Z.pow_le_mono_r; lia).
  lia.
Qed.

Lemma exponent_of_pred (a b : positive) :
  Zpos b = Zpos a + 1 -> exponent_of b <= exponent_of a + 1.
Proof.
  intros Hab. unfold exponent_of.
  pose proof (digits2_bounds a) as Ha. pose proof (digits2_bounds b) as Hb.
  destruct (Z.le_gt_cases (Zpos (digits2_pos b)) (Zpos (digits2_pos a) + 1)) as [| Hgt]; [lia |].
  assert (2 ^ (Zpos (digits2_pos a) + 1) <= 2 ^ (Zpos (digits2_pos b) - 1))
    by (apply Z.pow_le_mono_r; lia).
  rewrite Z.pow_add_r in * by lia. lia.
Qed.

(** The quotient [(c - 1) / c] in binary64, for a whole number [c] from 2
    up. *)
Lemma gutter_fraction_bound (c : positive) :
  1 < Zpos c < 2 ^ 53 ->
  exists m e,
    num_div (num_sub (num_of_Z (Zpos c)) (num_of_Z 1)) (num_of_Z (Zpos c)) =
      S754_finite false m e /\
    e <= -53 /\
    2 * Z.abs (Zpos c * Zpos m - (Zpos c - 1) * 2 ^ (- e)) <= Zpos c.
Proof.
  intros Hc. rewrite num_sub_one by done.
  assert (Hc1 : exists c1, Zpos c - 1 = Zpos c1) by (exists (Pos.pred c); lia).
  destruct Hc1 as [c1 Hc1]. rewrite Hc1.
  rewrite (num_of_Z_pos c), (num_of_Z_pos c1) by lia.
  destruct (mantissa_of_value c) as (Hv2 & Hd2 & He2); [lia |].
  destruct (mantissa_of_value c1) as (Hv1 & Hd1 & He1); [lia |].
  pose proof (exponent_of_mono c1 c ltac:(lia)) as Hmono.
  pose proof (exponent_of_pred c1 c ltac:(lia)) as Hpred.
  destruct (num_div_bound (mantissa_of c1) (mantissa_of c) (exponent_of c1) (exponent_of c))
    as (m & t & Hres & Hdm & Ht & Hbound); [done | done | lia | lia |].
  set (e1 := exponent_of c1) in *. set (e2 := exponent_of c) in *.
  set (E := e1 - e2 - 53 + t) in *.
  pose proof (digits2_bounds m) as Hm. rewrite Hdm in Hm.
  (* the bound, in units of the last place *)
  assert (Hulp : 2 * Z.abs (Zpos c * Zpos m - Zpos c1 * 2 ^ (- E)) <= Zpos c).
  { set (K := 2 ^ (- e2) * 2 ^ t).
    assert (HK : 0 < K) by (apply Z.mul_pos_pos; apply Z.pow_pos_nonneg; lia).
    assert (Hfac : Zpos m * 2 ^ t * Zpos (mantissa_of c) - Zpos (mantissa_of c1) * 2 ^ 53 =
                   K * (Zpos c * Zpos m - Zpos c1 * 2 ^ (- E))).
    { rewrite Hv1, Hv2. fold e1 e2. subst K.
      assert (H53 : 2 ^ (- e1) * 2 ^ 53 = 2 ^ (- E) * (2 ^ (- e2) * 2 ^ t)).
      { rewrite <- !Z.pow_add_r by lia. f_equal. lia. }
      rewrite Z.mul_sub_distr_l.
      replace (Zpos c1 * 2 ^ (- e1) * 2 ^ 53) with (Zpos c1 * (2 ^ (- e1) * 2 ^ 53)) by lia.
      rewrite H53. lia. }
    rewrite Hfac, Z.abs_mul, (Z.abs_eq K) in Hbound by lia.
    rewrite Hv2 in Hbound. fold e2 in Hbound.
    replace (Zpos c * 2 ^ (- e2) * 2 ^ t) with (K * Zpos c) in Hbound by (subst K; lia).
    apply (Z.mul_le_mono_pos_l _ _ K HK). lia. }
  exists m, E. split; [done |]. rewrite <- Hc1 in Hulp |- *.
  split; [| exact Hulp].
  (* the mantissa has 53 bits and the quotient is below 1 *)
  destruct (Z.le_gt_cases E (-53)) as [| Hgt]; [done | exfalso].
  assert (HE : - E = 51 \/ - E = 52) by lia.
  change (53 - 1) with 52 in Hm. change (2 ^ 52) with 4503599627370496 in Hm.
  change (2 ^ 53) with 9007199254740992 in *.
  assert (Hcm : Zpos c * 4503599627370496 <= Zpos c * Zpos m)
    by (apply Z.mul_le_mono_nonneg_l; lia).
  destruct HE as [HE | HE]; rewrite HE in Hulp.
  - change (2 ^ 51) with 2251799813685248 in Hulp. lia.
  - change (2 ^ 52) with 4503599627370496 in Hulp. lia.
Qed.

(** ** C6: the gutter fraction of a column *)

(** Horizontal sizing works from the two figures [setStyle] computes: the
    percent width and the gutter fraction of a column. *)
Lemma setStyle_uses_gutter_fraction {S : Type} `{Styler S}
    (this : S) (tile : MatGridTile.t) (rowIndex colIndex : number) :
  setStyle this tile rowIndex colIndex =
    setRowStyles this
      (TileStyler.setColStyles (base this) tile colIndex
         (TileStyler.percentWidthPerTile (base this))
         (TileStyler.gutterWidthFractionPerTile (base this)))
      rowIndex
      (TileStyler.percentWidthPerTile (base this))
      (TileStyler.gutterWidthFractionPerTile (base this)).
Proof. reflexivity. Qed.

(** C6, counterexample: with three columns the gutter fraction is the
    binary64 number printed [0.6666666666666666], that is
    [6004799503160661 / 2 ^ 53]; three of them make [2 - 2 ^ -53] gutter
    widths, not exactly 2. *)
Lemma C6_three_columns_not_exact :
  let this := TileStyler.init "4px"
                {| TileCoordinator.rowCount := num_of_Z 1;
                   TileCoordinator.rowspan := num_of_Z 1 |}
                (num_of_Z 3) "ltr" TileStyler.constructor in
  let fraction := TileStyler.gutterWidthFractionPerTile this in
  Number_toString fraction = "0.6666666666666666" /\
  exact_value fraction = (6004799503160661, 2 ^ 53) /\
  ~ accounts_for_interior_gutters 3 fraction.
Proof.
  intros this fraction. split; [vm_compute; reflexivity |].
  split; [vm_compute; reflexivity |].
  unfold accounts_for_interior_gutters.
  change (exact_value fraction) with (6004799503160661, 9007199254740992).
  cbv beta iota. lia.
Qed.

(** C6, as amended: for every whole column count [c] from 1 up that a number
    holds exactly, the gutter fraction used by horizontal sizing is the
    binary64 quotient [(c - 1) / c]; it is [0] when [c] is 1; and over a full
    row of [c] cells the fractions account for [c - 1] gutter widths up to
    the rounding of the quotient: [c] times the fraction is within
    [c * 2 ^ -54] of [c - 1]. *)
Theorem C6_gutter_fraction :
  forall (this : TileStyler.t) (c : Z),
    1 <= c < 2 ^ 53 ->
    TileStyler._cols this = Some (num_of_Z c) ->
    let fraction := TileStyler.gutterWidthFractionPerTile this in
    fraction = num_div (num_sub (num_of_Z c) (num_of_Z 1)) (num_of_Z c) /\
    is_finite fraction = true /\
    (c = 1 -> fraction = pos_zero) /\
    let '(num, den) := exact_value fraction in
    0 < den /\ 2 ^ 54 * Z.abs (c * num - (c - 1) * den) <= c * den.
Proof.
  intros this c Hc Hcols fraction.
  assert (Hf : fraction = num_div (num_sub (num_of_Z c) (num_of_Z 1)) (num_of_Z c)).
  { subst fraction. unfold TileStyler.gutterWidthFractionPerTile. by rewrite Hcols. }
  split; [done |]. rewrite Hf. clear fraction Hf.
  destruct (Z.eq_dec c 1) as [-> | Hne].
  { repeat split; try reflexivity. cbn. lia. }
  destruct c as [| cp | cp]; [lia | | lia].
  destruct (gutter_fraction_bound cp ltac:(lia)) as (m & e & -> & He & Hb).
  split; [done |]. split; [done |].
  unfold exact_value.
  assert (Hneg : (0 <=? e) = false) by (apply Z.leb_gt; lia).
  rewrite Hneg.
  assert (Hden : 2 ^ 53 <= 2 ^ (- e)) by (apply Z.pow_le_mono_r; lia).
  split; [lia |].
  change (2 ^ 54) with (2 ^ 53 * 2). change (2 ^ 53) with 9007199254740992 in *.
  nia.
Qed.

(** C6, with three columns: three times the fraction is within
    [3 * 2 ^ -54] of 2. *)
Lemma C6_gutter_fraction_witness :
  let this := TileStyler.init "4px"
                {| TileCoordinator.rowCount := num_of_Z 1;
                   TileCoordinator.rowspan := num_of_Z 1 |}
                (num_of_Z 3) "ltr" TileStyler.constructor in
  let '(num, den) := exact_value (TileStyler.gutterWidthFractionPerTile this) in
  0 < den /\ 2 ^ 54 * Z.abs (3 * num - (3 - 1) * den) <= 3 * den.
Proof.
  intros this.
  exact (proj2 (proj2 (proj2 (C6_gutter_fraction this 3 ltac:(lia) eq_refl)))).
Defined.

(* ===================================================================== *)
(** * Part 6: further properties of the code *)
(* ===================================================================== *)

(** ** Regular expressions: what [matches] accepts *)

Lemma matches_Void (s : string) : matches Void s = false.
Proof. induction s; [reflexivity | done]. Qed.

Lemma matches_Eps (s : string) : matches Eps s = true <-> s = "".
Proof.
  destruct s as [| c s]; [done |]. cbn. rewrite matches_Void. split; done.
Qed.

Lemma matches_Alt (a b : regex) (s : string) :
  matches (Alt a b) s = matches a s || matches b s.
Proof. revert a b. induction s as [| c s IH]; intros a b; [reflexivity |]. apply IH. Qed.

Lemma matches_Class (p : ascii -> bool) (s : string) :
  matches (Class p) s = true <-> exists c, s = String c "" /\ p c = true.
Proof.
  destruct s as [| c s]; cbn.
  - split; [done | by intros (c & ? & _)].
  - destruct (p c) eqn:Hp.
    + rewrite matches_Eps. split; [intros ->; by exists c | by intros (c' & [= <- ->] & _)].
    + rewrite matches_Void. split; [done | intros (c' & [= <- ->] & ?); congruence].
Qed.

(** A text matches a concatenation when it splits into a match of each
    part. *)
Lemma matches_Seq (a b : regex) (s : string) :
  matches (Seq a b) s = true <->
  exists s1 s2, s = s1 +:+ s2 /\ matches a s1 = true /\ matches b s2 = true.
Proof.
  revert a. induction s as [| c s IH]; intros a.
  - cbn. rewrite andb_true_iff. split.
    + intros [Ha Hb]. by exists "", "".
    + intros (s1 & s2 & Hs & H1 & H2). by destruct s1, s2.
  - cbn [matches deriv]. destruct (nullable a) eqn:Hn.
    + rewrite matches_Alt, orb_true_iff, IH. split.
      * intros [(s1 & s2 & -> & H1 & H2) | H].
        -- by exists (String c s1), s2.
        -- by exists "", (String c s).
      * intros (s1 & s2 & Hs & H1 & H2). destruct s1 as [| c1 s1].
        -- right. change (String c s = s2) in Hs. by subst s2.
        -- left. injection Hs as <- ->. by exists s1, s2.
    + rewrite IH. split.
      * intros (s1 & s2 & -> & H1 & H2). by exists (String c s1), s2.
      * intros (s1 & s2 & Hs & H1 & H2). destruct s1 as [| c1 s1].
        -- cbn in H1. congruence.
        -- injection Hs as <- ->. by exists s1, s2.
Qed.

Lemma matches_Star (r : regex) (s : string) :
  matches (Star r) s = true <->
  s = "" \/ exists c s1 s2,
    s = String c s1 +:+ s2 /\ matches r (String c s1) = true /\ matches (Star r) s2 = true.
Proof.
  destruct s as [| c s].
  - split; [by left | done].
  - cbn [matches deriv]. rewrite matches_Seq. split.
    + intros (s1 & s2 & -> & H1 & H2). right. by exists c, s1, s2.
    + intros [| (c' & s1 & s2 & Hs & H1 & H2)]; [done |].
      injection Hs as <- ->. by exists s1, s2.
Qed.

Lemma matches_Opt (r : regex) (s : string) :
  matches (Opt r) s = true <-> s = "" \/ matches r s = true.
Proof. unfold Opt. rewrite matches_Alt, orb_true_iff, matches_Eps. tauto. Qed.

Lemma all_chars_app (p : ascii -> bool) (a b : string) :
  all_chars p (a +:+ b) = all_chars p a && all_chars p b.
Proof.
  induction a as [| c a IH]; [reflexivity |].
  change (String c a +:+ b) with (String c (a +:+ b)). cbn. by rewrite IH, andb_assoc.
Qed.

Lemma matches_Star_Class (p : ascii -> bool) (s : string) :
  matches (Star (Class p)) s = all_chars p s.
Proof.
  induction s as [| c s IH]; [reflexivity |].
  apply eq_true_iff_eq. rewrite matches_Star. cbn [all_chars]. rewrite andb_true_iff, <- IH.
  split.
  - intros [| (c' & s1 & s2 & Hs & H1 & H2)]; [done |].
    apply matches_Class in H1 as (c1 & [= -> ->] & Hp). by injection Hs as -> ->.
  - intros [Hp Hs]. right. exists c, "", s. split; [done |]. split; [| done].
    apply matches_Class. by exists c.
Qed.

Lemma matches_Plus_Class (p : ascii -> bool) (s : string) :
  matches (Plus (Class p)) s = true <-> s <> "" /\ all_chars p s = true.
Proof.
  unfold Plus. rewrite matches_Seq. split.
  - intros (s1 & s2 & -> & H1 & H2). apply matches_Class in H1 as (c & -> & Hp).
    rewrite matches_Star_Class in H2. change (String c "" +:+ s2) with (String c s2).
    split; [done |]. cbn. by rewrite Hp.
  - intros [Hne Hall]. destruct s as [| c s]; [done |]. cbn in Hall.
    apply andb_true_iff in Hall as [Hp Hs]. exists (String c ""), s.
    split; [done |]. split; [apply matches_Class; by exists c | by rewrite matches_Star_Class].
Qed.

Lemma string_length_app (a b : string) :
  String.length (a +:+ b) = (String.length a + String.length b)%nat.
Proof.
  induction a as [| c a IH]; [reflexivity |].
  change (String c a +:+ b) with (String c (a +:+ b)). cbn. by rewrite IH.
Qed.

(** A text that matches [r] is made of characters that the classes of [r]
    accept. *)
Lemma matches_reads_only (ok : ascii -> bool) (r : regex) (s : string) :
  reads_only ok r -> matches r s = true -> all_chars ok s = true.
Proof.
  revert s. induction r as [| | p | a IHa b IHb | a IHa b IHb | a IHa]; intros s Hr Hm.
  - by rewrite matches_Void in Hm.
  - apply matches_Eps in Hm. by subst.
  - apply matches_Class in Hm as (c & -> & Hp). cbn. by rewrite (Hr c Hp).
  - destruct Hr as [Ha Hb]. apply matches_Seq in Hm as (s1 & s2 & -> & H1 & H2).
    rewrite all_chars_app, (IHa s1), (IHb s2); done.
  - destruct Hr as [Ha Hb]. rewrite matches_Alt in Hm.
    apply orb_true_iff in Hm as [H | H]; [by apply IHa | by apply IHb].
  - cbn in Hr. remember (String.length s) as n eqn:Hn. revert s Hn Hm.
    induction (lt_wf n) as [n _ IH]. intros s -> Hm.
    apply matches_Star in Hm as [-> | (c & s1 & s2 & -> & H1 & H2)]; [done |].
    rewrite all_chars_app, (IHa _ Hr H1). cbn [andb].
    apply (IH (String.length s2)); [| done | done].
    rewrite string_length_app. cbn. lia.
Qed.

(** ** [normalizeUnits] *)

Lemma last_char_app (a : string) (c : ascii) (b : string) :
  last_char (a +:+ String c b) = last_char (String c b).
Proof.
  induction a as [| x a IH]; [reflexivity |].
  change (String x a +:+ String c b) with (String x (a +:+ String c b)).
  cbn [last_char]. rewrite IH.
  destruct a; reflexivity.
Qed.

Lemma all_chars_last (p : ascii -> bool) (s : string) :
  s <> "" -> all_chars p s = true ->
  match last_char s with Some c => p c | None => false end = true.
Proof.
  induction s as [| c s IH]; [done |]. intros _ H. cbn in H.
  apply andb_true_iff in H as [Hc Hs].
  destruct s as [| c' s]; [done |]. by apply IH.
Qed.

(** [value.match(/([A-Za-z%]+)$/)] succeeds exactly when the last character
    of [value] is a letter or [%]. *)
Lemma matches_at_end_trailingUnit (s : string) :
  matches_at_end trailingUnit s =
    match last_char s with Some c => unit_char c | None => false end.
Proof.
  induction s as [| c s IH]; [reflexivity |].
  cbn [matches_at_end]. rewrite IH.
  destruct s as [| c' s].
  - cbn [last_char]. rewrite orb_false_r.
    apply eq_true_iff_eq. unfold trailingUnit. rewrite matches_Plus_Class. cbn.
    fold (unit_char c). rewrite andb_true_r. split; [by intros [_ ?] | done].
  - change (last_char (String c (String c' s))) with (last_char (String c' s)).
    destruct (match last_char (String c' s) with Some c0 => unit_char c0 | None => false end)
      eqn:Hl; [apply orb_true_r |].
    rewrite orb_false_r. apply not_true_is_false. unfold trailingUnit.
    rewrite matches_Plus_Class. intros [_ Hall].
    change (unit_char c && all_chars unit_char (String c' s) = true) in Hall.
    apply andb_true_iff in Hall as [_ Hall].
    apply all_chars_last in Hall; [congruence | done].
Qed.

Lemma normalizeUnits_ends_with_unit (value : string) :
  matches_at_end trailingUnit (normalizeUnits value) = true.
Proof.
  unfold normalizeUnits. destruct (matches_at_end trailingUnit value) eqn:H; [done |].
  rewrite matches_at_end_trailingUnit. by rewrite (last_char_app value "p" "x").
Qed.

(** X1: [normalizeUnits] looks at the last character only: a value that ends
    with a letter or [%] is returned unchanged, every other value gets [px]
    appended, and the empty value becomes [px]. *)
Theorem normalizeUnits_last_char :
  forall value : string,
    normalizeUnits value =
      match last_char value with
      | Some c => if is_alpha c || char_is "%" c then value else value +:+ "px"
      | None => "px"
      end.
Proof.
  intros value. unfold normalizeUnits. rewrite matches_at_end_trailingUnit.
  destruct value as [| c s]; [reflexivity |].
  destruct (last_char (String c s)) eqn:Hl; [reflexivity |].
  exfalso. clear -Hl. revert c Hl. induction s as [| c' s IH]; intros c Hl; [done |].
  by apply (IH c').
Qed.

(** X2: [normalizeUnits] is idempotent, and its result always ends with a
    unit: the pattern of [normalizeUnits] finds one in it. *)
Theorem normalizeUnits_idempotent :
  forall value : string,
    normalizeUnits (normalizeUnits value) = normalizeUnits value /\
    matches_at_end trailingUnit (normalizeUnits value) = true.
Proof.
  intros value. pose proof (normalizeUnits_ends_with_unit value) as H.
  split; [| done]. unfold normalizeUnits at 1. by rewrite H.
Qed.

(** X3: after [init], the gutter size of a styler is defined and carries a
    unit: it is the value given, or that value with [px] appended, and it
    ends with a letter or [%]. *)
Theorem init_gutter_has_unit :
  forall (gutterSize direction : string) (tracker : TileCoordinator.t) (cols : number)
         (this : TileStyler.t),
    let styler := TileStyler.init gutterSize tracker cols direction this in
    exists gutter c,
      TileStyler._gutterSize styler = Some gutter /\
      (gutter = gutterSize \/ gutter = gutterSize +:+ "px") /\
      last_char gutter = Some c /\ unit_char c = true /\
      ToString (TileStyler._gutterSize styler) = gutter.
Proof.
  intros gutterSize direction tracker cols this styler. subst styler.
  cbn [TileStyler.init TileStyler._gutterSize].
  pose proof (normalizeUnits_ends_with_unit gutterSize) as Hu.
  rewrite matches_at_end_trailingUnit in Hu.
  destruct (last_char (normalizeUnits gutterSize)) as [c |] eqn:Hl; [| done].
  exists (normalizeUnits gutterSize), c. split; [done |]. split; [| done].
  unfold normalizeUnits. destruct (matches_at_end trailingUnit gutterSize); auto.
Qed.

(** ** The row height that [FixedTileStyler.init] accepts *)

Lemma calc_value_char_word (c : ascii) :
  calc_value_char c = true ->
  is_space c = false /\ char_is "(" c = false /\ char_is ")" c = false /\
  char_is "*" c = false /\ char_is "/" c = false /\ char_is "+" c = false.
Proof.
  destruct c as [[] [] [] [] [] [] [] []]; vm_compute; intros H;
    first [discriminate H | repeat split].
Qed.

Lemma append_not_nil (a : string) (c : ascii) (b : string) : a +:+ String c b <> "".
Proof. by destruct a. Qed.

(** A text made of the characters of [cssCalcAllowedValue] is one word of a
    [calc()] expression. *)
Lemma lex_word (cur s : string) :
  s <> "" -> all_chars calc_value_char s = true ->
  Css.lex cur s = [Css.classify (cur +:+ s)].
Proof.
  revert cur. induction s as [| c s IH]; intros cur Hne Hall; [done |].
  cbn [all_chars] in Hall. apply andb_true_iff in Hall as [Hc Hs].
  apply calc_value_char_word in Hc as (H0 & H1 & H2 & H3 & H4 & _).
  cbn [Css.lex]. rewrite H0, H1, H2, H3, H4.
  destruct s as [| c' s].
  - cbn [Css.lex]. unfold Css.flush.
    destruct (cur +:+ String c "") eqn:E; [by apply append_not_nil in E | done].
  - rewrite IH by done. by rewrite append_assoc.
Qed.

Lemma reads_only_cssCalcAllowedValue : reads_only calc_value_char cssCalcAllowedValue.
Proof.
  unfold cssCalcAllowedValue, Opt, Plus, calc_value_char. cbn [reads_only].
  repeat split; intros c Hc;
    destruct (char_is "-" c), (is_digit c), (char_is "." c), (is_alpha c),
      (char_is "%" c), (char_is "$" c); done.
Qed.

Lemma cssCalcAllowedValue_shape (s : string) :
  matches cssCalcAllowedValue s = true ->
  exists sign digits rest,
    s = sign +:+ digits +:+ rest /\ (sign = "" \/ sign = "-") /\
    digits <> "" /\ all_chars is_digit digits = true.
Proof.
  unfold cssCalcAllowedValue. intros H.
  apply matches_Seq in H as (sign & s2 & -> & Hsign & H).
  apply matches_Seq in H as (digits & rest & -> & Hd & _).
  apply matches_Plus_Class in Hd as [Hne Hall].
  exists sign, digits, rest. split; [done |]. split; [| done].
  apply matches_Opt in Hsign as [-> | Hc]; [by left | right].
  apply matches_Class in Hc as (c & -> & Hc). unfold char_is in Hc.
  apply Ascii.eqb_eq in Hc. by subst c.
Qed.

(** X4: when [FixedTileStyler.init] returns normally, the row height it
    stores is the normalized one; it is made of digits, letters and the
    characters [-], [.], [%] and [$] only, starts with an optional [-] and at
    least one digit, and ends with a letter or [%].  It holds no white space,
    parenthesis or operator, so it is a single word of the [calc()]
    expressions it is embedded in. *)
Theorem init_accepted_row_height :
  forall (gutterSize direction : string) (tracker : TileCoordinator.t) (cols : number)
         (this styler : FixedTileStyler.t),
    FixedTileStyler.init gutterSize tracker cols direction this = Normal styler ->
    let height := FixedTileStyler.fixedRowHeight styler in
    height = normalizeUnits (FixedTileStyler.fixedRowHeight this) /\
    all_chars calc_value_char height = true /\
    (exists sign digits rest,
        height = sign +:+ digits +:+ rest /\ (sign = "" \/ sign = "-") /\
        digits <> "" /\ all_chars is_digit digits = true) /\
    (exists c, last_char height = Some c /\ unit_char c = true) /\
    Css.lex "" height = [Css.classify height].
Proof.
  intros gutterSize direction tracker cols this styler Hinit height.
  unfold FixedTileStyler.init in Hinit.
  cbn [FixedTileStyler.fixedRowHeight FixedTileStyler.super] in Hinit.
  destruct (matches cssCalcAllowedValue (normalizeUnits (FixedTileStyler.fixedRowHeight this)))
    eqn:Hm; [| done].
  injection Hinit as <-. subst height. cbn [FixedTileStyler.fixedRowHeight].
  set (h := normalizeUnits _) in *.
  pose proof (matches_reads_only _ _ _ reads_only_cssCalcAllowedValue Hm) as Hall.
  pose proof (cssCalcAllowedValue_shape _ Hm) as Hshape.
  split; [done |]. split; [done |]. split; [done |]. split.
  - pose proof (normalizeUnits_ends_with_unit (FixedTileStyler.fixedRowHeight this)) as Hu.
    fold h in Hu. rewrite matches_at_end_trailingUnit in Hu.
    destruct (last_char h) as [c |]; [by exists c | done].
  - apply (lex_word "" h); [| done].
    destruct Hshape as (sign & digits & rest & -> & _ & Hne & _).
    destruct sign; [| done]. by destruct digits.
Qed.

(** X4, for the row height [12.5]: [init] stores [12.5px]. *)
Lemma init_accepted_row_height_witness :
  let tracker := {| TileCoordinator.rowCount := num_of_Z 2;
                    TileCoordinator.rowspan := num_of_Z 2 |} in
  let this := {| FixedTileStyler.super := TileStyler.constructor;
                 FixedTileStyler.fixedRowHeight := "12.5" |} in
  let styler := {| FixedTileStyler.super :=
                     TileStyler.init "4" tracker (num_of_Z 3) "ltr" TileStyler.constructor;
                   FixedTileStyler.fixedRowHeight := "12.5px" |} in
  FixedTileStyler.init "4" tracker (num_of_Z 3) "ltr" this = Normal styler /\
  all_chars calc_value_char "12.5px" = true /\
  Css.lex "" "12.5px" = [Css.classify "12.5px"].
Proof.
  intros tracker this styler. split; [reflexivity |].
  pose proof (init_accepted_row_height "4" "ltr" tracker (num_of_Z 3) this styler eq_refl)
    as (_ & Hall & _ & _ & Hlex).
  split; [exact Hall | exact Hlex].
Defined.

Lemma matches_calc_units (u : string) :
  all_chars calc_unit_char u = true ->
  matches
    (Star (Seq (Opt (Seq (Class (char_is ".")) (Plus (Class is_digit))))
               (Opt (Class (fun c => is_alpha c || char_is "%" c || char_is "$" c))))) u = true.
Proof.
  induction u as [| c u IH]; [done |]. intros H. cbn [all_chars] in H.
  apply andb_true_iff in H as [Hc Hu].
  apply matches_Star. right. exists c, "", u. split; [done |]. split; [| by apply IH].
  apply matches_Seq. exists "", (String c ""). split; [done |]. split; [done |].
  apply matches_Opt. right. apply matches_Class. by exists c.
Qed.

(** A decimal number, with an optional sign and an optional fraction, and any
    run of unit characters after it passes [cssCalcAllowedValue]. *)
Lemma matches_cssCalcAllowedValue (neg : bool) (digits fraction unit : string) :
  digits <> "" -> all_chars is_digit digits = true ->
  all_chars is_digit fraction = true -> all_chars calc_unit_char unit = true ->
  matches cssCalcAllowedValue
    ((if neg then "-" else "") +:+ digits +:+
     (match fraction with "" => "" | _ => "." +:+ fraction end) +:+ unit) = true.
Proof.
  intros Hne Hd Hf Hu. unfold cssCalcAllowedValue.
  apply matches_Seq. eexists _, _. split; [reflexivity |]. split.
  { apply matches_Opt. destruct neg; [right | by left].
    apply matches_Class. by exists "-"%char. }
  apply matches_Seq. eexists _, _. split; [reflexivity |]. split.
  { by apply matches_Plus_Class. }
  unfold Plus at 1.
  set (frac := match fraction with "" => "" | _ => "." +:+ fraction end).
  assert (Hfrac : matches (Opt (Seq (Class (char_is ".")) (Plus (Class is_digit)))) frac = true).
  { apply matches_Opt. subst frac. destruct fraction as [| c f]; [by left | right].
    apply matches_Seq. exists ".", (String c f). split; [done |].
    split; [apply matches_Class; by exists "."%char | by apply matches_Plus_Class]. }
  destruct unit as [| c u].
  - apply matches_Seq. exists frac, "". split; [by rewrite append_nil_r |]. split; [| done].
    apply matches_Seq. exists frac, "". split; [by rewrite append_nil_r |]. split; [done | done].
  - cbn [all_chars] in Hu. apply andb_true_iff in Hu as [Hc Hu].
    apply matches_Seq. exists (frac +:+ String c ""), u.
    split; [by rewrite append_assoc |]. split; [| by apply matches_calc_units].
    apply matches_Seq. exists frac, (String c ""). split; [done |]. split; [done |].
    apply matches_Opt. right. apply matches_Class. by exists c.
Qed.

(** X5: [FixedTileStyler.init] accepts every row height that is a decimal
    number (an optional [-], digits, an optional fraction) followed by any
    run of letters, [%] and [$], the empty one included; it stores the
    normalized value, so a plain number gets [px]. *)
Theorem init_accepts_dimension :
  forall (neg : bool) (digits fraction unit gutterSize direction : string)
         (tracker : TileCoordinator.t) (cols : number) (this : FixedTileStyler.t),
    digits <> "" -> all_chars is_digit digits = true ->
    all_chars is_digit fraction = true -> all_chars calc_unit_char unit = true ->
    FixedTileStyler.fixedRowHeight this =
      (if neg then "-" else "") +:+ digits +:+
      (match fraction with "" => "" | _ => "." +:+ fraction end) +:+ unit ->
    FixedTileStyler.init gutterSize tracker cols direction this =
      Normal {| FixedTileStyler.super :=
                  TileStyler.init gutterSize tracker cols direction (FixedTileStyler.super this);
                FixedTileStyler.fixedRowHeight :=
                  normalizeUnits (FixedTileStyler.fixedRowHeight this) |}.
Proof.
  intros neg digits fraction unit gutterSize direction tracker cols this Hne Hd Hf Hu Hvalue.
  unfold FixedTileStyler.init. cbn [FixedTileStyler.fixedRowHeight FixedTileStyler.super].
  assert (Hm : matches cssCalcAllowedValue (normalizeUnits (FixedTileStyler.fixedRowHeight this))
               = true); [| by rewrite Hm].
  unfold normalizeUnits. destruct (matches_at_end trailingUnit _).
  - rewrite Hvalue. by apply matches_cssCalcAllowedValue.
  - rewrite Hvalue, !append_assoc.
    apply (matches_cssCalcAllowedValue neg digits fraction (unit +:+ "px")); try done.
    by rewrite all_chars_app, Hu.
Qed.

(** X5, for the row height [-12.50]: [init] stores [-12.50px]. *)
Lemma init_accepts_dimension_witness :
  FixedTileStyler.init "4"
    {| TileCoordinator.rowCount := num_of_Z 2; TileCoordinator.rowspan := num_of_Z 2 |}
    (num_of_Z 3) "ltr"
    {| FixedTileStyler.super := TileStyler.constructor;
       FixedTileStyler.fixedRowHeight := "-12.50" |} =
  Normal {| FixedTileStyler.super :=
              TileStyler.init "4"
                {| TileCoordinator.rowCount := num_of_Z 2; TileCoordinator.rowspan := num_of_Z 2 |}
                (num_of_Z 3) "ltr" TileStyler.constructor;
            FixedTileStyler.fixedRowHeight := "-12.50px" |}.
Proof.
  exact (init_accepts_dimension true "12" "50" "" "4" "ltr" _ (num_of_Z 3)
           {| FixedTileStyler.super := TileStyler.constructor;
              FixedTileStyler.fixedRowHeight := "-12.50" |}
           ltac:(done) eq_refl eq_refl eq_refl eq_refl).
Defined.

(** ** The ratio that [RatioTileStyler] works from *)






Lemma num_div_not_finite (x r : number) :
  is_nan r || is_zero r = true -> is_finite (num_div x r) = false.
Proof. destruct r as [s | s | | s m e]; try done; destruct x as [sx | sx | | sx mx ex]; done. Qed.

(** A percentage that is not finite is not a token of the grammar, and the
    value that starts with it is invalid. *)
Lemma length_value_not_finite_percent (x : number) (rest : string) :
  is_finite x = false ->
  Css.length_value ("calc(((" +:+ Number_toString x +:+ "% - (" +:+ rest) = None.
Proof.
  intros Hx. unfold Css.length_value.
  assert (exists w, Css.lex "" ("calc(((" +:+ Number_toString x +:+ "% - (" +:+ rest) =
            Css.TFunc "calc" :: Css.TLParen :: Css.TLParen :: Css.TBad w ::
            Css.TMinus :: Css.TLParen :: Css.lex "" rest) as [w ->].
  { destruct x as [s | [] | | s m e]; try done; eexists; reflexivity. }
  cbv beta iota. rewrite parse_calc_bad. by case_decide.
Qed.

(** X7: with a ratio that is [NaN] (parts that are not numbers, or [0:0]) or
    zero, [RatioTileStyler.setRowStyles] does not fail: the percent height is
    not finite, and the [paddingTop] it sets, and the [marginTop] of every
    row but the first, are not valid CSS lengths. *)
Theorem ratio_zero_or_nan_emits_invalid_values :
  forall (this : RatioTileStyler.t) (tile : MatGridTile.t)
         (rowIndex percentWidth gutterWidth : number),
    is_nan (RatioTileStyler.rowHeightRatio this) ||
    is_zero (RatioTileStyler.rowHeightRatio this) = true ->
    let styled :=
      (RatioTileStyler.setRowStyles this tile rowIndex percentWidth gutterWidth).2 in
    is_finite (RatioTileStyler.percentHeightPerTile this percentWidth) = false /\
    (exists paddingTop,
        MatGridTile.style styled !! "paddingTop" = Some paddingTop /\
        Css.length_value paddingTop = None) /\
    (exists marginTop,
        MatGridTile.style styled !! "marginTop" = Some marginTop /\
        (is_zero rowIndex = false -> Css.length_value marginTop = None)).
Proof.
  intros this tile rowIndex percentWidth gutterWidth Hr styled.
  pose proof (num_div_not_finite percentWidth _ Hr) as Hp.
  split; [exact Hp |].
  subst styled. unfold RatioTileStyler.setRowStyles, MatGridTile._setStyle.
  cbn [snd MatGridTile.style MatGridTile.rowspan RatioTileStyler.super
       RatioTileStyler.baseTileHeight].
  fold (RatioTileStyler.percentHeightPerTile this percentWidth) in Hp.
  split.
  - eexists. split; [by simplify_map_eq |].
    unfold calc, TileStyler.getTileSize, TileStyler.getBaseTileSize.
    unfold ToString at 1 2, template_undefined, template_string, template_number, ToString.
    rewrite !append_assoc.
    apply (length_value_not_finite_percent _ _ Hp).
  - eexists. split; [by simplify_map_eq |]. intros Hz.
    unfold TileStyler.getTilePosition. rewrite strict_eq_zero, Hz.
    unfold calc, TileStyler.getBaseTileSize.
    unfold ToString at 1 2, template_undefined, template_string, template_number, ToString.
    rewrite !append_assoc.
    apply (length_value_not_finite_percent _ _ Hp).
Qed.

(** X7, for the ratio [a:b], which the constructor accepts. *)
Lemma ratio_zero_or_nan_emits_invalid_values_witness :
  exists this paddingTop,
    RatioTileStyler.constructor "a:b" = Normal this /\
    MatGridTile.style
      (RatioTileStyler.setRowStyles this
         {| MatGridTile.colspan := num_of_Z 1; MatGridTile.rowspan := num_of_Z 1;
            MatGridTile.style := ∅ |}
         (num_of_Z 1) (num_of_Z 25) (num_of_decimal 75 (-2))).2 !! "paddingTop" =
      Some paddingTop /\
    Css.length_value paddingTop = None.
Proof.
  eexists.
  destruct (ratio_zero_or_nan_emits_invalid_values
              {| RatioTileStyler.super := TileStyler.constructor;
                 RatioTileStyler.rowHeightRatio := num_div (parseFloat "a") (parseFloat "b");
                 RatioTileStyler.baseTileHeight := None |}
              {| MatGridTile.colspan := num_of_Z 1; MatGridTile.rowspan := num_of_Z 1;
                 MatGridTile.style := ∅ |}
              (num_of_Z 1) (num_of_Z 25) (num_of_decimal 75 (-2)) eq_refl)
    as (_ & (paddingTop & Hstyle & Hvalue) & _).
  exists paddingTop. split; [reflexivity |]. split; [exact Hstyle | exact Hvalue].
Defined.

(** ** The emitted sizes as lengths *)

Section MoreSteps.

Variable value : list Css.token -> option (Css.expr * list Css.token).

Lemma product_rest_minus (f : nat) (e : Css.expr) (ts : list Css.token) :
  Css.product_rest value f e (Css.TMinus :: ts) = Some (e, Css.TMinus :: ts).
Proof. by destruct f. Qed.

Lemma sum_rest_minus_step (f : nat) (e : Css.expr) (ts : list Css.token) :
  Css.sum_rest value (S f) e (Css.TMinus :: ts) =
    match Css.product value f ts with
    | Some (e', r') => Css.sum_rest value f (Css.Sub e e') r'
    | None => None
    end.
Proof. reflexivity. Qed.

End MoreSteps.

Lemma lex_base_tile_size (percent g fraction : string) :
  Css.lex "" ("(" +:+ percent +:+ "% - (" +:+ g +:+ " * " +:+ fraction +:+ "))") =
    Css.TLParen :: Css.lex "" (percent +:+ "%") ++
    Css.TMinus :: Css.TLParen :: Css.lex "" g ++
    Css.TStar :: Css.lex "" fraction ++ [Css.TRParen; Css.TRParen].
Proof.
  transitivity (Css.TLParen ::
    Css.lex "" ((percent +:+ "%") +:+ String " " ("- (" +:+ g +:+ String " " ("* " +:+
                fraction +:+ String ")" ")")))).
  { rewrite !append_assoc. reflexivity. }
  rewrite lex_app_space. do 2 f_equal.
  transitivity (Css.TMinus :: Css.TLParen ::
    Css.lex "" (g +:+ String " " ("* " +:+ fraction +:+ String ")" ")")));
    [reflexivity |].
  rewrite lex_app_space. do 3 f_equal.
  transitivity (Css.TStar :: Css.lex "" (fraction +:+ String ")" ")")); [reflexivity |].
  by rewrite lex_app_rparen.
Qed.

(** [( percentage - ( atom * number ) )] *)
Lemma parse_base_tile_size (g : string) (eg : Css.expr) (p k : number)
    (f : nat) (rest : list Css.token) :
  Css.parse_atom g = Some eg -> (length (Css.lex "" g) <= f)%nat ->
  Css.parse_value (S (S (S (S f))))
    (Css.TLParen :: [Css.TNum p "%"] ++ Css.TMinus :: Css.TLParen :: Css.lex "" g ++
     Css.TStar :: [Css.TNum k ""] ++ [Css.TRParen; Css.TRParen] ++ rest) =
    Some (Css.Sub (Css.Lit p "%") (Css.Mul eg (Css.Lit k "")), rest).
Proof.
  intros Hg Hf. rewrite parse_value_paren. unfold Css.sum, Css.product. cbn [app].
  rewrite parse_value_num, product_rest_minus, sum_rest_minus_step.
  unfold Css.product.
  rewrite (parse_scaled_atom g eg) by (done || lia).
  by rewrite product_rest_rparen, sum_rest_rparen.
Qed.

Lemma base_tile_size_atom
    (this : TileStyler.t) (gutterSize : string) (eg : Css.expr)
    (sizePercent gutterFraction : number) :
  TileStyler._gutterSize this = Some gutterSize ->
  Css.parse_atom gutterSize = Some eg ->
  Css.lex "" (Number_toString sizePercent +:+ "%") = [Css.TNum sizePercent "%"] ->
  Css.lex "" (Number_toString gutterFraction) = [Css.TNum gutterFraction ""] ->
  Css.parse_atom (TileStyler.getBaseTileSize this sizePercent gutterFraction) =
    Some (Css.Sub (Css.Lit sizePercent "%") (Css.Mul eg (Css.Lit gutterFraction ""))).
Proof.
  intros Hgutter Hpg Hp Hk.
  unfold TileStyler.getBaseTileSize. rewrite Hgutter.
  unfold ToString, template_undefined, template_string, template_number, ToString.
  unfold Css.parse_atom. rewrite lex_base_tile_size, Hp, Hk.
  set (ts := Css.TLParen :: _).
  assert (Hn : (length (Css.lex "" gutterSize) + 8 = length ts)%nat).
  { subst ts. cbn [length app]. rewrite length_app. cbn [length]. lia. }
  destruct (length ts) as [| [| [| [| n]]]]; [lia .. |]. subst ts.
  pose proof (parse_base_tile_size gutterSize eg sizePercent gutterFraction n [] Hpg
                ltac:(lia)) as Hparse.
  rewrite app_nil_r in Hparse. by rewrite Hparse.
Qed.

Lemma eval_percent (v : number) : Css.eval (Css.Lit v "%") = Some (Css.Length v pos_zero).
Proof. reflexivity. Qed.

Lemma eval_number (v : number) : Css.eval (Css.Lit v "") = Some (Css.Number v).
Proof. reflexivity. Qed.

(** X9: when the percentage and the gutter fraction print as texts that
    read back as the same numbers, and the gutter is a length, the text of
    [getBaseTileSize] is a valid calc-value that denotes the size percent
    minus the gutter multiplied by the fraction. *)
Theorem base_tile_size_value :
  forall (this : TileStyler.t) (gutterSize : string) (sizePercent gutterFraction gp gx : number),
    TileStyler._gutterSize this = Some gutterSize ->
    Css.atom_value gutterSize = Some (Css.Length gp gx) ->
    Css.lex "" (Number_toString sizePercent +:+ "%") = [Css.TNum sizePercent "%"] ->
    Css.lex "" (Number_toString gutterFraction) = [Css.TNum gutterFraction ""] ->
    Css.atom_value (TileStyler.getBaseTileSize this sizePercent gutterFraction) =
      Some (Css.Length (num_sub sizePercent (num_mul gp gutterFraction))
                       (num_sub pos_zero (num_mul gx gutterFraction))).
Proof.
  intros this gutterSize sizePercent gutterFraction gp gx Hgutter Hg Hp Hk.
  unfold Css.atom_value in *.
  destruct (Css.parse_atom gutterSize) as [eg |] eqn:Hpg; [| done].
  rewrite (base_tile_size_atom this gutterSize eg) by done.
  cbn [Css.eval]. fold (Css.eval (Css.Lit sizePercent "%")).
  fold (Css.eval (Css.Lit gutterFraction "")).
  by rewrite eval_percent, eval_number, Hg.
Qed.

(** X9, for four columns and a gutter of [4px]: [(25% - (4px * 0.75))] is
    25% minus 3 pixels. *)
Lemma base_tile_size_value_witness :
  let this := TileStyler.init "4px"
                {| TileCoordinator.rowCount := num_of_Z 1;
                   TileCoordinator.rowspan := num_of_Z 1 |}
                (num_of_Z 4) "ltr" TileStyler.constructor in
  TileStyler.getBaseTileSize this (num_of_Z 25) (num_of_decimal 75 (-2)) =
    "(25% - (4px * 0.75))" /\
  Css.atom_value (TileStyler.getBaseTileSize this (num_of_Z 25) (num_of_decimal 75 (-2))) =
    Some (Css.Length (num_of_Z 25) (num_of_Z (-3))).
Proof.
  intros this. split; [vm_compute; reflexivity |].
  transitivity (Some (Css.Length
                        (num_sub (num_of_Z 25) (num_mul pos_zero (num_of_decimal 75 (-2))))
                        (num_sub pos_zero (num_mul (num_of_Z 4) (num_of_decimal 75 (-2))))));
    [| vm_compute; reflexivity].
  apply (base_tile_size_value this "4px"); vm_compute; reflexivity.
Defined.

Lemma lex_tile_size (base span span1 g : string) :
  Css.lex "" ("calc((" +:+ base +:+ " * " +:+ span +:+ ") + (" +:+ span1 +:+ " * " +:+
              g +:+ "))") =
    Css.TFunc "calc" :: Css.TLParen :: Css.lex "" base ++
    Css.TStar :: Css.lex "" span ++ Css.TRParen :: Css.TPlus ::
    Css.TLParen :: Css.lex "" span1 ++ Css.TStar :: Css.lex "" g ++
    [Css.TRParen; Css.TRParen].
Proof.
  transitivity (Css.TFunc "calc" :: Css.TLParen ::
    Css.lex "" (base +:+ String " " ("* " +:+ span +:+ String ")" (" + (" +:+ span1 +:+
                String " " ("* " +:+ g +:+ String ")" ")")))));
    [reflexivity |].
  rewrite lex_app_space. do 2 f_equal. f_equal.
  transitivity (Css.TStar ::
    Css.lex "" (span +:+ String ")" (" + (" +:+ span1 +:+
                String " " ("* " +:+ g +:+ String ")" ")"))));
    [reflexivity |].
  rewrite lex_app_rparen. do 2 f_equal. f_equal.
  transitivity (Css.TPlus :: Css.TLParen ::
    Css.lex "" (span1 +:+ String " " ("* " +:+ g +:+ String ")" ")")));
    [reflexivity |].
  rewrite lex_app_space. do 3 f_equal.
  transitivity (Css.TStar :: Css.lex "" (g +:+ String ")" ")")); [reflexivity |].
  by rewrite lex_app_rparen.
Qed.

Lemma parse_tile_size (base g : string) (eb eg : Css.expr) (s s1 : number) :
  Css.parse_atom base = Some eb -> Css.parse_atom g = Some eg ->
  Css.parse_calc
    (Css.TLParen :: Css.lex "" base ++
     Css.TStar :: [Css.TNum s ""] ++ Css.TRParen :: Css.TPlus ::
     Css.TLParen :: [Css.TNum s1 ""] ++ Css.TStar :: Css.lex "" g ++
     [Css.TRParen; Css.TRParen]) =
    Some (Css.Add (Css.Mul eb (Css.Lit s "")) (Css.Mul (Css.Lit s1 "") eg)).
Proof.
  intros Hb Hg. unfold Css.parse_calc.
  set (ts := Css.TLParen :: _).
  assert (Hn : (length (Css.lex "" base) + length (Css.lex "" g) + 10 = length ts)%nat).
  { subst ts. cbn [length app]. rewrite length_app. cbn [length]. rewrite length_app.
    cbn [length]. lia. }
  destruct (length ts) as [| [| [| n]]]; [lia .. |]. subst ts.
  unfold Css.sum at 1, Css.product at 1. cbn [app].
  rewrite (parse_scaled_atom base eb) by (done || lia).
  rewrite product_rest_plus, sum_rest_plus_step.
  unfold Css.product.
  rewrite (parse_atom_scaled g eg) by (done || lia).
  by rewrite product_rest_rparen.
Qed.

Lemma tile_size_length
    (this : TileStyler.t) (baseSize gutterSize : string) (eb eg : Css.expr) (span : number) :
  TileStyler._gutterSize this = Some gutterSize ->
  Css.parse_atom baseSize = Some eb -> Css.parse_atom gutterSize = Some eg ->
  Css.lex "" (Number_toString span) = [Css.TNum span ""] ->
  Css.lex "" (Number_toString (num_sub span (num_of_Z 1))) =
    [Css.TNum (num_sub span (num_of_Z 1)) ""] ->
  Css.length_value (calc (TileStyler.getTileSize this (Some baseSize) span)) =
    match Css.eval (Css.Add (Css.Mul eb (Css.Lit span ""))
                            (Css.Mul (Css.Lit (num_sub span (num_of_Z 1)) "") eg)) with
    | Some (Css.Length p x) => Some (Css.Length p x)
    | _ => None
    end.
Proof.
  intros Hgutter Hpb Hpg Hs Hs1.
  unfold TileStyler.getTileSize, calc. rewrite Hgutter.
  unfold ToString, template_undefined, template_string, template_number, ToString.
  replace ("calc(" +:+ ("(" +:+ baseSize +:+ " * " +:+ Number_toString span +:+ ") + (" +:+
             Number_toString (num_sub span (num_of_Z 1)) +:+ " * " +:+ gutterSize +:+ ")") +:+
           ")")
    with ("calc((" +:+ baseSize +:+ " * " +:+ Number_toString span +:+ ") + (" +:+
          Number_toString (num_sub span (num_of_Z 1)) +:+ " * " +:+ gutterSize +:+ "))")
    by str_norm.
  unfold Css.length_value.
  rewrite lex_tile_size, Hs, Hs1.
  rewrite decide_True by done.
  by rewrite (parse_tile_size _ _ _ _ _ _ Hpb Hpg).
Qed.

Lemma eval_tile_size (eb eg : Css.expr) (span span1 p x gp gx : number) :
  Css.eval eb = Some (Css.Length p x) -> Css.eval eg = Some (Css.Length gp gx) ->
  Css.eval (Css.Add (Css.Mul eb (Css.Lit span "")) (Css.Mul (Css.Lit span1 "") eg)) =
    Some (Css.Length (num_add (num_mul p span) (num_mul span1 gp))
                     (num_add (num_mul x span) (num_mul span1 gx))).
Proof.
  intros Hb Hg. cbn [Css.eval]. fold (Css.eval (Css.Lit span "")).
  fold (Css.eval (Css.Lit span1 "")). by rewrite !eval_number, Hb, Hg.
Qed.

(** X10: for every span that prints as a text that reads back as the same
    number, as does the span minus one, the text [calc(getTileSize(base, span))]
    is a valid length: the base size multiplied by the span, plus the gutter
    multiplied by the span minus one. *)
Theorem tile_size_value :
  forall (this : TileStyler.t) (baseSize gutterSize : string) (span p x gp gx : number),
    TileStyler._gutterSize this = Some gutterSize ->
    Css.atom_value baseSize = Some (Css.Length p x) ->
    Css.atom_value gutterSize = Some (Css.Length gp gx) ->
    Css.lex "" (Number_toString span) = [Css.TNum span ""] ->
    Css.lex "" (Number_toString (num_sub span (num_of_Z 1))) =
      [Css.TNum (num_sub span (num_of_Z 1)) ""] ->
    Css.length_value (calc (TileStyler.getTileSize this (Some baseSize) span)) =
      Some (Css.Length
              (num_add (num_mul p span) (num_mul (num_sub span (num_of_Z 1)) gp))
              (num_add (num_mul x span) (num_mul (num_sub span (num_of_Z 1)) gx))).
Proof.
  intros this baseSize gutterSize span p x gp gx Hgutter Hbase Hg Hs Hs1.
  unfold Css.atom_value in Hbase, Hg.
  destruct (Css.parse_atom baseSize) as [eb |] eqn:Hpb; [| done].
  destruct (Css.parse_atom gutterSize) as [eg |] eqn:Hpg; [| done].
  rewrite (tile_size_length this baseSize gutterSize eb eg) by done.
  by rewrite (eval_tile_size eb eg _ _ p x gp gx).
Qed.

(** X10, for a base of [100px], a gutter of [4px] and a span of 3: 308
    pixels. *)
Lemma tile_size_value_witness :
  let this := TileStyler.init "4px"
                {| TileCoordinator.rowCount := num_of_Z 1;
                   TileCoordinator.rowspan := num_of_Z 1 |}
                (num_of_Z 4) "ltr" TileStyler.constructor in
  calc (TileStyler.getTileSize this (Some "100px") (num_of_Z 3)) =
    "calc((100px * 3) + (2 * 4px))" /\
  Css.length_value (calc (TileStyler.getTileSize this (Some "100px") (num_of_Z 3))) =
    Some (Css.Length pos_zero (num_of_Z 308)).
Proof.
  intros this. split; [vm_compute; reflexivity |].
  transitivity (Some (Css.Length
      (num_add (num_mul pos_zero (num_of_Z 3))
               (num_mul (num_sub (num_of_Z 3) (num_of_Z 1)) pos_zero))
      (num_add (num_mul (num_of_Z 100) (num_of_Z 3))
               (num_mul (num_sub (num_of_Z 3) (num_of_Z 1)) (num_of_Z 4)))));
    [| vm_compute; reflexivity].
  apply (tile_size_value this "100px" "4px"); vm_compute; reflexivity.
Defined.

(** X11: the [width] that [setColStyles] sets on a tile is a valid length
    that denotes the base tile width, which is the percent width minus the
    gutter multiplied by the gutter fraction, multiplied by the column span of
    the tile, plus the gutter multiplied by the span minus one. *)
Theorem tile_width_value :
  forall (this : TileStyler.t) (tile : MatGridTile.t) (gutterSize : string)
         (colIndex percentWidth gutterWidth gp gx : number),
    TileStyler._gutterSize this = Some gutterSize ->
    Css.atom_value gutterSize = Some (Css.Length gp gx) ->
    Css.lex "" (Number_toString percentWidth +:+ "%") = [Css.TNum percentWidth "%"] ->
    Css.lex "" (Number_toString gutterWidth) = [Css.TNum gutterWidth ""] ->
    let span := MatGridTile.colspan tile in
    Css.lex "" (Number_toString span) = [Css.TNum span ""] ->
    Css.lex "" (Number_toString (num_sub span (num_of_Z 1))) =
      [Css.TNum (num_sub span (num_of_Z 1)) ""] ->
    let basePercent := num_sub percentWidth (num_mul gp gutterWidth) in
    let basePx := num_sub pos_zero (num_mul gx gutterWidth) in
    exists width,
      MatGridTile.style
        (TileStyler.setColStyles this tile colIndex percentWidth gutterWidth) !! "width" =
        Some width /\
      Css.length_value width =
        Some (Css.Length
                (num_add (num_mul basePercent span) (num_mul (num_sub span (num_of_Z 1)) gp))
                (num_add (num_mul basePx span) (num_mul (num_sub span (num_of_Z 1)) gx))).
Proof.
  intros this tile gutterSize colIndex percentWidth gutterWidth gp gx Hgutter Hg Hp Hk
    span Hs Hs1 basePercent basePx.
  unfold Css.atom_value in Hg.
  destruct (Css.parse_atom gutterSize) as [eg |] eqn:Hpg; [| done].
  eexists. split.
  - unfold TileStyler.setColStyles, MatGridTile._setStyle; cbn. by simplify_map_eq.
  - cbn [MatGridTile.colspan]. fold span.
    rewrite (tile_size_length this _ gutterSize _ eg span Hgutter
               (base_tile_size_atom this gutterSize eg _ _ Hgutter Hpg Hp Hk) Hpg Hs Hs1).
    rewrite (eval_tile_size _ eg _ _ basePercent basePx gp gx); [done | | done].
    cbn [Css.eval]. fold (Css.eval (Css.Lit percentWidth "%")).
    fold (Css.eval (Css.Lit gutterWidth "")).
    by rewrite eval_percent, eval_number, Hg.
Qed.

(** X11, for a tile that spans two of four columns, with a gutter of [4px]:
    50% minus 2 pixels. *)
Lemma tile_width_value_witness :
  let this := TileStyler.init "4px"
                {| TileCoordinator.rowCount := num_of_Z 1; TileCoordinator.rowspan := num_of_Z 1 |}
                (num_of_Z 4) "ltr" TileStyler.constructor in
  let tile := {| MatGridTile.colspan := num_of_Z 2; MatGridTile.rowspan := num_of_Z 1;
                 MatGridTile.style := ∅ |} in
  exists width,
    MatGridTile.style
      (TileStyler.setColStyles this tile (num_of_Z 1) (num_of_Z 25) (num_of_decimal 75 (-2)))
      !! "width" = Some width /\
    width = "calc(((25% - (4px * 0.75)) * 2) + (1 * 4px))" /\
    Css.length_value width = Some (Css.Length (num_of_Z 50) (num_of_Z (-2))).
Proof.
  intros this tile.
  destruct (tile_width_value this tile "4px" (num_of_Z 1) (num_of_Z 25)
              (num_of_decimal 75 (-2)) pos_zero (num_of_Z 4)
              eq_refl eq_refl eq_refl eq_refl eq_refl eq_refl) as (width & Hstyle & Hvalue).
  exists width. split; [exact Hstyle |].
  assert (Hw : width = "calc(((25% - (4px * 0.75)) * 2) + (1 * 4px))").
  { revert Hstyle. vm_compute. by intros [= <-]. }
  split; [exact Hw |]. rewrite Hvalue. vm_compute. reflexivity.
Defined.

(** ** The computed height of the list *)

Lemma lex_computed_height (rows h g : string) :
  Css.lex "" ("calc(" +:+ rows +:+ " * (" +:+ h +:+ " * 1) + (0 * " +:+ g +:+ ") + " +:+
              g +:+ " * (" +:+ rows +:+ " - 1))") =
    Css.TFunc "calc" :: Css.lex "" rows ++
    Css.TStar :: Css.TLParen :: Css.lex "" h ++
    Css.TStar :: Css.TNum (num_of_Z 1) "" :: Css.TRParen :: Css.TPlus ::
    Css.TLParen :: Css.TNum pos_zero "" :: Css.TStar :: Css.lex "" g ++
    Css.TRParen :: Css.TPlus :: Css.lex "" g ++
    Css.TStar :: Css.TLParen :: Css.lex "" rows ++
    [Css.TMinus; Css.TNum (num_of_Z 1) ""; Css.TRParen; Css.TRParen].
Proof.
  transitivity (Css.TFunc "calc" ::
    Css.lex "" (rows +:+ String " " ("* (" +:+ h +:+ String " " ("* 1) + (0 * " +:+ g +:+
      String ")" (" + " +:+ g +:+ String " " ("* (" +:+ rows +:+ String " " "- 1))"))))));
    [reflexivity |].
  rewrite lex_app_space. f_equal. f_equal.
  transitivity (Css.TStar :: Css.TLParen ::
    Css.lex "" (h +:+ String " " ("* 1) + (0 * " +:+ g +:+
      String ")" (" + " +:+ g +:+ String " " ("* (" +:+ rows +:+ String " " "- 1))")))));
    [reflexivity |].
  rewrite lex_app_space. do 3 f_equal.
  transitivity (Css.TStar :: Css.TNum (num_of_Z 1) "" :: Css.TRParen :: Css.TPlus ::
    Css.TLParen :: Css.TNum pos_zero "" :: Css.TStar ::
    Css.lex "" (g +:+
      String ")" (" + " +:+ g +:+ String " " ("* (" +:+ rows +:+ String " " "- 1))"))));
    [reflexivity |].
  rewrite lex_app_rparen. do 8 f_equal. f_equal.
  transitivity (Css.TPlus ::
    Css.lex "" (g +:+ String " " ("* (" +:+ rows +:+ String " " "- 1))")));
    [reflexivity |].
  rewrite lex_app_space. do 2 f_equal.
  transitivity (Css.TStar :: Css.TLParen :: Css.lex "" (rows +:+ String " " "- 1))"));
    [reflexivity |].
  by rewrite lex_app_space.
Qed.

Lemma parse_computed_height (h g : string) (eh eg : Css.expr) (rows : number) :
  Css.parse_atom h = Some eh -> Css.parse_atom g = Some eg ->
  Css.parse_calc
    ([Css.TNum rows ""] ++
     Css.TStar :: Css.TLParen :: Css.lex "" h ++
     Css.TStar :: Css.TNum (num_of_Z 1) "" :: Css.TRParen :: Css.TPlus ::
     Css.TLParen :: Css.TNum pos_zero "" :: Css.TStar :: Css.lex "" g ++
     Css.TRParen :: Css.TPlus :: Css.lex "" g ++
     Css.TStar :: Css.TLParen :: [Css.TNum rows ""] ++
     [Css.TMinus; Css.TNum (num_of_Z 1) ""; Css.TRParen; Css.TRParen]) =
    Some (Css.Add
            (Css.Add (Css.Mul (Css.Lit rows "") (Css.Mul eh (Css.Lit (num_of_Z 1) "")))
                     (Css.Mul (Css.Lit pos_zero "") eg))
            (Css.Mul eg (Css.Sub (Css.Lit rows "") (Css.Lit (num_of_Z 1) "")))).
Proof.
  intros Hh Hg. unfold Css.parse_calc.
  set (ts := [Css.TNum rows ""] ++ _).
  assert (Hn : (length (Css.lex "" h) + 2 * length (Css.lex "" g) + 19 = length ts)%nat).
  { subst ts. cbn [length app]. rewrite length_app. cbn [length]. rewrite length_app.
    cbn [length]. rewrite length_app. cbn [length]. lia. }
  destruct (length ts) as [| [| [| [| [| [| [| n]]]]]]]; [lia .. |]. subst ts.
  cbn [app].
  unfold Css.sum at 1, Css.product at 1.
  rewrite parse_value_num, product_rest_star_step.
  rewrite (parse_scaled_atom h eh) by (done || lia).
  rewrite product_rest_plus, sum_rest_plus_step.
  unfold Css.product at 1.
  rewrite (parse_atom_scaled g eg) by (done || lia).
  rewrite product_rest_plus, sum_rest_plus_step.
  unfold Css.product at 1.
  rewrite (parse_atom_fuel g eg) by (done || lia).
  rewrite product_rest_star_step, parse_value_paren.
  unfold Css.sum at 1, Css.product at 1.
  rewrite parse_value_num, product_rest_minus, sum_rest_minus_step.
  unfold Css.product at 1.
  rewrite parse_value_num, product_rest_rparen, sum_rest_rparen.
  by rewrite product_rest_rparen, sum_rest_rparen.
Qed.

Lemma computed_height_length
    (this : TileStyler.t) (h g : string) (eh eg : Css.expr) :
  TileStyler._gutterSize this = Some g ->
  Css.parse_atom h = Some eh -> Css.parse_atom g = Some eg ->
  Css.lex "" (Number_toString (TileStyler._rowspan this)) =
    [Css.TNum (TileStyler._rowspan this) ""] ->
  Css.length_value
    (calc (TileStyler.getTileSpan this (Some h) +:+ " + " +:+ TileStyler.getGutterSpan this)) =
    match Css.eval
            (Css.Add
               (Css.Add (Css.Mul (Css.Lit (TileStyler._rowspan this) "")
                                 (Css.Mul eh (Css.Lit (num_of_Z 1) "")))
                        (Css.Mul (Css.Lit pos_zero "") eg))
               (Css.Mul eg (Css.Sub (Css.Lit (TileStyler._rowspan this) "")
                                    (Css.Lit (num_of_Z 1) "")))) with
    | Some (Css.Length p x) => Some (Css.Length p x)
    | _ => None
    end.
Proof.
  intros Hgutter Hh Hg Hrows.
  unfold TileStyler.getTileSpan, TileStyler.getGutterSpan, TileStyler.getTileSize, calc.
  rewrite Hgutter.
  change (ToString (num_sub (num_of_Z 1) (num_of_Z 1))) with "0".
  change (ToString (num_of_Z 1)) with "1".
  unfold ToString, template_undefined, template_string, template_number, ToString.
  set (rows := Number_toString (TileStyler._rowspan this)) in *.
  replace ("calc(" +:+ ((rows +:+ " * " +:+ "(" +:+ h +:+ " * " +:+ "1" +:+ ") + (" +:+ "0" +:+
             " * " +:+ g +:+ ")") +:+ " + " +:+ g +:+ " * (" +:+ rows +:+ " - 1)") +:+ ")")
    with ("calc(" +:+ rows +:+ " * (" +:+ h +:+ " * 1) + (0 * " +:+ g +:+ ") + " +:+
          g +:+ " * (" +:+ rows +:+ " - 1))") by str_norm.
  unfold Css.length_value. rewrite lex_computed_height, Hrows.
  rewrite decide_True by done.
  by rewrite (parse_computed_height h g eh eg _ Hh Hg).
Qed.

Lemma eval_computed_height (eh eg : Css.expr) (rows p x gp gx : number) :
  Css.eval eh = Some (Css.Length p x) -> Css.eval eg = Some (Css.Length gp gx) ->
  Css.eval
    (Css.Add
       (Css.Add (Css.Mul (Css.Lit rows "") (Css.Mul eh (Css.Lit (num_of_Z 1) "")))
                (Css.Mul (Css.Lit pos_zero "") eg))
       (Css.Mul eg (Css.Sub (Css.Lit rows "") (Css.Lit (num_of_Z 1) "")))) =
    Some (Css.Length
            (num_add (num_add (num_mul rows (num_mul p (num_of_Z 1))) (num_mul pos_zero gp))
                     (num_mul gp (num_sub rows (num_of_Z 1))))
            (num_add (num_add (num_mul rows (num_mul x (num_of_Z 1))) (num_mul pos_zero gx))
                     (num_mul gx (num_sub rows (num_of_Z 1))))).
Proof.
  intros Hh Hg. cbn [Css.eval].
  fold (Css.eval (Css.Lit rows "")). fold (Css.eval (Css.Lit (num_of_Z 1) "")).
  fold (Css.eval (Css.Lit pos_zero "")).
  by rewrite !eval_number, Hh, Hg.
Qed.

(** X12: the [height] that [FixedTileStyler.getComputedHeight] returns is a
    valid length when the row height and the gutter are lengths and the row
    span prints as a text that reads back as the same number.  It denotes, as
    the text reads, the row span multiplied by the row height (multiplied by
    1), plus 0 gutters, plus the gutter multiplied by the row span minus
    one. *)
Theorem fixed_computed_height_value :
  forall (this : FixedTileStyler.t) (gutterSize : string) (p x gp gx : number),
    let rows := TileStyler._rowspan (FixedTileStyler.super this) in
    TileStyler._gutterSize (FixedTileStyler.super this) = Some gutterSize ->
    Css.atom_value (FixedTileStyler.fixedRowHeight this) = Some (Css.Length p x) ->
    Css.atom_value gutterSize = Some (Css.Length gp gx) ->
    Css.lex "" (Number_toString rows) = [Css.TNum rows ""] ->
    exists height,
      FixedTileStyler.getComputedHeight this = Some ("height", height) /\
      Css.length_value height =
        Some (Css.Length
                (num_add (num_add (num_mul rows (num_mul p (num_of_Z 1)))
                                  (num_mul pos_zero gp))
                         (num_mul gp (num_sub rows (num_of_Z 1))))
                (num_add (num_add (num_mul rows (num_mul x (num_of_Z 1)))
                                  (num_mul pos_zero gx))
                         (num_mul gx (num_sub rows (num_of_Z 1))))).
Proof.
  intros this gutterSize p x gp gx rows Hgutter Hh Hg Hrows.
  unfold Css.atom_value in Hh, Hg.
  destruct (Css.parse_atom (FixedTileStyler.fixedRowHeight this)) as [eh |] eqn:Hph; [| done].
  destruct (Css.parse_atom gutterSize) as [eg |] eqn:Hpg; [| done].
  eexists. split; [reflexivity |].
  rewrite (computed_height_length _ _ gutterSize eh eg Hgutter Hph Hpg Hrows).
  by rewrite (eval_computed_height eh eg _ p x gp gx).
Qed.

(** X12, for three rows of [100px] and a gutter of [4px]: 308 pixels. *)
Lemma fixed_computed_height_value_witness :
  let this := {| FixedTileStyler.super :=
                   TileStyler.init "4px"
                     {| TileCoordinator.rowCount := num_of_Z 3;
                        TileCoordinator.rowspan := num_of_Z 3 |}
                     (num_of_Z 4) "ltr" TileStyler.constructor;
                 FixedTileStyler.fixedRowHeight := "100px" |} in
  exists height,
    FixedTileStyler.getComputedHeight this = Some ("height", height) /\
    height = "calc(3 * (100px * 1) + (0 * 4px) + 4px * (3 - 1))" /\
    Css.length_value height = Some (Css.Length pos_zero (num_of_Z 308)).
Proof.
  intros this.
  destruct (fixed_computed_height_value this "4px" pos_zero (num_of_Z 100) pos_zero
              (num_of_Z 4) eq_refl eq_refl eq_refl eq_refl) as (height & Hheight & Hvalue).
  exists height. split; [exact Hheight |].
  injection Hheight as <-. split; [vm_compute; reflexivity |].
  rewrite Hvalue. vm_compute. reflexivity.
Defined.

(** X13: once [setRowStyles] has run, [RatioTileStyler.getComputedHeight]
    returns a [paddingBottom] that is a valid length: it is computed from the
    base tile height that [setRowStyles] stored, which is the percent width
    divided by the ratio, minus the gutter multiplied by the gutter
    fraction. *)
Theorem ratio_computed_height_value :
  forall (this : RatioTileStyler.t) (tile : MatGridTile.t) (gutterSize : string)
         (rowIndex percentWidth gutterWidth gp gx : number),
    let rows := TileStyler._rowspan (RatioTileStyler.super this) in
    let percentHeight := RatioTileStyler.percentHeightPerTile this percentWidth in
    TileStyler._gutterSize (RatioTileStyler.super this) = Some gutterSize ->
    Css.atom_value gutterSize = Some (Css.Length gp gx) ->
    Css.lex "" (Number_toString percentHeight +:+ "%") = [Css.TNum percentHeight "%"] ->
    Css.lex "" (Number_toString gutterWidth) = [Css.TNum gutterWidth ""] ->
    Css.lex "" (Number_toString rows) = [Css.TNum rows ""] ->
    let styler :=
      (RatioTileStyler.setRowStyles this tile rowIndex percentWidth gutterWidth).1 in
    let p := num_sub percentHeight (num_mul gp gutterWidth) in
    let x := num_sub pos_zero (num_mul gx gutterWidth) in
    exists paddingBottom,
      RatioTileStyler.getComputedHeight styler = Some ("paddingBottom", paddingBottom) /\
      Css.length_value paddingBottom =
        Some (Css.Length
                (num_add (num_add (num_mul rows (num_mul p (num_of_Z 1)))
                                  (num_mul pos_zero gp))
                         (num_mul gp (num_sub rows (num_of_Z 1))))
                (num_add (num_add (num_mul rows (num_mul x (num_of_Z 1)))
                                  (num_mul pos_zero gx))
                         (num_mul gx (num_sub rows (num_of_Z 1))))).
Proof.
  intros this tile gutterSize rowIndex percentWidth gutterWidth gp gx rows percentHeight
    Hgutter Hg Hp Hk Hrows styler p x.
  unfold Css.atom_value in Hg.
  destruct (Css.parse_atom gutterSize) as [eg |] eqn:Hpg; [| done].
  exists (calc (TileStyler.getTileSpan (RatioTileStyler.super this)
                  (Some (TileStyler.getBaseTileSize (RatioTileStyler.super this)
                           percentHeight gutterWidth)) +:+ " + " +:+
                TileStyler.getGutterSpan (RatioTileStyler.super this))).
  split; [reflexivity |].
  rewrite (computed_height_length _ _ gutterSize _ eg Hgutter
             (base_tile_size_atom _ gutterSize eg _ _ Hgutter Hpg Hp Hk) Hpg Hrows).
  rewrite (eval_computed_height _ eg _ p x gp gx); [done | | done].
  cbn [Css.eval]. fold (Css.eval (Css.Lit percentHeight "%")).
  fold (Css.eval (Css.Lit gutterWidth "")).
  by rewrite eval_percent, eval_number, Hg.
Qed.

(** X13, for two rows, a ratio of 2, a percent width of 25 and a gutter of
    [4px]: 25% minus 2 pixels. *)
Lemma ratio_computed_height_value_witness :
  let this := {| RatioTileStyler.super :=
                   TileStyler.init "4px"
                     {| TileCoordinator.rowCount := num_of_Z 2;
                        TileCoordinator.rowspan := num_of_Z 2 |}
                     (num_of_Z 4) "ltr" TileStyler.constructor;
                 RatioTileStyler.rowHeightRatio := num_of_Z 2;
                 RatioTileStyler.baseTileHeight := None |} in
  let tile := {| MatGridTile.colspan := num_of_Z 1; MatGridTile.rowspan := num_of_Z 1;
                 MatGridTile.style := ∅ |} in
  exists paddingBottom,
    RatioTileStyler.getComputedHeight
      (RatioTileStyler.setRowStyles this tile (num_of_Z 0) (num_of_Z 25)
         (num_of_decimal 75 (-2))).1 = Some ("paddingBottom", paddingBottom) /\
    paddingBottom =
      "calc(2 * ((12.5% - (4px * 0.75)) * 1) + (0 * 4px) + 4px * (2 - 1))" /\
    Css.length_value paddingBottom = Some (Css.Length (num_of_Z 25) (num_of_Z (-2))).
Proof.
  intros this tile.
  destruct (ratio_computed_height_value this tile "4px" (num_of_Z 0) (num_of_Z 25)
              (num_of_decimal 75 (-2)) pos_zero (num_of_Z 4)
              eq_refl eq_refl eq_refl eq_refl eq_refl) as (paddingBottom & Hheight & Hvalue).
  exists paddingBottom. split; [exact Hheight |].
  assert (Hp : paddingBottom =
               "calc(2 * ((12.5% - (4px * 0.75)) * 1) + (0 * 4px) + 4px * (2 - 1))").
  { revert Hheight. vm_compute. by intros [= <-]. }
  split; [exact Hp |]. rewrite Hvalue. vm_compute. reflexivity.
Defined.


(** A product whose second factor starts with a word that is not a token is
    not an expression. *)
Lemma parse_calc_scaled_bad (v : number) (u w : string) (ts : list Css.token) :
  Css.parse_calc (Css.TNum v u :: Css.TStar :: Css.TLParen :: Css.TBad w :: ts) = None.
Proof.
  unfold Css.parse_calc. cbn [length].
  unfold Css.sum, Css.product. rewrite parse_value_num, product_rest_star_step.
  rewrite parse_value_paren_fails; [done |]. intros f. apply parse_value_bad.
Qed.

Lemma lex_scaled_undefined (rows rest : string) :
  Css.lex "" ("calc(" +:+ rows +:+ " * (undefined * " +:+ rest) =
    Css.TFunc "calc" :: Css.lex "" rows ++
    Css.TStar :: Css.TLParen :: Css.TBad "undefined" :: Css.TStar :: Css.lex "" rest.
Proof.
  transitivity (Css.TFunc "calc" ::
    Css.lex "" (rows +:+ String " " ("* (undefined * " +:+ rest))); [reflexivity |].
  by rewrite lex_app_space.
Qed.

(** X27: before any row has been styled, the [paddingBottom] that
    [RatioTileStyler.getComputedHeight] returns is not a valid CSS length:
    the word [undefined] stands where the base tile height belongs. *)
Theorem ratio_computed_height_before_row_styles_invalid :
  forall (this : RatioTileStyler.t),
    let rows := TileStyler._rowspan (RatioTileStyler.super this) in
    RatioTileStyler.baseTileHeight this = None ->
    Css.lex "" (Number_toString rows) = [Css.TNum rows ""] ->
    exists paddingBottom,
      RatioTileStyler.getComputedHeight this = Some ("paddingBottom", paddingBottom) /\
      Css.length_value paddingBottom = None.
Proof.
  intros this rows Hbase Hrows.
  eexists. split; [reflexivity |].
  rewrite Hbase.
  unfold TileStyler.getTileSpan, TileStyler.getGutterSpan, TileStyler.getTileSize, calc.
  set (gutter := ToString (TileStyler._gutterSize (RatioTileStyler.super this))).
  set (one := ToString (num_of_Z 1)).
  set (zero := ToString (num_sub (num_of_Z 1) (num_of_Z 1))).
  change (@ToString (option string) _ None) with "undefined".
  change (ToString (TileStyler._rowspan (RatioTileStyler.super this)))
    with (Number_toString rows).
  set (r := Number_toString rows) in *.
  replace ("calc(" +:+ ((r +:+ " * " +:+ "(" +:+ "undefined" +:+ " * " +:+ one +:+ ") + (" +:+
             zero +:+ " * " +:+ gutter +:+ ")") +:+ " + " +:+ gutter +:+ " * (" +:+ r +:+
             " - 1)") +:+ ")")
    with ("calc(" +:+ r +:+ " * (undefined * " +:+
          (one +:+ ") + (" +:+ zero +:+ " * " +:+ gutter +:+ ") + " +:+ gutter +:+ " * (" +:+
           r +:+ " - 1))")) by str_norm.
  unfold Css.length_value. rewrite lex_scaled_undefined, Hrows.
  cbn [app]. rewrite decide_True by done. by rewrite parse_calc_scaled_bad.
Qed.

(** X27, for the ratio [3:1], after [init]. *)
Lemma ratio_computed_height_before_row_styles_invalid_witness :
  exists this,
    RatioTileStyler.constructor "3:1" = Normal this /\
    Css.length_value "calc(2 * (undefined * 1) + (0 * 4px) + 4px * (2 - 1))" = None.
Proof.
  eexists. split; [reflexivity |].
  destruct (ratio_computed_height_before_row_styles_invalid
              (RatioTileStyler.init "4px"
                 {| TileCoordinator.rowCount := num_of_Z 2;
                    TileCoordinator.rowspan := num_of_Z 2 |}
                 (num_of_Z 3) "ltr"
                 {| RatioTileStyler.super := TileStyler.constructor;
                    RatioTileStyler.rowHeightRatio := num_of_Z 3;
                    RatioTileStyler.baseTileHeight := None |})
              eq_refl eq_refl) as (paddingBottom & Hheight & Hvalue).
  injection Hheight as <-. exact Hvalue.
Defined.

(** ** What the stylers write on a tile, and what they leave alone *)

(** X14: [setColStyles] writes two style properties of the tile: [width], and
    the position under [right] when the direction is exactly [rtl], under
    [left] for every other direction.  The opposite side and every other
    property are left as they were, and so are the spans of the tile. *)
Theorem setColStyles_frame :
  forall (this : TileStyler.t) (tile : MatGridTile.t) (colIndex percentWidth gutterWidth : number),
    let styled := TileStyler.setColStyles this tile colIndex percentWidth gutterWidth in
    let side := if decide (TileStyler._direction this = Some "rtl")
                then "right" else "left" in
    let other := if decide (TileStyler._direction this = Some "rtl")
                 then "left" else "right" in
    let base := TileStyler.getBaseTileSize this percentWidth gutterWidth in
    MatGridTile.style styled !! side =
      Some (TileStyler.getTilePosition this (Some base) colIndex) /\
    MatGridTile.style styled !! "width" =
      Some (calc (TileStyler.getTileSize this (Some base) (MatGridTile.colspan tile))) /\
    MatGridTile.style styled !! other = MatGridTile.style tile !! other /\
    (forall property, property <> side -> property <> "width" ->
       MatGridTile.style styled !! property = MatGridTile.style tile !! property) /\
    MatGridTile.colspan styled = MatGridTile.colspan tile /\
    MatGridTile.rowspan styled = MatGridTile.rowspan tile.
Proof.
  intros this tile colIndex percentWidth gutterWidth styled side other base.
  subst styled. unfold TileStyler.setColStyles, MatGridTile._setStyle.
  cbn [MatGridTile.style MatGridTile.colspan MatGridTile.rowspan].
  fold side. fold base.
  assert (Hne : side <> "width" /\ other <> "width" /\ other <> side).
  { subst side other.
    destruct (decide (TileStyler._direction this = Some "rtl")); repeat split; discriminate. }
  destruct Hne as (H1 & H2 & H3).
  repeat split; try intros property Hp1 Hp2; by simplify_map_eq.
Qed.

(** X15: [setStyle] of a [FixedTileStyler] leaves the styler as it is and
    writes four properties of the tile: the side and [width] from the column
    index and the column span, [top] and [height] from the row index, the row
    span and the fixed row height; the row styles do not disturb the column
    styles, and nothing else is changed. *)
Theorem fixed_setStyle_properties :
  forall (this : FixedTileStyler.t) (tile : MatGridTile.t) (rowIndex colIndex : number),
    let super := FixedTileStyler.super this in
    let styled := (setStyle this tile rowIndex colIndex).2 in
    let side := if decide (TileStyler._direction super = Some "rtl")
                then "right" else "left" in
    let baseTileWidth :=
      TileStyler.getBaseTileSize super (TileStyler.percentWidthPerTile super)
        (TileStyler.gutterWidthFractionPerTile super) in
    (setStyle this tile rowIndex colIndex).1 = this /\
    MatGridTile.style styled !! side =
      Some (TileStyler.getTilePosition super (Some baseTileWidth) colIndex) /\
    MatGridTile.style styled !! "width" =
      Some (calc (TileStyler.getTileSize super (Some baseTileWidth)
                    (MatGridTile.colspan tile))) /\
    MatGridTile.style styled !! "top" =
      Some (TileStyler.getTilePosition super
              (Some (FixedTileStyler.fixedRowHeight this)) rowIndex) /\
    MatGridTile.style styled !! "height" =
      Some (calc (TileStyler.getTileSize super
                    (Some (FixedTileStyler.fixedRowHeight this))
                    (MatGridTile.rowspan tile))) /\
    (forall property,
       property <> side -> property <> "width" -> property <> "top" ->
       property <> "height" ->
       MatGridTile.style styled !! property = MatGridTile.style tile !! property) /\
    MatGridTile.colspan styled = MatGridTile.colspan tile /\
    MatGridTile.rowspan styled = MatGridTile.rowspan tile.
Proof.
  intros this tile rowIndex colIndex super styled side baseTileWidth.
  subst styled. unfold setStyle. cbn [setRowStyles fixed_styler base fst snd].
  unfold FixedTileStyler.setRowStyles, TileStyler.setColStyles, MatGridTile._setStyle.
  cbn [MatGridTile.style MatGridTile.colspan MatGridTile.rowspan].
  fold super. fold baseTileWidth. fold side.
  assert (Hne : side <> "width" /\ side <> "top" /\ side <> "height")
    by (subst side; destruct (decide (TileStyler._direction super = Some "rtl"));
        repeat split; discriminate).
  destruct Hne as (H1 & H2 & H3).
  repeat split; try intros property Hp1 Hp2 Hp3 Hp4; by simplify_map_eq.
Qed.

(** X16: [setStyle] of a [RatioTileStyler] writes [marginTop] and
    [paddingTop], not [top] and [height], from a base tile height whose
    percentage is the percent width of a column divided by the ratio; it
    stores that base tile height in the styler, where [getComputedHeight]
    reads it, and keeps the ratio. *)
Theorem ratio_setStyle_properties :
  forall (this : RatioTileStyler.t) (tile : MatGridTile.t) (rowIndex colIndex : number),
    let super := RatioTileStyler.super this in
    let styler := (setStyle this tile rowIndex colIndex).1 in
    let styled := (setStyle this tile rowIndex colIndex).2 in
    let side := if decide (TileStyler._direction super = Some "rtl")
                then "right" else "left" in
    let baseTileHeight :=
      TileStyler.getBaseTileSize super
        (num_div (TileStyler.percentWidthPerTile super) (RatioTileStyler.rowHeightRatio this))
        (TileStyler.gutterWidthFractionPerTile super) in
    styler = {| RatioTileStyler.super := super;
                RatioTileStyler.rowHeightRatio := RatioTileStyler.rowHeightRatio this;
                RatioTileStyler.baseTileHeight := Some baseTileHeight |} /\
    MatGridTile.style styled !! "marginTop" =
      Some (TileStyler.getTilePosition super (Some baseTileHeight) rowIndex) /\
    MatGridTile.style styled !! "paddingTop" =
      Some (calc (TileStyler.getTileSize super (Some baseTileHeight)
                    (MatGridTile.rowspan tile))) /\
    (forall property,
       property <> side -> property <> "width" -> property <> "marginTop" ->
       property <> "paddingTop" ->
       MatGridTile.style styled !! property = MatGridTile.style tile !! property) /\
    RatioTileStyler.getComputedHeight styler =
      Some ("paddingBottom",
            calc (TileStyler.getTileSpan super (Some baseTileHeight) +:+ " + " +:+
                  TileStyler.getGutterSpan super)).
Proof.
  intros this tile rowIndex colIndex super styler styled side baseTileHeight.
  subst styler styled. unfold setStyle. cbn [setRowStyles ratio_styler base].
  unfold RatioTileStyler.setRowStyles, RatioTileStyler.percentHeightPerTile,
    TileStyler.setColStyles, MatGridTile._setStyle.
  cbn [fst snd MatGridTile.style MatGridTile.colspan MatGridTile.rowspan
       RatioTileStyler.super RatioTileStyler.baseTileHeight RatioTileStyler.rowHeightRatio].
  fold super. fold baseTileHeight. fold side.
  assert (Hne : side <> "width" /\ side <> "marginTop" /\ side <> "paddingTop")
    by (subst side; destruct (decide (TileStyler._direction super = Some "rtl"));
        repeat split; discriminate).
  destruct Hne as (H1 & H2 & H3).
  repeat split; try intros property Hp1 Hp2 Hp3 Hp4; by simplify_map_eq.
Qed.

(** X17: [setStyle] of a [FitTileStyler] leaves the styler as it is and
    writes [top] and [height] from a base tile height of [100 / rowspan]
    percent and a gutter fraction of [(rows - 1) / rows]; the column count
    plays no part in them, and the styler computes no height for the list. *)
Theorem fit_setStyle_properties :
  forall (this : FitTileStyler.t) (tile : MatGridTile.t) (rowIndex colIndex : number),
    let super := FitTileStyler.super this in
    let styled := (setStyle this tile rowIndex colIndex).2 in
    let side := if decide (TileStyler._direction super = Some "rtl")
                then "right" else "left" in
    let baseTileHeight :=
      TileStyler.getBaseTileSize super
        (num_div (num_of_Z 100) (TileStyler._rowspan super))
        (num_div (num_sub (TileStyler._rows super) (num_of_Z 1)) (TileStyler._rows super)) in
    (setStyle this tile rowIndex colIndex).1 = this /\
    MatGridTile.style styled !! "top" =
      Some (TileStyler.getTilePosition super (Some baseTileHeight) rowIndex) /\
    MatGridTile.style styled !! "height" =
      Some (calc (TileStyler.getTileSize super (Some baseTileHeight)
                    (MatGridTile.rowspan tile))) /\
    (forall property,
       property <> side -> property <> "width" -> property <> "top" ->
       property <> "height" ->
       MatGridTile.style styled !! property = MatGridTile.style tile !! property) /\
    getComputedHeight this = None.
Proof.
  intros this tile rowIndex colIndex super styled side baseTileHeight.
  subst styled. unfold setStyle. cbn [setRowStyles fit_styler base fst snd].
  unfold FitTileStyler.setRowStyles, FitTileStyler.percentHeightPerTile,
    FitTileStyler.gutterHeightPerTile, TileStyler.setColStyles, MatGridTile._setStyle.
  cbn [MatGridTile.style MatGridTile.colspan MatGridTile.rowspan].
  fold super. fold baseTileHeight. fold side.
  assert (Hne : side <> "width" /\ side <> "top" /\ side <> "height")
    by (subst side; destruct (decide (TileStyler._direction super = Some "rtl"));
        repeat split; discriminate).
  destruct Hne as (H1 & H2 & H3).
  repeat split; try intros property Hp1 Hp2 Hp3 Hp4; by simplify_map_eq.
Qed.

(** X26: a styler that has been constructed and not initialised has no column
    count: the percent width that [setStyle] works from is [NaN], nothing
    fails, and the [width] that is set on the tile is not a valid CSS length;
    nor is the position, except in column 0, where it is [0]. *)
Theorem setColStyles_before_init :
  forall (this : TileStyler.t) (tile : MatGridTile.t) (colIndex : number),
    TileStyler._cols this = None ->
    let percentWidth := TileStyler.percentWidthPerTile this in
    let styled :=
      TileStyler.setColStyles this tile colIndex percentWidth
        (TileStyler.gutterWidthFractionPerTile this) in
    let side := if decide (TileStyler._direction this = Some "rtl")
                then "right" else "left" in
    percentWidth = NaN /\
    (exists width,
        MatGridTile.style styled !! "width" = Some width /\
        Css.length_value width = None) /\
    (exists position,
        MatGridTile.style styled !! side = Some position /\
        Css.length_value position =
          if is_zero colIndex then Some (Css.Length pos_zero pos_zero) else None).
Proof.
  intros this tile colIndex Hcols percentWidth styled side.
  assert (Hp : percentWidth = NaN).
  { subst percentWidth. unfold TileStyler.percentWidthPerTile. by rewrite Hcols. }
  split; [exact Hp |].
  subst styled. unfold TileStyler.setColStyles, MatGridTile._setStyle.
  cbn [MatGridTile.style MatGridTile.colspan]. fold side.
  assert (Hside : side <> "width")
    by (subst side; destruct (decide (TileStyler._direction this = Some "rtl")); discriminate).
  rewrite Hp. split.
  - eexists. split; [by simplify_map_eq |].
    unfold calc, TileStyler.getTileSize, TileStyler.getBaseTileSize.
    unfold ToString at 1 2, template_undefined, template_string, template_number, ToString.
    rewrite !append_assoc.
    by apply (length_value_not_finite_percent NaN).
  - eexists. split; [by simplify_map_eq |].
    unfold TileStyler.getTilePosition. rewrite strict_eq_zero.
    destruct (is_zero colIndex); [reflexivity |].
    unfold calc, TileStyler.getBaseTileSize.
    unfold ToString at 1 2, template_undefined, template_string, template_number, ToString.
    rewrite !append_assoc.
    by apply (length_value_not_finite_percent NaN).
Qed.

(** X26, for a [FixedTileStyler] that was constructed and not initialised. *)
Lemma setColStyles_before_init_witness :
  exists this width,
    FixedTileStyler.constructor "100px" = Normal this /\
    MatGridTile.style
      (setStyle this
         {| MatGridTile.colspan := num_of_Z 1; MatGridTile.rowspan := num_of_Z 1;
            MatGridTile.style := ∅ |} (num_of_Z 0) (num_of_Z 1)).2 !! "width" = Some width /\
    Css.length_value width = None.
Proof.
  eexists.
  destruct (setColStyles_before_init TileStyler.constructor
              {| MatGridTile.colspan := num_of_Z 1; MatGridTile.rowspan := num_of_Z 1;
                 MatGridTile.style := ∅ |} (num_of_Z 1) eq_refl)
    as (_ & (width & Hstyle & Hvalue) & _).
  exists width. split; [reflexivity |]. split; [| exact Hvalue].
  revert Hstyle. unfold setStyle. cbn [setRowStyles fixed_styler base snd].
  unfold FixedTileStyler.setRowStyles, MatGridTile._setStyle.
  cbn [MatGridTile.style FixedTileStyler.super].
  intros Hstyle. by simplify_map_eq.
Defined.

(** ** [reset] against the row styles *)

Lemma clearTiles_cleared (p1 p2 : string) (tiles : list MatGridTile.t) :
  Forall2 (cleared_of p1 p2) tiles (clearTiles p1 p2 tiles).
Proof.
  unfold clearTiles. apply Forall2_fmap_r, Forall_Forall2_diag, Forall_forall.
  intros tile _. unfold cleared_of, MatGridTile._setStyle; cbn.
  repeat split; try intros property Hp1 Hp2; rewrite ?lookup_delete; repeat case_decide; done.
Qed.

(** X18: on a list whose tiles are there, [reset] returns normally for the
    three stylers and removes two properties of every tile, [top] and
    [height], or [marginTop] and [paddingTop] for the ratio styler; it keeps
    the number and the order of the tiles, their spans and every other
    property, the column styles among them.  On the list itself it removes
    [height], [paddingBottom] for the ratio styler, and nothing for the fit
    styler. *)
Theorem reset_frame :
  forall (fixed : FixedTileStyler.t) (ratio : RatioTileStyler.t) (fit : FitTileStyler.t)
         (style : gmap string string) (tiles : list MatGridTile.t),
    let list := {| TileStyleTarget.listStyle := style; TileStyleTarget._tiles := Some tiles |} in
    (exists tiles',
        reset fixed list =
          ({| TileStyleTarget.listStyle := delete "height" style;
              TileStyleTarget._tiles := Some tiles' |}, Normal ()) /\
        Forall2 (cleared_of "top" "height") tiles tiles') /\
    (exists tiles',
        reset ratio list =
          ({| TileStyleTarget.listStyle := delete "paddingBottom" style;
              TileStyleTarget._tiles := Some tiles' |}, Normal ()) /\
        Forall2 (cleared_of "marginTop" "paddingTop") tiles tiles') /\
    (exists tiles',
        reset fit list =
          ({| TileStyleTarget.listStyle := style;
              TileStyleTarget._tiles := Some tiles' |}, Normal ()) /\
        Forall2 (cleared_of "top" "height") tiles tiles').
Proof.
  intros fixed ratio fit style tiles list.
  repeat split; eexists; (split; [reflexivity | apply clearTiles_cleared]).
Qed.

Lemma setStyle_delete_insert (p1 p2 v1 v2 : string) (style : gmap string string) :
  style !! p1 = None -> style !! p2 = None ->
  delete p2 (delete p1 (<[p2 := v2]> (<[p1 := v1]> style))) = style.
Proof.
  intros H1 H2. apply map_eq; intros k.
  rewrite !lookup_delete. repeat case_decide; simplify_map_eq; done.
Qed.

(** X19: [reset] undoes [setRowStyles].  When the tiles had none of the row
    properties before their rows were styled, each at a row index of its
    own, [reset] of the same kind of styler gives back the tiles exactly as
    they were. *)
Theorem reset_undoes_row_styles :
  forall (fixed : FixedTileStyler.t) (ratio : RatioTileStyler.t) (fit : FitTileStyler.t)
         (style : gmap string string) (rows : list (MatGridTile.t * number))
         (percentWidth gutterWidth : number),
    Forall (fun row => MatGridTile.style row.1 !! "top" = None /\
                       MatGridTile.style row.1 !! "height" = None /\
                       MatGridTile.style row.1 !! "marginTop" = None /\
                       MatGridTile.style row.1 !! "paddingTop" = None) rows ->
    reset fixed
      {| TileStyleTarget.listStyle := style;
         TileStyleTarget._tiles :=
           Some ((fun row => FixedTileStyler.setRowStyles fixed row.1 row.2) <$> rows) |} =
      ({| TileStyleTarget.listStyle := delete "height" style;
          TileStyleTarget._tiles := Some rows.*1 |}, Normal ()) /\
    reset ratio
      {| TileStyleTarget.listStyle := style;
         TileStyleTarget._tiles :=
           Some ((fun row => (RatioTileStyler.setRowStyles ratio row.1 row.2
                                percentWidth gutterWidth).2) <$> rows) |} =
      ({| TileStyleTarget.listStyle := delete "paddingBottom" style;
          TileStyleTarget._tiles := Some rows.*1 |}, Normal ()) /\
    reset fit
      {| TileStyleTarget.listStyle := style;
         TileStyleTarget._tiles :=
           Some ((fun row => FitTileStyler.setRowStyles fit row.1 row.2) <$> rows) |} =
      ({| TileStyleTarget.listStyle := style;
          TileStyleTarget._tiles := Some rows.*1 |}, Normal ()).
Proof.
  intros fixed ratio fit style rows percentWidth gutterWidth Hrows.
  cbn [reset fixed_styler ratio_styler fit_styler].
  unfold FixedTileStyler.reset, RatioTileStyler.reset, FitTileStyler.reset.
  cbn [TileStyleTarget._setListStyle TileStyleTarget._tiles TileStyleTarget.listStyle].
  unfold clearTiles. rewrite <- !list_fmap_compose.
  repeat split; do 3 f_equal; apply list_fmap_ext; intros i [[cs rs st] rowIndex] Hi;
    apply (Forall_lookup_1 _ _ _ _ Hrows) in Hi as (Ht & Hh & Hm & Hp); cbn in *;
    unfold FixedTileStyler.setRowStyles, RatioTileStyler.setRowStyles,
      FitTileStyler.setRowStyles, MatGridTile._setStyle; cbn;
    f_equal; by apply setStyle_delete_insert.
Qed.

(** X19, for two rows of a tile that has a [width] only. *)
Lemma reset_undoes_row_styles_witness :
  let tile := {| MatGridTile.colspan := num_of_Z 1; MatGridTile.rowspan := num_of_Z 1;
                 MatGridTile.style := {["width" := "calc((50% - (4px * 0.5)) * 1)"]} |} in
  let fixed := {| FixedTileStyler.super := TileStyler.constructor;
                  FixedTileStyler.fixedRowHeight := "100px" |} in
  reset fixed
    {| TileStyleTarget.listStyle := {["height" := "calc(204px)"]};
       TileStyleTarget._tiles :=
         Some [FixedTileStyler.setRowStyles fixed tile (num_of_Z 0);
               FixedTileStyler.setRowStyles fixed tile (num_of_Z 1)] |} =
    ({| TileStyleTarget.listStyle := delete "height" {["height" := "calc(204px)"]};
        TileStyleTarget._tiles := Some [tile; tile] |}, Normal ()).
Proof.
  intros tile fixed.
  refine (proj1 (reset_undoes_row_styles fixed
                   {| RatioTileStyler.super := TileStyler.constructor;
                      RatioTileStyler.rowHeightRatio := num_of_Z 1;
                      RatioTileStyler.baseTileHeight := None |}
                   FitTileStyler.constructor
                   {["height" := "calc(204px)"]}
                   [(tile, num_of_Z 0); (tile, num_of_Z 1)] (num_of_Z 50) (num_of_Z 0) _)).
  repeat constructor.
Defined.

(** X20: where the tiles of the list are there, a second [reset] changes
    nothing, for the three stylers. *)
Theorem reset_twice :
  forall (fixed : FixedTileStyler.t) (ratio : RatioTileStyler.t) (fit : FitTileStyler.t)
         (style : gmap string string) (tiles : list MatGridTile.t),
    let list := {| TileStyleTarget.listStyle := style; TileStyleTarget._tiles := Some tiles |} in
    reset fixed (reset fixed list).1 = reset fixed list /\
    reset ratio (reset ratio list).1 = reset ratio list /\
    reset fit (reset fit list).1 = reset fit list.
Proof.
  intros fixed ratio fit style tiles list. subst list.
  cbn [reset fixed_styler ratio_styler fit_styler].
  unfold FixedTileStyler.reset, RatioTileStyler.reset, FitTileStyler.reset.
  cbn [fst TileStyleTarget._setListStyle TileStyleTarget._tiles TileStyleTarget.listStyle].
  by rewrite !delete_delete_eq, !clearTiles_idemp.
Qed.

(** ** The percent width of a column and the fractions of a row *)

(** The quotient [100 / c] in binary64, for a whole number [c] from 1 up. *)
Lemma percent_bound (c : positive) :
  Zpos c < 2 ^ 53 ->
  exists m e,
    num_div (num_of_Z 100) (num_of_Z (Zpos c)) = S754_finite false m e /\
    e < 0 /\ Zpos c * 2 ^ 45 <= 2 ^ (- e) /\
    2 * Z.abs (Zpos c * Zpos m - 100 * 2 ^ (- e)) <= Zpos c.
Proof.
  intros Hc.
  rewrite (num_of_Z_pos c), (num_of_Z_pos 100) by (done || lia).
  destruct (mantissa_of_value c) as (Hv2 & Hd2 & He2); [lia |].
  change (mantissa_of 100) with 7036874417766400%positive.
  change (exponent_of 100) with (-46).
  destruct (num_div_bound 7036874417766400 (mantissa_of c) (-46) (exponent_of c))
    as (m & t & Hres & Hdm & Ht & Hbound); [done | done | lia | lia |].
  set (e2 := exponent_of c) in *.
  set (E := -46 - e2 - 53 + t) in *.
  pose proof (digits2_bounds m) as Hm. rewrite Hdm in Hm.
  change (53 - 1) with 52 in Hm.
  assert (HE : E < 0) by lia.
  assert (Hulp : 2 * Z.abs (Zpos c * Zpos m - 100 * 2 ^ (- E)) <= Zpos c).
  { set (K := 2 ^ (- e2) * 2 ^ t).
    assert (HK : 0 < K) by (apply Z.mul_pos_pos; apply Z.pow_pos_nonneg; lia).
    assert (Hfac : Zpos m * 2 ^ t * Zpos (mantissa_of c) - 7036874417766400 * 2 ^ 53 =
                   K * (Zpos c * Zpos m - 100 * 2 ^ (- E))).
    { rewrite Hv2. fold e2. subst K.
      assert (H99 : 7036874417766400 * 2 ^ 53 = 100 * (2 ^ (- E) * (2 ^ (- e2) * 2 ^ t))).
      { rewrite <- !Z.pow_add_r by lia. replace (- E + (- e2 + t)) with 99 by lia.
        reflexivity. }
      rewrite H99. lia. }
    rewrite Hfac, Z.abs_mul, (Z.abs_eq K) in Hbound by lia.
    rewrite Hv2 in Hbound. fold e2 in Hbound.
    replace (Zpos c * 2 ^ (- e2) * 2 ^ t) with (K * Zpos c) in Hbound by (subst K; lia).
    apply (Z.mul_le_mono_pos_l _ _ K HK). lia. }
  exists m, E. split; [done |]. split; [done |]. split; [| done].
  (* the mantissa has 53 bits *)
  assert (Hcm : Zpos c * 2 ^ 52 <= Zpos c * Zpos m)
    by (apply Z.mul_le_mono_nonneg_l; lia).
  change (2 ^ 52) with (2 ^ 45 * 128) in Hcm.
  assert (0 < 2 ^ 45) by done.
  assert (0 < 2 ^ (- E)) by (apply Z.pow_pos_nonneg; lia).
  nia.
Qed.

(** X21: for every whole column count [c] from 1 up that a number holds
    exactly, the percent width that [setStyle] works from is the binary64
    quotient [100 / c], it is finite, and [c] columns of that width fill the
    row up to the rounding of the quotient: [c] times the percent width is
    within [2 ^ -46] of 100. *)
Theorem percent_width_fills_the_row :
  forall (this : TileStyler.t) (c : Z),
    1 <= c < 2 ^ 53 ->
    TileStyler._cols this = Some (num_of_Z c) ->
    let percent := TileStyler.percentWidthPerTile this in
    percent = num_div (num_of_Z 100) (num_of_Z c) /\
    is_finite percent = true /\
    let '(num, den) := exact_value percent in
    0 < den /\ 2 ^ 46 * Z.abs (c * num - 100 * den) <= den.
Proof.
  intros this c Hc Hcols percent.
  assert (Hp : percent = num_div (num_of_Z 100) (num_of_Z c)).
  { subst percent. unfold TileStyler.percentWidthPerTile. by rewrite Hcols. }
  split; [done |]. rewrite Hp. clear percent Hp.
  destruct c as [| cp | cp]; [lia | | lia].
  destruct (percent_bound cp ltac:(lia)) as (m & e & -> & He & Hden & Hb).
  split; [done |]. unfold exact_value.
  assert (Hneg : (0 <=? e) = false) by (apply Z.leb_gt; lia).
  rewrite Hneg.
  assert (0 < 2 ^ (- e)) by (apply Z.pow_pos_nonneg; lia).
  split; [done |].
  change (2 ^ 46) with (2 ^ 45 * 2). lia.
Qed.

(** X21, with three columns. *)
Lemma percent_width_fills_the_row_witness :
  let this := TileStyler.init "4px"
                {| TileCoordinator.rowCount := num_of_Z 1; TileCoordinator.rowspan := num_of_Z 1 |}
                (num_of_Z 3) "ltr" TileStyler.constructor in
  let '(num, den) := exact_value (TileStyler.percentWidthPerTile this) in
  0 < den /\ 2 ^ 46 * Z.abs (3 * num - 100 * den) <= den.
Proof.
  intros this.
  exact (proj2 (proj2 (percent_width_fills_the_row this 3 ltac:(lia) eq_refl))).
Defined.

(** X22: for whole numbers of rows and of spanned rows from 1 up, the
    percent height and the gutter fraction that [FitTileStyler.setRowStyles]
    works from are finite; that many rows of the percent height fill the
    list within [2 ^ -46] of 100, and the gutter fractions of the rows
    account for [rows - 1] gutters within [rows * 2 ^ -54]. *)
Theorem fit_row_fractions :
  forall (this : FitTileStyler.t) (rows rowspan : Z),
    1 <= rows < 2 ^ 53 -> 1 <= rowspan < 2 ^ 53 ->
    TileStyler._rows (FitTileStyler.super this) = num_of_Z rows ->
    TileStyler._rowspan (FitTileStyler.super this) = num_of_Z rowspan ->
    let percent := FitTileStyler.percentHeightPerTile this in
    let fraction := FitTileStyler.gutterHeightPerTile this in
    is_finite percent = true /\ is_finite fraction = true /\
    (let '(num, den) := exact_value percent in
     0 < den /\ 2 ^ 46 * Z.abs (rowspan * num - 100 * den) <= den) /\
    (let '(num, den) := exact_value fraction in
     0 < den /\ 2 ^ 54 * Z.abs (rows * num - (rows - 1) * den) <= rows * den).
Proof.
  intros this rows rowspan Hrows Hrowspan Hr Hs percent fraction.
  subst percent fraction.
  unfold FitTileStyler.percentHeightPerTile, FitTileStyler.gutterHeightPerTile.
  rewrite Hr, Hs. clear Hr Hs.
  destruct rowspan as [| sp | sp]; [lia | | lia].
  destruct (percent_bound sp ltac:(lia)) as (m & e & -> & He & Hden & Hb).
  assert (Hpercent : let '(num, den) := exact_value (S754_finite false m e) in
            0 < den /\ 2 ^ 46 * Z.abs (Zpos sp * num - 100 * den) <= den).
  { unfold exact_value.
    assert (Hneg : (0 <=? e) = false) by (apply Z.leb_gt; lia).
    rewrite Hneg.
    assert (0 < 2 ^ (- e)) by (apply Z.pow_pos_nonneg; lia).
    split; [done |]. change (2 ^ 46) with (2 ^ 45 * 2). lia. }
  destruct (Z.eq_dec rows 1) as [-> | Hne].
  { repeat split; try done; cbn; lia. }
  destruct rows as [| rp | rp]; [lia | | lia].
  destruct (gutter_fraction_bound rp ltac:(lia)) as (m' & e' & -> & He' & Hb').
  split; [done |]. split; [done |]. split; [exact Hpercent |].
  unfold exact_value.
  assert (Hneg : (0 <=? e') = false) by (apply Z.leb_gt; lia).
  rewrite Hneg.
  assert (Hden' : 2 ^ 53 <= 2 ^ (- e')) by (apply Z.pow_le_mono_r; lia).
  split; [lia |].
  change (2 ^ 54) with (2 ^ 53 * 2). change (2 ^ 53) with 9007199254740992 in *.
  nia.
Qed.

(** X22, with three rows. *)
Lemma fit_row_fractions_witness :
  let this := FitTileStyler.init "4px"
                {| TileCoordinator.rowCount := num_of_Z 3; TileCoordinator.rowspan := num_of_Z 3 |}
                (num_of_Z 4) "ltr" FitTileStyler.constructor in
  let '(num, den) := exact_value (FitTileStyler.percentHeightPerTile this) in
  0 < den /\ 2 ^ 46 * Z.abs (3 * num - 100 * den) <= den.
Proof.
  intros this.
  exact (proj1 (proj2 (proj2 (fit_row_fractions this 3 3 ltac:(lia) ltac:(lia)
                                eq_refl eq_refl)))).
Defined.

(** ** [setLines] *)

Lemma strict_eq_finite (x : number) (s : bool) (m : positive) (e : Z) :
  strict_eq x (S754_finite s m e) = true -> x = S754_finite s m e.
Proof.
  unfold strict_eq, SFeqb, SFcompare.
  destruct x as [sx | sx | | sx mx ex]; try done; try (by destruct sx, s).
  destruct (Z.compare_spec ex e) as [-> | |]; [| by destruct sx, s ..].
  change (PosDef.Pos.compare_cont Eq mx m) with (Pos.compare mx m).
  destruct (Pos.compare_spec mx m) as [-> | |]; by destruct sx, s.
Qed.

Lemma append_inj_l (p a b : string) : p +:+ a = p +:+ b -> a = b.
Proof.
  induction p as [| c p IH]; [done |].
  change (String c (p +:+ a) = String c (p +:+ b) -> a = b). intros [= H]. by apply IH.
Qed.

Lemma setLines_next_classList (element : ElementRef.t) (prefix : string) (length : number) :
  let classes : gset string :=
    {[prefix +:+ "-2-line"; prefix +:+ "-3-line"; prefix +:+ "-multi-line"]} in
  ElementRef.classList (setLines_next element prefix length) =
    (ElementRef.classList element ∖ classes) ∪
    (if strict_eq length (num_of_Z 2) then {[prefix +:+ "-2-line"]}
     else if strict_eq length (num_of_Z 3) then {[prefix +:+ "-3-line"]}
     else if num_gt length (num_of_Z 3) then {[prefix +:+ "-multi-line"]}
     else ∅).
Proof.
  intros classes. subst classes. unfold setLines_next, setClass, ToString at 1 2 3 4 6, template_string.
  cbn [ElementRef.classList].
  destruct (strict_eq length (num_of_Z 2)) eqn:H2.
  { apply strict_eq_finite in H2 as ->. cbn [orb ElementRef.classList].
    change (ToString (S754_finite false 4503599627370496 (-51))) with "2".
    change ("-" +:+ "2" +:+ "-line") with "-2-line". apply set_eq; intros k; set_unfold; tauto. }
  destruct (strict_eq length (num_of_Z 3)) eqn:H3.
  { apply strict_eq_finite in H3 as ->. cbn [orb ElementRef.classList].
    change (ToString (S754_finite false 6755399441055744 (-51))) with "3".
    change ("-" +:+ "3" +:+ "-line") with "-3-line". apply set_eq; intros k; set_unfold; tauto. }
  cbn [orb]. destruct (num_gt length (num_of_Z 3)); cbn [ElementRef.classList];
    apply set_eq; intros k; set_unfold; tauto.
Qed.

Lemma line_classes_distinct (prefix : string) :
  prefix +:+ "-2-line" <> prefix +:+ "-3-line" /\
  prefix +:+ "-2-line" <> prefix +:+ "-multi-line" /\
  prefix +:+ "-3-line" <> prefix +:+ "-multi-line".
Proof. repeat split; intros H; by apply append_inj_l in H. Qed.

(** X23: after the subscriber of [setLines] has run on a list, the host has
    at most one of the three line classes, chosen by the number of lines
    only: [prefix-2-line] exactly when there are 2 lines, [prefix-3-line]
    exactly when there are 3, [prefix-multi-line] exactly when there are more
    than 3, and none for 0 or 1 line.  Every other class of the host is left
    as it was. *)
Theorem setLines_next_line_classes :
  forall (element : ElementRef.t) (prefix : string) (length : number),
    let classList := ElementRef.classList (setLines_next element prefix length) in
    (prefix +:+ "-2-line" ∈ classList <-> strict_eq length (num_of_Z 2) = true) /\
    (prefix +:+ "-3-line" ∈ classList <-> strict_eq length (num_of_Z 3) = true) /\
    (prefix +:+ "-multi-line" ∈ classList <-> num_gt length (num_of_Z 3) = true) /\
    (forall className,
       className <> prefix +:+ "-2-line" -> className <> prefix +:+ "-3-line" ->
       className <> prefix +:+ "-multi-line" ->
       (className ∈ classList <-> className ∈ ElementRef.classList element)).
Proof.
  intros element prefix length classList. subst classList.
  rewrite setLines_next_classList. cbv zeta.
  destruct (line_classes_distinct prefix) as (H23 & H2m & H3m).
  assert (E23 : strict_eq (num_of_Z 2) (num_of_Z 3) = false) by reflexivity.
  assert (G23 : num_gt (num_of_Z 2) (num_of_Z 3) = false) by reflexivity.
  assert (G33 : num_gt (num_of_Z 3) (num_of_Z 3) = false) by reflexivity.
  destruct (strict_eq length (num_of_Z 2)) eqn:H2.
  { apply strict_eq_finite in H2. change (length = num_of_Z 2) in H2. subst length.
    rewrite E23, G23.
    repeat split; try intros className Hn2 Hn3 Hnm; set_unfold; intuition congruence. }
  destruct (strict_eq length (num_of_Z 3)) eqn:H3.
  { apply strict_eq_finite in H3. change (length = num_of_Z 3) in H3. subst length.
    rewrite G33.
    repeat split; try intros className Hn2 Hn3 Hnm; set_unfold; intuition congruence. }
  destruct (num_gt length (num_of_Z 3));
    repeat split; try intros className Hn2 Hn3 Hnm; set_unfold; intuition congruence.
Qed.

Lemma setLines_next_absorbs (element : ElementRef.t) (prefix : string) (m n : number) :
  setLines_next (setLines_next element prefix m) prefix n = setLines_next element prefix n.
Proof.
  assert (H : forall a b : ElementRef.t,
             ElementRef.classList a = ElementRef.classList b -> a = b).
  { intros [a] [b]; cbn; by intros ->. }
  apply H. rewrite !setLines_next_classList. cbv zeta.
  destruct (strict_eq m (num_of_Z 2)), (strict_eq m (num_of_Z 3)), (num_gt m (num_of_Z 3));
    apply set_eq; intros k; set_unfold; tauto.
Qed.

Lemma List_last_cons {A : Type} (a b : A) (l : list A) : List.last (b :: l) a = List.last l b.
Proof.
  revert a b. induction l as [| c l IH]; intros a b; [done |].
  change (List.last (c :: l) a = List.last (c :: l) b). by rewrite !IH.
Qed.

Lemma setLines_latest (lines : QueryList.t) (element : ElementRef.t) (prefix : string) :
  foldl (fun element length => setLines_next element prefix length) element
        (QueryList.length lines :: QueryList.changes lines) =
    setLines_next element prefix
      (List.last (QueryList.changes lines) (QueryList.length lines)).
Proof.
  destruct lines as [length changes].
  cbn [QueryList.length QueryList.changes foldl].
  revert length. induction changes as [| n changes IH]; intros length; [reflexivity |].
  cbn [foldl]. by rewrite setLines_next_absorbs, IH, List_last_cons.
Qed.

(** X24: whatever lists [changes] has emitted, the classes that [setLines]
    leaves on the host are those of the latest count alone, under the prefix
    [mat] when none is given: what the earlier counts added is removed.  So
    it is for [new MatLineSetter(lines, element)], which uses the prefix
    [mat]. *)
Theorem setLines_latest_count :
  forall (lines : QueryList.t) (element : ElementRef.t) (prefix : option string),
    let latest := List.last (QueryList.changes lines) (QueryList.length lines) in
    setLines lines element prefix = setLines_next element (default "mat" prefix) latest /\
    MatLineSetter.constructor lines element = setLines_next element "mat" latest.
Proof.
  intros lines element prefix latest. unfold MatLineSetter.constructor, setLines.
  by rewrite !setLines_latest.
Qed.

(** ** [mixinTabIndex] *)

(** X25: after any sequence of assignments to [tabIndex], the component is
    disabled or not as it was built, and reading [tabIndex] gives -1 when it
    is disabled; otherwise it gives the coerced value of the last
    assignment, and the default tab index (0 when none is given) when there
    was no assignment or the last one was [null] or [undefined]. *)
Theorem tabIndex_after_assignments :
  forall (Value : Type) (coerceNumberProperty : Value -> number)
         (defaultTabIndex : option number) (disabled : bool) (values : list (option Value)),
    let this :=
      foldl (mixinTabIndex.set_tabIndex coerceNumberProperty defaultTabIndex)
            (mixinTabIndex.constructor defaultTabIndex disabled) values in
    mixinTabIndex.disabled this = disabled /\
    mixinTabIndex.tabIndex this =
      if disabled then num_of_Z (-1)
      else match last values with
           | Some (Some v) => coerceNumberProperty v
           | _ => default (num_of_Z 0) defaultTabIndex
           end.
Proof.
  intros Value coerce defaultTabIndex disabled values.
  induction values as [| v values IH] using rev_ind; [by destruct disabled |].
  cbv zeta in *. rewrite foldl_app, last_snoc. cbn [foldl].
  set (this := foldl _ _ values) in *.
  destruct IH as [Hd _]. unfold mixinTabIndex.tabIndex, mixinTabIndex.set_tabIndex.
  cbn [mixinTabIndex.disabled mixinTabIndex._tabIndex]. rewrite Hd.
  split; [done |]. by destruct disabled, v.
Qed.
